(** * crypto-client: the signed request pipeline and the portfolio roll-up

    A shallow embedding of the Go packages [coinbase] (the client and its
    types) and [cmd] (the [coinbase] sub-command) of
    KalebHawkins/crypto-client, and the properties of its specification
    that hold, or fail, on it.

    Conventions of the embedding.
    - A Go [string] and a Go [[]byte] are both sequences of bytes; strings
      are Rocq [string]s and byte slices handed to the hash are [list Z]
      with every element in [0, 256).
    - A Go function returning [(T, error)] returns a pair [T * option error];
      [None] is Go's [nil] error.  An [error] is identified with its
      [Error()] text.
    - [float64] is Rocq's primitive binary64 [float]; [+], [-], [*] and [<]
      are the IEEE 754 operations, each result rounded on its own (no
      fused multiply-add, which is what Go's default build for amd64 does).
    - The process state that the program reads and writes (environment,
      package-level variables, the clock, the remote service, the standard
      streams) is a record [World]; a function with effects is a state
      transformer [M A] that can also stop the process ([os.Exit]) or
      panic.
    - Goroutines run interleaved, one observable step at a time, in the
      order a scheduler chooses; the scheduler is part of the world, and
      what is proved of a fan-out is proved for every choice it makes. *)

From Stdlib Require Import ZArith List String Ascii Bool Lia.
From Stdlib Require Import DecimalString.
From Stdlib Require Import Floats.PrimFloat.
From Stdlib Require Uint63 Floats.SpecFloat Floats.FloatOps.
From Stdlib Require Import Permutation.
Import ListNotations.

Local Open Scope string_scope.
Local Open Scope Z_scope.

(** ** Bytes, decimal and hexadecimal text *)

Definition bytes := list Z.

(** Go's [[]byte(s)]. *)
Definition bytes_of_string (s : string) : bytes :=
  map (fun c => Z.of_N (N_of_ascii c)) (list_ascii_of_string s).

(** Go's [string(b)]. *)
Definition string_of_bytes (b : bytes) : string :=
  string_of_list_ascii (map (fun z => ascii_of_N (Z.to_N z)) b).

(** [fmt.Sprintf("%v", n)] for an [int64]: the decimal numeral, with a
    leading minus sign when negative. *)
Definition Sprint_int (n : Z) : string := NilEmpty.string_of_int (Z.to_int n).

Definition hex_digit (d : Z) : ascii :=
  if d <? 10 then ascii_of_N (Z.to_N (48 + d)) else ascii_of_N (Z.to_N (87 + d)).

(** [hex.EncodeToString]: two lower-case digits per byte. *)
Fixpoint hex_EncodeToString (b : bytes) : string :=
  match b with
  | [] => EmptyString
  | x :: rest =>
      String (hex_digit (Z.shiftr x 4))
        (String (hex_digit (Z.land x 15)) (hex_EncodeToString rest))
  end.

(** ** SHA-256 (FIPS 180-4) and HMAC (RFC 2104)

    [crypto/sha256] and [crypto/hmac] are Go's standard library; they are
    modelled by the standards they implement, on 32-bit words held in [Z]
    with the wrap-around written out. *)

Module SHA256.

Local Open Scope list_scope.

Definition mask32 : Z := 4294967295.
Definition wrap (x : Z) : Z := Z.land x mask32.
Definition plus (x y : Z) : Z := wrap (x + y).
Definition rotr (n x : Z) : Z :=
  Z.lor (Z.shiftr x n) (wrap (Z.shiftl x (32 - n))).
Definition shr (n x : Z) : Z := Z.shiftr x n.
Definition lnot32 (x : Z) : Z := Z.lxor x mask32.

Definition Ch (x y z : Z) : Z := Z.lxor (Z.land x y) (Z.land (lnot32 x) z).
Definition Maj (x y z : Z) : Z :=
  Z.lxor (Z.lxor (Z.land x y) (Z.land x z)) (Z.land y z).
Definition bigS0 (x : Z) := Z.lxor (Z.lxor (rotr 2 x) (rotr 13 x)) (rotr 22 x).
Definition bigS1 (x : Z) := Z.lxor (Z.lxor (rotr 6 x) (rotr 11 x)) (rotr 25 x).
Definition smallS0 (x : Z) := Z.lxor (Z.lxor (rotr 7 x) (rotr 18 x)) (shr 3 x).
Definition smallS1 (x : Z) := Z.lxor (Z.lxor (rotr 17 x) (rotr 19 x)) (shr 10 x).

(** The round constants are the first 32 fractional bits of the cube
    roots of the first 64 primes, the initial state those of the square
    roots of the first 8; both are computed rather than tabulated. *)
Fixpoint has_divisor (fuel : nat) (d n : Z) : bool :=
  match fuel with
  | O => false
  | S fuel' =>
      if n <? d * d then false
      else if n mod d =? 0 then true
      else has_divisor fuel' (d + 1) n
  end.

Definition is_prime (n : Z) : bool := (2 <=? n) && negb (has_divisor 20 2 n).

Definition primes64 : list Z :=
  filter is_prime (map Z.of_nat (seq 2 310)).

(** Largest [r] in [lo, lo + 2^bits) with [r^3 <= n], by bisection
    on the bits from the top. *)
Fixpoint cube_root_bits (bits : nat) (lo n : Z) : Z :=
  match bits with
  | O => lo
  | S b =>
      let cand := lo + Z.shiftl 1 (Z.of_nat b) in
      if cand * cand * cand <=? n
      then cube_root_bits b cand n
      else cube_root_bits b lo n
  end.

Definition frac_cbrt32 (p : Z) : Z := wrap (cube_root_bits 40 0 (Z.shiftl p 96)).
Definition frac_sqrt32 (p : Z) : Z := wrap (Z.sqrt (Z.shiftl p 64)).

Definition K : list Z := Eval vm_compute in map frac_cbrt32 primes64.
Definition H0 : list Z := Eval vm_compute in map frac_sqrt32 (firstn 8 primes64).

(** Padding: a 1 bit, zeros up to 56 mod 64 bytes, the bit length on
    64 bits, big-endian. *)
Fixpoint be_bytes (n : nat) (x : Z) : bytes :=
  match n with
  | O => []
  | S n' => Z.land (Z.shiftr x (8 * Z.of_nat n')) 255 :: be_bytes n' x
  end.

Definition pad (msg : bytes) : bytes :=
  let len := Z.of_nat (List.length msg) in
  let zeros := Z.to_nat ((55 - len) mod 64) in
  msg ++ 128 :: repeat 0 zeros ++ be_bytes 8 (8 * len).

(** Big-endian 32-bit words of a byte sequence. *)
Fixpoint words (n : nat) (b : bytes) : list Z :=
  match n with
  | O => []
  | S n' =>
      match b with
      | b0 :: b1 :: b2 :: b3 :: rest =>
          (Z.shiftl b0 24 + Z.shiftl b1 16 + Z.shiftl b2 8 + b3) :: words n' rest
      | _ => []
      end
  end.

(** The message schedule, most recent word first. *)
Fixpoint extend (n : nat) (ws : list Z) : list Z :=
  match n with
  | O => ws
  | S n' =>
      let w := plus (plus (smallS1 (nth 1 ws 0)) (nth 6 ws 0))
                    (plus (smallS0 (nth 14 ws 0)) (nth 15 ws 0)) in
      extend n' (w :: ws)
  end.

Definition schedule (block : bytes) : list Z :=
  rev (extend 48 (rev (words 16 block))).

Record regs := Regs { ra : Z; rb : Z; rc : Z; rd : Z; re : Z; rf : Z; rg : Z; rh : Z }.

Definition round (s : regs) (kw : Z * Z) : regs :=
  let (k, w) := kw in
  let t1 := plus (plus (plus (rh s) (bigS1 (re s))) (plus (Ch (re s) (rf s) (rg s)) k)) w in
  let t2 := plus (bigS0 (ra s)) (Maj (ra s) (rb s) (rc s)) in
  Regs (plus t1 t2) (ra s) (rb s) (rc s) (plus (rd s) t1) (re s) (rf s) (rg s).

Definition compress (s : regs) (block : bytes) : regs :=
  let s' := fold_left round (combine K (schedule block)) s in
  Regs (plus (ra s) (ra s')) (plus (rb s) (rb s')) (plus (rc s) (rc s'))
       (plus (rd s) (rd s')) (plus (re s) (re s')) (plus (rf s) (rf s'))
       (plus (rg s) (rg s')) (plus (rh s) (rh s')).

Fixpoint blocks (n : nat) (b : bytes) : list bytes :=
  match n with
  | O => []
  | S n' => firstn 64 b :: blocks n' (skipn 64 b)
  end.

Definition init : regs :=
  Regs (nth 0 H0 0) (nth 1 H0 0) (nth 2 H0 0) (nth 3 H0 0)
       (nth 4 H0 0) (nth 5 H0 0) (nth 6 H0 0) (nth 7 H0 0).

Definition digest (msg : bytes) : bytes :=
  let p := pad msg in
  let s := fold_left compress (blocks (List.length p / 64) p) init in
  flat_map (be_bytes 4)
    [ra s; rb s; rc s; rd s; re s; rf s; rg s; rh s].

End SHA256.

Module HMAC.

Local Open Scope list_scope.

Definition block_size : nat := 64.

(** Keys longer than a block are hashed first; the key is then padded
    with zeros to a full block. *)
Definition block_key (key : bytes) : bytes :=
  let k := if (block_size <? List.length key)%nat then SHA256.digest key else key in
  k ++ repeat 0 (block_size - List.length k).

Definition sha256 (key msg : bytes) : bytes :=
  let k := block_key key in
  let inner := SHA256.digest (map (Z.lxor 54) k ++ msg) in
  SHA256.digest (map (Z.lxor 92) k ++ inner).

(** The [hash.Hash] returned by [hmac.New(sha256.New, key)]: the key and
    what has been written so far. *)
Record Hash := { hkey : bytes; written : bytes }.

Definition New (key : bytes) : Hash := {| hkey := key; written := [] |}.
Definition Write (h : Hash) (p : bytes) : Hash :=
  {| hkey := hkey h; written := written h ++ p |}.
(** [h.Sum(b)] appends the MAC of what was written to [b]. *)
Definition Sum (h : Hash) (b : bytes) : bytes := b ++ sha256 (hkey h) (written h).

End HMAC.

(** ** Domain records (package [coinbase], src/unnamed/part_001)

    The structs are kept with the fields the program reads; the fields
    that are decoded and never read (pagination cursors, resource paths,
    flags) are left out.  The anonymous [struct { Amount, Currency }] of
    a balance, an amount and a native amount is one record, [Money]. *)

Definition error := string.

(** A [time.Time]: an instant in nanoseconds since the Unix epoch. *)
Definition Time := Z.

(** The zero [time.Time]: January 1 of year 1, 00:00:00 UTC, whose
    [Unix()] is -62135596800. *)
Definition Time_zero : Time := -62135596800 * 1000000000.

(** [t.Unix()]: whole seconds since the epoch. *)
Definition Unix (t : Time) : Z := t / 1000000000.

Record Money := { Amount : string; Currency : string }.

Record UserData := {
  user_ID : string;
  user_Name : string;
  user_TimeZone : string;
  user_NativeCurrency : string;
  user_BitcoinUnit : string;
  user_State : string;
  user_CountryCode : string;
  user_CreatedAt : Time
}.
Record User := { User_Data : UserData }.

Record AccountEntry := {
  acct_ID : string;
  acct_Name : string;
  acct_Balance : Money
}.
Record Account := { Account_Data : list AccountEntry }.

Record PriceData := { Base : string; price_Amount : string; price_Currency : string }.
Record Price := { Price_Data : PriceData }.

Record TransactionEntry := {
  tr_ID : string;
  tr_Type : string;
  tr_Amount : Money;
  tr_NativeAmount : Money;
  tr_CreatedAt : Time;
  tr_PaymentMethodName : string;
  tr_Header : string
}.
Record Transaction := { Transaction_Data : list TransactionEntry }.

(** [map[string]interface{}]: a decoded JSON object. *)
#[warnings="-register-all"]
Inductive JSON :=
| JNull
| JBool (b : bool)
| JNumber (x : float)
| JString (s : string)
| JArray (l : list JSON)
| JObject (m : list (string * JSON)).
Definition ExchangeRate := list (string * JSON).

(** Go's zero values: [User{}], [Account{}], [Price{}], [Transaction{}]. *)
Definition User_zero : User :=
  {| User_Data := {| user_ID := ""; user_Name := ""; user_TimeZone := "";
                     user_NativeCurrency := ""; user_BitcoinUnit := "";
                     user_State := ""; user_CountryCode := "";
                     user_CreatedAt := Time_zero |} |}.
Definition Account_zero : Account := {| Account_Data := [] |}.
Definition Price_zero : Price :=
  {| Price_Data := {| Base := ""; price_Amount := ""; price_Currency := "" |} |}.
Definition Transaction_zero : Transaction := {| Transaction_Data := [] |}.

(** Package-level constants of [coinbase]. *)
Definition cbAPIVersion : string := "2017-08-31".
Definition apiEndpointBase : string := "https://api.coinbase.com/v2/".
Definition Buy : string := "buy".
Definition Sell : string := "sell".
Definition Spot : string := "spot".
Definition InflationReward : string := "inflation_reward".

(** ** HTTP requests and responses *)

Record URL := { Scheme : string; Host : string; Path : string; RawQuery : string }.

Record Request := {
  Method : string;
  Url : URL;
  Header : list (string * string)
}.

(** An [http.Header] is a [map[string][]string] from canonical names to
    the values added under them.  Here it is the list of the (name,
    value) pairs in the order in which they were added: the values of one
    name are in the order of the map, the order between different names
    carries no meaning (statements about a header are made with
    [Header_Get] or up to a permutation). *)

(** [validHeaderFieldByte]: the bytes of an HTTP token. *)
Definition validHeaderFieldByte (c : ascii) : bool :=
  let n := nat_of_ascii c in
  ((48 <=? n) && (n <=? 57))%nat || ((65 <=? n) && (n <=? 90))%nat
  || ((97 <=? n) && (n <=? 122))%nat
  || existsb (Ascii.eqb c) (list_ascii_of_string "!#$%&'*+-.^_`|~").

Fixpoint canonical_from (upper : bool) (s : string) : string :=
  match s with
  | EmptyString => EmptyString
  | String c rest =>
      let n := nat_of_ascii c in
      let c' :=
        if (upper && (97 <=? n) && (n <=? 122))%nat then ascii_of_nat (n - 32)
        else if (negb upper && (65 <=? n) && (n <=? 90))%nat then ascii_of_nat (n + 32)
        else c in
      String c' (canonical_from (Ascii.eqb c' "-") rest)
  end.

(** [textproto.CanonicalMIMEHeaderKey]: the first letter and every letter
    after a hyphen in upper case, the other letters in lower case; a name
    that holds a byte that is not a token byte is returned as it is. *)
Definition CanonicalMIMEHeaderKey (s : string) : string :=
  if forallb validHeaderFieldByte (list_ascii_of_string s)
  then canonical_from true s
  else s.

(** [r.Header.Add(key, value)]: the value is appended to the values of
    the canonical form of the name. *)
Definition Header_Add (r : Request) (key value : string) : Request :=
  {| Method := Method r; Url := Url r;
     Header := (Header r ++ [(CanonicalMIMEHeaderKey key, value)])%list |}.

Fixpoint first_value (h : list (string * string)) (name : string) : string :=
  match h with
  | [] => ""
  | (k, v) :: rest => if String.eqb k name then v else first_value rest name
  end.

(** [h.Get(key)]: the first value under the canonical form of the name,
    the empty string when there is none. *)
Definition Header_Get (h : list (string * string)) (key : string) : string :=
  first_value h (CanonicalMIMEHeaderKey key).

(** An [*http.Response]; [Body] is what [ioutil.ReadAll(resp.Body)]
    returns, the bytes read and the read error if any. *)
Record Response := {
  Status : string;
  StatusCode : Z;
  Body : string * option error
}.

(** ** The table sink ([github.com/rodaine/table])

    A table is its header and the rows added so far; a cell holds the
    value passed to [AddRow].  Header colouring and capitalisation are
    presentation and are not modelled. *)

Inductive Cell :=
| CString (s : string)
| CFloat (x : float)
| CTime (t : Time).

Record Table := { header : list string; rows : list (list Cell) }.

Definition table_New (h : list string) : Table := {| header := h; rows := [] |}.
Definition AddRow (t : Table) (r : list Cell) : Table :=
  {| header := header t; rows := (rows t ++ [r])%list |}.

(** ** Library functions taken as given

    The standard-library and third-party functions whose results the
    program consumes but whose algorithms are not part of it. *)

Record GoLib := {
  (** [strconv.ParseFloat(s, 64)] *)
  ParseFloat : string -> float * option error;
  (** [fmt.Sprintf("%f", x)] and [fmt.Sprintf("%.2f", x)] *)
  Sprintf_f : float -> string;
  Sprintf_2f : float -> string;
  (** [url.Parse], as [http.NewRequest] calls it *)
  url_Parse : string -> URL + error;
  (** [json.Unmarshal(body, &v)] into a zero-valued [v]: the value of [v]
      afterwards and the error *)
  Unmarshal_User : string -> User * option error;
  Unmarshal_Account : string -> Account * option error;
  Unmarshal_ExchangeRate : string -> ExchangeRate * option error;
  Unmarshal_Price : string -> Price * option error;
  Unmarshal_Transaction : string -> Transaction * option error;
  (** [t.Format(layout)], [t.Local()], [d.String()] for a duration in
      nanoseconds *)
  time_Format : Time -> string -> string;
  time_Local : Time -> Time;
  Duration_String : Z -> string;
  (** what [tbl.Print()] writes *)
  table_render : Table -> string
}.

(** ** The process and its world *)

Inductive Event :=
| EvNow (t : Time)                              (* time.Now() returned t *)
| EvDo (req : Request) (res : Response + error) (* hc.Do(req) returned res *)
| EvStdout (s : string)                         (* text written to stdout *)
| EvPrintTable (t : Table)                      (* tbl.Print() to stdout *)
| EvStderr (s : string)                         (* text written to stderr *)
| EvGo (arg : string)                           (* a go statement ran *)
| EvWgAdd (n : Z)                               (* wg.Add(n) *)
| EvWgDone                                      (* wg.Done() *)
| EvWgWait.                                     (* wg.Wait() returned *)

Record World := {
  environ : string -> string;          (* os.Getenv *)
  cbAPIKey : string;                   (* package variables of coinbase *)
  cbAPISecret : string;
  clock : nat -> Time;                 (* the n-th reading of the clock *)
  clock_reads : nat;
  remote : nat -> Request -> Response + error;  (* the n-th round trip *)
  round_trips : nat;
  scheduler : nat -> nat;              (* which ready goroutine runs next *)
  trace : list Event                   (* what has happened, oldest first *)
}.

Inductive Outcome (A : Type) : Type :=
| Ret (a : A)          (* the function returned a *)
| Exit (code : Z)      (* os.Exit(code) *)
| Panic (e : error).   (* panic(e) *)
Arguments Ret {A} a.
Arguments Exit {A} code.
Arguments Panic {A} e.

Definition M (A : Type) : Type := World -> Outcome A * World.

Definition ret {A} (a : A) : M A := fun w => (Ret a, w).

Definition bind {A B} (m : M A) (k : A -> M B) : M B :=
  fun w =>
    match m w with
    | (Ret a, w') => k a w'
    | (Exit c, w') => (Exit c, w')
    | (Panic e, w') => (Panic e, w')
    end.

Declare Scope go_scope.
Delimit Scope go_scope with go.
Notation "x <- m ;; k" := (bind m (fun x => k))
  (at level 61, m at next level, right associativity) : go_scope.
Notation "' pat <- m ;; k" := (bind m (fun x => match x with pat => k end))
  (at level 61, pat pattern, m at next level, right associativity) : go_scope.
Notation "m ;; k" := (bind m (fun _ => k))
  (at level 61, right associativity) : go_scope.
Local Open Scope go_scope.

(** A [for ... range l] loop that threads the variables it updates. *)
Fixpoint foldM {A S} (body : S -> A -> M S) (l : list A) (s : S) : M S :=
  match l with
  | [] => ret s
  | a :: rest => s' <- body s a ;; foldM body rest s'
  end.

Definition emit (e : Event) : M unit :=
  fun w =>
    (Ret tt,
     {| environ := environ w; cbAPIKey := cbAPIKey w; cbAPISecret := cbAPISecret w;
        clock := clock w; clock_reads := clock_reads w;
        remote := remote w; round_trips := round_trips w;
        scheduler := scheduler w; trace := (trace w ++ [e])%list |}).

(** [time.Now()]: consumes one reading of the clock. *)
Definition time_Now : M Time :=
  fun w =>
    let t := clock w (clock_reads w) in
    (Ret t,
     {| environ := environ w; cbAPIKey := cbAPIKey w; cbAPISecret := cbAPISecret w;
        clock := clock w; clock_reads := S (clock_reads w);
        remote := remote w; round_trips := round_trips w;
        scheduler := scheduler w; trace := (trace w ++ [EvNow t])%list |}).

(** [hc.Do(req)]: one round trip to the remote service. *)
Definition http_Do (req : Request) : M (Response + error) :=
  fun w =>
    let res := remote w (round_trips w) req in
    (Ret res,
     {| environ := environ w; cbAPIKey := cbAPIKey w; cbAPISecret := cbAPISecret w;
        clock := clock w; clock_reads := clock_reads w;
        remote := remote w; round_trips := S (round_trips w);
        scheduler := scheduler w; trace := (trace w ++ [EvDo req res])%list |}).

Definition os_Getenv (key : string) : M string := fun w => (Ret (environ w key), w).
Definition os_Exit {A} (code : Z) : M A := fun w => (Exit code, w).
Definition panic {A} (e : error) : M A := fun w => (Panic e, w).

Definition get_cbAPIKey : M string := fun w => (Ret (cbAPIKey w), w).
Definition get_cbAPISecret : M string := fun w => (Ret (cbAPISecret w), w).
Definition set_cbAPIKey (key : string) : M unit :=
  fun w =>
    (Ret tt,
     {| environ := environ w; cbAPIKey := key; cbAPISecret := cbAPISecret w;
        clock := clock w; clock_reads := clock_reads w;
        remote := remote w; round_trips := round_trips w;
        scheduler := scheduler w; trace := trace w |}).
Definition set_cbAPISecret (secret : string) : M unit :=
  fun w =>
    (Ret tt,
     {| environ := environ w; cbAPIKey := cbAPIKey w; cbAPISecret := secret;
        clock := clock w; clock_reads := clock_reads w;
        remote := remote w; round_trips := round_trips w;
        scheduler := scheduler w; trace := trace w |}).

Definition newline : string := String (ascii_of_nat 10) EmptyString.

Definition fmt_Println (s : string) : M unit := emit (EvStdout (s ++ newline)).
Definition fmt_Printf (s : string) : M unit := emit (EvStdout s).
Definition tbl_Print (t : Table) : M unit := emit (EvPrintTable t).

(** ** Package [coinbase]: the client (src/unnamed/part_000) *)

Section Client.

Variable L : GoLib.

(** [APIKeyClient]: reads the credentials from the environment into the
    package variables; the client value itself is an empty struct. *)
Definition APIKeyClient : M unit :=
  key <- os_Getenv "COINBASE_KEY" ;;
  set_cbAPIKey key ;;
  secret <- os_Getenv "COINBASE_SECRET" ;;
  set_cbAPISecret secret ;;
  ret tt.

(** [http.NewRequest(method, url, nil)] *)
Definition http_NewRequest (method url : string) : Request + error :=
  match url_Parse L url with
  | inl u => inl {| Method := method; Url := u; Header := [] |}
  | inr e => inr e
  end.

(** [createSignature]: the value of the CB-ACCESS-SIGN header. *)
Definition createSignature (r : Request) : M string :=
  now <- time_Now ;;
  let timestamp := Unix now in
  secret <- get_cbAPISecret ;;
  let h := HMAC.New (bytes_of_string secret) in
  let h := HMAC.Write h
             (bytes_of_string (Sprint_int timestamp ++ Method r ++ Path (Url r))) in
  ret (hex_EncodeToString (HMAC.Sum h [])).

(** [appendHeaders]: the request is updated in place; here the updated
    request is returned. *)
Definition appendHeaders (r : Request) (sig : string) : M Request :=
  key <- get_cbAPIKey ;;
  let r := Header_Add r "CB-ACCESS-KEY" key in
  let r := Header_Add r "CB-ACCESS-SIGN" sig in
  now <- time_Now ;;
  let r := Header_Add r "CB-ACCESS-TIMESTAMP" (Sprint_int (Unix now)) in
  let r := Header_Add r "CB-VERSION" cbAPIVersion in
  let r := Header_Add r "Content-Type" "application/json" in
  ret r.

(** The error built by
    [fmt.Errorf("bad HTTP status return code: %v\n%v", resp.Status, string(body))]. *)
Definition bad_status_error (status body : string) : error :=
  "bad HTTP status return code: " ++ status ++ newline ++ body.

(** [createRequest]: sends a GET to the resource path.  The last test of
    [err] in the source follows a test of the same value and is dead. *)
Definition createRequest (resourcePath : string) : M (string * option error) :=
  match http_NewRequest "GET" (apiEndpointBase ++ resourcePath) with
  | inr err => ret ("", Some err)
  | inl req =>
      sig <- createSignature req ;;
      req <- appendHeaders req sig ;;
      res <- http_Do req ;;
      match res with
      | inr err => ret ("", Some err)
      | inl resp =>
          let (body, err) := Body resp in
          match err with
          | Some err => ret ("", Some err)
          | None =>
              if negb (StatusCode resp =? 200)
              then ret ("", Some (bad_status_error (Status resp) body))
              else ret (body, None)
          end
      end
  end.

Definition GetUserProfile : M (User * option error) :=
  '(body, err) <- createRequest "user" ;;
  match err with
  | Some err => ret (User_zero, Some err)
  | None =>
      let (user, err) := Unmarshal_User L body in
      match err with
      | Some err => ret (User_zero, Some err)
      | None => ret (user, None)
      end
  end.

Definition GetAccount : M (Account * option error) :=
  '(body, err) <- createRequest "accounts" ;;
  match err with
  | Some err => ret (Account_zero, Some err)
  | None =>
      let (account, err) := Unmarshal_Account L body in
      match err with
      | Some err => ret (Account_zero, Some err)
      | None => ret (account, None)
      end
  end.

Definition GetExchangeRate : M (ExchangeRate * option error) :=
  '(body, err) <- createRequest "exchange-rates" ;;
  match err with
  | Some err => ret ([], Some err)
  | None =>
      let (exchangeRate, err) := Unmarshal_ExchangeRate L body in
      match err with
      | Some err => ret ([], Some err)
      | None => ret (exchangeRate, None)
      end
  end.

(** [GetPrice]: both error branches return [Price{}, nil]. *)
Definition GetPrice (currencyPair priceType : string) : M (Price * option error) :=
  '(body, err) <- createRequest ("prices/" ++ currencyPair ++ "/" ++ priceType) ;;
  match err with
  | Some _ => ret (Price_zero, None)
  | None =>
      let (sp, err) := Unmarshal_Price L body in
      match err with
      | Some _ => ret (Price_zero, None)
      | None => ret (sp, None)
      end
  end.

Definition GetPriceByDate (currencyPair : string) (year : Time) : M (Price * option error) :=
  '(body, err) <- createRequest
      ("prices/" ++ currencyPair ++ "/spot?date=" ++ time_Format L year "2006-01-02") ;;
  match err with
  | Some err => ret (Price_zero, Some err)
  | None =>
      let (p, err) := Unmarshal_Price L body in
      match err with
      | Some err => ret (Price_zero, Some err)
      | None => ret (p, None)
      end
  end.

(** [GetTransactionHistory]: the request error is returned, the decoding
    error is replaced by [nil]. *)
Definition GetTransactionHistory (accountId : string) : M (Transaction * option error) :=
  '(body, err) <- createRequest ("accounts/" ++ accountId ++ "/transactions") ;;
  match err with
  | Some err => ret (Transaction_zero, Some err)
  | None =>
      let (t, err) := Unmarshal_Transaction L body in
      match err with
      | Some _ => ret (Transaction_zero, None)
      | None => ret (t, None)
      end
  end.

(** [User.String] *)
Definition User_String (u : User) : string :=
  let d := User_Data u in
  "Name: " ++ user_Name d ++ newline ++
  "Country: " ++ user_CountryCode d ++ newline ++
  "State: " ++ user_State d ++ newline ++
  "Timezone: " ++ user_TimeZone d ++ newline ++
  "Native Curreny: " ++ user_NativeCurrency d ++ newline ++
  "BitcoinUnit: " ++ user_BitcoinUnit d ++ newline ++
  "Account Created: " ++
    time_Format L (time_Local L (user_CreatedAt d)) "01-02-2006 15:04" ++ newline.

(** One iteration of the loop of [Account.String]. *)
Definition Account_String_row (tbl : Table) (act : AccountEntry) : M Table :=
  let (amount, err) := ParseFloat L (Amount (acct_Balance act)) in
  match err with
  | Some err => panic err
  | None =>
      if (0 <? amount)%float
      then ret (AddRow tbl [CString (acct_Name act); CString (Sprintf_f L amount);
                            CString (Currency (acct_Balance act))])
      else ret tbl
  end.

(** [Account.String]: the table is printed to a buffer, whose content is
    returned. *)
Definition Account_String (a : Account) : M string :=
  let tbl := table_New ["Wallet Name"; "Balance"; "Currency"] in
  tbl <- foldM Account_String_row (Account_Data a) tbl ;;
  ret (table_render L tbl).

End Client.

(** ** Package [cmd]: the [coinbase] command (src/cmd/coinbase.go) *)

(** [errHandler]: print the error to stderr and stop with status 1. *)
Definition errHandler (e : option error) : M unit :=
  match e with
  | Some e => emit (EvStderr (e ++ newline)) ;; os_Exit 1
  | None => ret tt
  end.

(** An order the runtime chooses: the elements of [l], each once, picked
    one after the other by the oracle [pick] (the order in which a
    [range] visits a map). *)
Fixpoint remove_nth {A} (n : nat) (l : list A) : list A :=
  match l, n with
  | [], _ => []
  | _ :: t, O => t
  | h :: t, S n' => h :: remove_nth n' t
  end.

Fixpoint run_order {A} (fuel : nat) (pick : nat -> nat) (k : nat) (l : list A) : list A :=
  match fuel, l with
  | S fuel', x :: _ =>
      let i := (pick k mod List.length l)%nat in
      nth i l x :: run_order fuel' pick (S k) (remove_nth i l)
  | _, _ => []
  end.

Definition go_order {A} (l : list A) : M (list A) :=
  fun w => (Ret (run_order (List.length l) (scheduler w) 0 l), w).

Section Cmd.

Variable L : GoLib.

Local Open Scope float_scope.

(** *** Overview mode *)

(** The body of the loop over [transactions.Data]: the running values
    of [invested] and [inflationRewards]. *)
Definition sumTransaction (acc : float * float) (tr : TransactionEntry)
  : M (float * float) :=
  let (invested, inflationRewards) := acc in
  let (trNcAmt, err) := ParseFloat L (Amount (tr_NativeAmount tr)) in
  errHandler err ;;
  let (trAmt, err) := ParseFloat L (Amount (tr_Amount tr)) in
  errHandler err ;;
  if String.eqb (tr_Type tr) Buy then ret (invested + trNcAmt, inflationRewards)
  else if String.eqb (tr_Type tr) InflationReward then ret (invested, inflationRewards + trAmt)
  else ret (invested, inflationRewards).

(** The local variables of one iteration of the loop over the accounts,
    for an account that passed [amt > 0]. *)
Record Holding := {
  h_amt : float;
  h_spotPrice : Price;  h_spotAmt : float;
  h_buyPrice : Price;   h_bpAmt : float;
  h_sellPrice : Price;  h_sellAmt : float;
  h_invested : float;
  h_inflationRewards : float;
  h_sellOutAmount : float;
  h_returnAmount : float
}.

(** The body of [if amt > 0] up to the computation of [returnAmount]. *)
Definition overviewHolding (user : User) (act : AccountEntry) (amt : float) : M Holding :=
  let currencyPair :=
    (Currency (acct_Balance act) ++ "-" ++ user_NativeCurrency (User_Data user))%string in
  '(spotPrice, err) <- GetPrice L currencyPair Spot ;;
  errHandler err ;;
  let (spotAmt, err) := ParseFloat L (price_Amount (Price_Data spotPrice)) in
  errHandler err ;;
  '(buyPrice, err) <- GetPrice L currencyPair Buy ;;
  errHandler err ;;
  let (bpAmt, err) := ParseFloat L (price_Amount (Price_Data buyPrice)) in
  errHandler err ;;
  '(sellPrice, err) <- GetPrice L currencyPair Sell ;;
  errHandler err ;;
  let (sellAmt, err) := ParseFloat L (price_Amount (Price_Data sellPrice)) in
  errHandler err ;;
  '(transactions, err) <- GetTransactionHistory L (acct_ID act) ;;
  errHandler err ;;
  '(invested, inflationRewards) <-
     foldM sumTransaction (Transaction_Data transactions) (0, 0) ;;
  let sellOutAmount := amt * sellAmt in
  let returnAmount := sellOutAmount - invested in
  ret {| h_amt := amt;
         h_spotPrice := spotPrice; h_spotAmt := spotAmt;
         h_buyPrice := buyPrice; h_bpAmt := bpAmt;
         h_sellPrice := sellPrice; h_sellAmt := sellAmt;
         h_invested := invested; h_inflationRewards := inflationRewards;
         h_sellOutAmount := sellOutAmount; h_returnAmount := returnAmount |}.

(** [fmt.Sprintf("%.2f %s", x, unit)] and [fmt.Sprintf("%f %s", x, unit)] *)
Definition Sprintf_2f_s (x : float) (unit : string) : string :=
  (Sprintf_2f L x ++ " " ++ unit)%string.
Definition Sprintf_f_s (x : float) (unit : string) : string :=
  (Sprintf_f L x ++ " " ++ unit)%string.

(** The arguments of [tbl.AddRow] in Overview mode. *)
Definition overviewRow (user : User) (act : AccountEntry) (h : Holding) : list Cell :=
  let native := user_NativeCurrency (User_Data user) in
  [ CString (acct_Name act);
    CString (Sprintf_f L (h_amt h));
    CString (Currency (acct_Balance act));
    CString (Sprintf_2f_s (h_spotAmt h) (price_Currency (Price_Data (h_spotPrice h))));
    CString (Sprintf_2f_s (h_bpAmt h) (price_Currency (Price_Data (h_buyPrice h))));
    CString (Sprintf_2f_s (h_sellAmt h) (price_Currency (Price_Data (h_sellPrice h))));
    CString (Sprintf_2f_s (h_sellOutAmount h) (price_Currency (Price_Data (h_sellPrice h))));
    CString (Sprintf_2f_s (h_invested h) native);
    CString (Sprintf_f_s (h_inflationRewards h) (Currency (acct_Balance act)));
    CString (Sprintf_2f_s (h_returnAmount h) native) ].

(** One iteration of the loop over [account.Data]; the state is the
    table, [totalSellOutAmount] and [totalReturnAmount]. *)
Definition overviewAccount (user : User) (st : Table * float * float) (act : AccountEntry)
  : M (Table * float * float) :=
  let '(tbl, totalSellOutAmount, totalReturnAmount) := st in
  let (amt, err) := ParseFloat L (Amount (acct_Balance act)) in
  errHandler err ;;
  if 0 <? amt then
    h <- overviewHolding user act amt ;;
    ret (AddRow tbl (overviewRow user act h),
         totalSellOutAmount + amt * h_sellAmt h,
         totalReturnAmount + h_returnAmount h)
  else ret st.

Definition overviewHeader : list string :=
  ["Wallet"; "Balance"; "Currency"; "Spot Price Per Unit";
   "Buy Price Per Unit"; "Sell Price Per Unit"; "Total Sell Out Price"; "Invested";
   "Inflation Rewards"; "Total Return"]%string.

Definition getCoinbaseOverview : M unit :=
  APIKeyClient ;;
  '(user, err) <- GetUserProfile L ;;
  errHandler err ;;
  fmt_Println (User_String L user) ;;
  let tbl := table_New overviewHeader in
  '(account, err) <- GetAccount L ;;
  errHandler err ;;
  '(tbl, totalSellOutAmount, totalReturnAmount) <-
     foldM (overviewAccount user) (Account_Data account) (tbl, 0, 0) ;;
  tbl_Print tbl ;;
  let native := user_NativeCurrency (User_Data user) in
  fmt_Printf ("Total Sell Out Amount: " ++ Sprintf_2f_s totalSellOutAmount native ++ newline) ;;
  fmt_Printf ("Total Return Amount: " ++ Sprintf_2f_s totalReturnAmount native ++ newline).

(** *** Transactions mode *)

Definition transactionsRow (tbl : Table) (t : TransactionEntry) : M Table :=
  let (tAmt, err) := ParseFloat L (Amount (tr_Amount t)) in
  errHandler err ;;
  ret (AddRow tbl [CString (tr_Type t); CString (Currency (tr_Amount t)); CFloat tAmt;
                   CTime (tr_CreatedAt t); CString (tr_PaymentMethodName t);
                   CString (tr_Header t)]).

(** The body of the goroutine, run from its first statement to its
    return without another goroutine running in between; [wg.Done()] is
    deferred and runs when the body returns. *)
Definition transactionsWorker (tbl : Table) (accountID : string) : M Table :=
  '(tr, err) <- GetTransactionHistory L accountID ;;
  errHandler err ;;
  tbl <- foldM transactionsRow (Transaction_Data tr) tbl ;;
  emit EvWgDone ;;
  ret tbl.

(** **** The goroutines of the fan-out, step by step

    The goroutines that [getCoinbaseTransactions] starts run concurrently
    with the loop that starts them and with each other.  The process is
    a pool: the calling goroutine, inside its [for] loop or blocked in
    [wg.Wait()], and the goroutines started and not yet returned, each
    at a point of the function literal or of the functions it calls.
    The scheduler picks a goroutine that can run, the goroutine makes
    one step, and so on; the steps of different goroutines interleave in
    any way the scheduler likes.

    A step makes at most one thing that can be observed: a reading of
    the clock (in [createSignature], then in [appendHeaders]), the round
    trip, the [Fprintln] of [errHandler], its [os.Exit(1)], the deferred
    [wg.Done()].  The handling of one transaction is a step too;
    [tbl.AddRow] is taken as one step on the shared table: the calls are
    not synchronised in the source, and what the table holds when calls
    overlap is not modelled. *)

(** Where a started goroutine stands in the function literal. *)
Inductive Goroutine :=
| AtFetch (accountID : string)
    (* before c.GetTransactionHistory(accountID) *)
| AtHeaders (accountID : string) (req : Request) (sig : string)
    (* in createRequest, before appendHeaders(req, sig) *)
| AtDo (accountID : string) (req : Request)
    (* in createRequest, before hc.Do(req) *)
| AtRange (rest : list TransactionEntry)
    (* in the loop over tr.Data, [rest] still to be visited *)
| AtReport (err : error)
    (* in errHandler, before fmt.Fprintln *)
| AtExit.
    (* in errHandler, before os.Exit(1) *)

(** One step of a goroutine on the shared table; [None] when the body
    has returned.  From [AtFetch] to [AtRange] the steps are those of
    [GetTransactionHistory] and of [createRequest], which it calls,
    followed by the test of [errHandler]. *)
Definition goroutine_step (tbl : Table) (g : Goroutine) : M (Table * option Goroutine) :=
  match g with
  | AtFetch accountID =>
      match http_NewRequest L "GET"
              (apiEndpointBase ++ "accounts/" ++ accountID ++ "/transactions") with
      | inr err => ret (tbl, Some (AtReport err))
      | inl req =>
          sig <- createSignature req ;;
          ret (tbl, Some (AtHeaders accountID req sig))
      end
  | AtHeaders accountID req sig =>
      req <- appendHeaders req sig ;;
      ret (tbl, Some (AtDo accountID req))
  | AtDo accountID req =>
      res <- http_Do req ;;
      match res with
      | inr err => ret (tbl, Some (AtReport err))
      | inl resp =>
          let (body, err) := Body resp in
          match err with
          | Some err => ret (tbl, Some (AtReport err))
          | None =>
              if negb (StatusCode resp =? 200)%Z
              then ret (tbl, Some (AtReport (bad_status_error (Status resp) body)))
              else
                let (t, err) := Unmarshal_Transaction L body in
                match err with
                | Some _ => ret (tbl, Some (AtRange (Transaction_Data Transaction_zero)))
                | None => ret (tbl, Some (AtRange (Transaction_Data t)))
                end
          end
      end
  | AtRange (t :: rest) =>
      let (tAmt, err) := ParseFloat L (Amount (tr_Amount t)) in
      match err with
      | Some e => ret (tbl, Some (AtReport e))
      | None =>
          ret (AddRow tbl [CString (tr_Type t); CString (Currency (tr_Amount t));
                           CFloat tAmt; CTime (tr_CreatedAt t);
                           CString (tr_PaymentMethodName t); CString (tr_Header t)],
               Some (AtRange rest))
      end
  | AtRange [] => emit EvWgDone ;; ret (tbl, None)
  | AtReport e => emit (EvStderr (e ++ newline)) ;; ret (tbl, Some AtExit)
  | AtExit => os_Exit 1
  end.

(** A goroutine left alone from the point [g] on: its steps, one after
    the other, at most [S k] of them. *)
Fixpoint uninterrupted (k : nat) (tbl : Table) (g : Goroutine) : M Table :=
  '(tbl, next) <- goroutine_step tbl g ;;
  match next, k with
  | Some g', S k' => uninterrupted k' tbl g'
  | _, _ => ret tbl
  end.

(** Where the calling goroutine stands in its loop over [accounts.Data]:
    before [wg.Add(1)] for the first of the accounts still to be visited,
    or before the [go] statement for an account.  With no account left
    it is blocked in [wg.Wait()]. *)
Inductive Launcher :=
| AtAdd (ids : list string)
| AtGo (id : string) (ids : list string).

Record Pool := {
  launcher : Launcher;
  goroutines : list Goroutine;     (* started and not returned, oldest first *)
  shared : Table                   (* tbl, captured by every function literal *)
}.

Definition launching (l : Launcher) : bool :=
  match l with AtAdd [] => false | _ => true end.

(** One step of the calling goroutine. *)
Definition launcher_step (p : Pool) : M Pool :=
  match launcher p with
  | AtAdd [] => ret p
  | AtAdd (id :: ids) =>
      emit (EvWgAdd 1) ;;
      ret {| launcher := AtGo id ids; goroutines := goroutines p; shared := shared p |}
  | AtGo id ids =>
      emit (EvGo id) ;;
      ret {| launcher := AtAdd ids; goroutines := (goroutines p ++ [AtFetch id])%list;
             shared := shared p |}
  end.

Fixpoint replace_nth {A} (n : nat) (x : A) (l : list A) : list A :=
  match l, n with
  | [], _ => []
  | _ :: t, O => x :: t
  | h :: t, S n' => h :: replace_nth n' x t
  end.

(** One step of the [j]-th goroutine of the pool, which stands at [g]. *)
Definition pool_step (j : nat) (g : Goroutine) (p : Pool) : M Pool :=
  '(tbl, next) <- goroutine_step (shared p) g ;;
  ret {| launcher := launcher p;
         goroutines := match next with
                       | Some g' => replace_nth j g' (goroutines p)
                       | None => remove_nth j (goroutines p)
                       end;
         shared := tbl |}.

(** The goroutines that can run: the calling goroutine while it is in its
    loop (it is first), and every started goroutine. *)
Definition ready (p : Pool) : nat :=
  ((if launching (launcher p) then 1 else 0) + List.length (goroutines p))%nat.

(** The [tick]-th choice of the scheduler among [n] goroutines. *)
Definition pick (tick n : nat) : M nat :=
  fun w => (Ret (scheduler w tick mod n)%nat, w).

(** Whose turn the choice [i] is: [None] for the calling goroutine,
    [Some j] for the [j]-th started goroutine. *)
Definition turn (p : Pool) (i : nat) : option nat :=
  if launching (launcher p)
  then match i with O => None | S j => Some j end
  else Some i.

(** The steps that the pool can make before the next round trip, counted
    generously: what it takes a goroutine to come to its round trip, to
    return or to stop the process, one step per transaction it has not
    visited, and for each account the loop has not reached the two steps
    of the loop and those of a goroutine that has just started. *)
Definition budget_of (g : Goroutine) : nat :=
  match g with
  | AtFetch _ => 3
  | AtHeaders _ _ _ => 1
  | AtDo _ _ => 0
  | AtRange rest => List.length rest + 2
  | AtReport _ => 2
  | AtExit => 1
  end.

Definition budget (p : Pool) : nat :=
  (match launcher p with
   | AtAdd ids => 5 * List.length ids
   | AtGo _ ids => 4 + 5 * List.length ids
   end + list_sum (map budget_of (goroutines p)))%nat.

(** How the steps before the next round trip ended: no goroutine is left
    and the loop is over, or the scheduler picked a goroutine that
    stands before its round trip. *)
Inductive Pause :=
| AllReturned
| Fetching (j : nat) (g : Goroutine).

(** The pool runs, choice after choice, up to the next round trip.  [k]
    bounds the number of steps; [budget] is enough ([quiet_sound]
    below), so that [AllReturned] is the answer only when the loop is
    over and every goroutine has returned. *)
Fixpoint quiet (k tick : nat) (p : Pool) : M (nat * Pool * Pause) :=
  match ready p with
  | O => ret (tick, p, AllReturned)
  | S _ =>
      i <- pick tick (ready p) ;;
      match turn p i with
      | None =>
          match k with
          | O => ret (tick, p, AllReturned)
          | S k' => p' <- launcher_step p ;; quiet k' (S tick) p'
          end
      | Some j =>
          match nth_error (goroutines p) j with
          | None => ret (tick, p, AllReturned)
          | Some (AtDo accountID req) => ret (S tick, p, Fetching j (AtDo accountID req))
          | Some g =>
              match k with
              | O => ret (tick, p, AllReturned)
              | S k' => p' <- pool_step j g p ;; quiet k' (S tick) p'
              end
          end
      end
  end.

(** The pool runs until the loop is over and every goroutine has
    returned, and gives the shared table; [n] bounds the number of
    round trips still to be made: with [n] at least the number of the
    accounts, [fan_out] returns only then ([fan_out_sound] below). *)
Fixpoint fan_out (n tick : nat) (p : Pool) : M Table :=
  '(tick, p, pause) <- quiet (budget p) tick p ;;
  match pause, n with
  | Fetching j g, S n' => p' <- pool_step j g p ;; fan_out n' tick p'
  | _, _ => ret (shared p)
  end.

(** [wg.Wait()] returns when the counter of the wait group is 0: every
    [wg.Add(1)] of the loop has been matched by the [wg.Done()] of the
    goroutine started after it, which is when [fan_out] returns. *)
Definition getCoinbaseTransactions : M unit :=
  let tbl := table_New ["Transaction Type"; "Crypto"; "Amount"; "Date";
                        "Payment Method"; "Summary"]%string in
  APIKeyClient ;;
  '(accounts, err) <- GetAccount L ;;
  errHandler err ;;
  let ids := map acct_ID (Account_Data accounts) in
  tbl <- fan_out (List.length ids) 0
           {| launcher := AtAdd ids; goroutines := []; shared := tbl |} ;;
  emit EvWgWait ;;
  tbl_Print tbl.

(** *** Accounts mode *)

(** One iteration of the loop over [acts.Data]. *)
Definition accountsRow (user : User) (tbl : Table) (a : AccountEntry) : M Table :=
  let (amt, err) := ParseFloat L (Amount (acct_Balance a)) in
  errHandler err ;;
  if 0 <? amt then
    let currencyPair :=
      (Currency (acct_Balance a) ++ "-" ++ user_NativeCurrency (User_Data user))%string in
    '(spotPrice, err) <- GetPrice L currencyPair Spot ;;
    errHandler err ;;
    let (sAmt, err) := ParseFloat L (price_Amount (Price_Data spotPrice)) in
    errHandler err ;;
    ret (AddRow tbl [CString (acct_Name a); CString (Amount (acct_Balance a));
                     CString (Sprintf_2f_s (sAmt * amt) (user_NativeCurrency (User_Data user)))])
  else ret tbl.

(** [getCoinbaseAccounts]: the wait group is given the number of
    accounts and is not used again; the loop runs in the calling
    goroutine. *)
Definition getCoinbaseAccounts : M unit :=
  let tbl := table_New ["Wallet"; "Balance"; "Native"]%string in
  APIKeyClient ;;
  '(user, err) <- GetUserProfile L ;;
  errHandler err ;;
  '(acts, err) <- GetAccount L ;;
  errHandler err ;;
  emit (EvWgAdd (Z.of_nat (List.length (Account_Data acts)))) ;;
  tbl <- foldM (accountsRow user) (Account_Data acts) tbl ;;
  tbl_Print tbl.

(** *** The command *)

(** The [Run] function of [coinbaseCmd], over the three procedures it
    dispatches to and the two flags (the package variables
    [listTransactions] and [listAccounts], set from the command line
    before [Run] is called). *)
Definition dispatch (transactions accounts overview : M unit)
           (listTransactions listAccounts : bool) : M unit :=
  start <- time_Now ;;
  (if listTransactions then transactions else ret tt) ;;
  (if listAccounts then accounts else ret tt) ;;
  (if negb listAccounts && negb listTransactions then overview else ret tt) ;;
  fmt_Println "" ;;
  now <- time_Now ;;
  fmt_Println ("Elapsed Run Time: " ++ Duration_String L (now - start)%Z).

Definition coinbaseCmd_Run : bool -> bool -> M unit :=
  dispatch getCoinbaseTransactions getCoinbaseAccounts getCoinbaseOverview.

End Cmd.

(** ** Package [coinbase]: the stringer of the exchange rates
    (src/unnamed/part_000)

    An [ExchangeRate] is the [map[string]interface{}] that
    [json.Unmarshal] fills: an object is the list of its members, a key
    occurring once; a JSON null is the nil interface. *)

(** [m[key]]: the value under the key, the nil interface when the key is
    absent (also when the map itself is nil). *)
Fixpoint map_index (m : list (string * JSON)) (key : string) : option JSON :=
  match m with
  | [] => None
  | (k, v) :: rest => if String.eqb k key then Some v else map_index rest key
  end.

(** The dynamic type of an interface value, as the runtime names it. *)
Definition dynamic_type (v : option JSON) : string :=
  match v with
  | None | Some JNull => "nil"
  | Some (JBool _) => "bool"
  | Some (JNumber _) => "float64"
  | Some (JString _) => "string"
  | Some (JArray _) => "[]interface {}"
  | Some (JObject _) => "map[string]interface {}"
  end.

(** The [*runtime.TypeAssertionError] of a failed [v.(T)]. *)
Definition TypeAssertionError (v : option JSON) (asserted : string) : error :=
  "interface conversion: interface {} is " ++ dynamic_type v ++ ", not " ++ asserted.

(** [v.(map[string]interface{})] and [v.(string)]: the one-result form
    panics when the dynamic type is another one. *)
Definition assert_map (v : option JSON) : M (list (string * JSON)) :=
  match v with
  | Some (JObject m) => ret m
  | _ => panic (TypeAssertionError v "map[string]interface {}")
  end.

Definition assert_string (v : option JSON) : M string :=
  match v with
  | Some (JString s) => ret s
  | _ => panic (TypeAssertionError v "string")
  end.

(** [for k, v := range m]: the order in which the entries of a map are
    visited is chosen by the runtime; it is taken from the world, as the
    choices of the scheduler are. *)
Definition range_map {A} (m : list A) : M (list A) := go_order m.

Section Rates.

Variable L : GoLib.

(** The body of the loop over [rates]. *)
Definition ExchangeRate_String_row (currency : string) (tbl : Table) (kv : string * JSON)
  : M Table :=
  let (k, v) := kv in
  s <- assert_string (Some v) ;;
  ret (AddRow tbl [CString currency; CString k; CString s]).

(** [ExchangeRate.String] *)
Definition ExchangeRate_String (e : ExchangeRate) : M string :=
  data <- assert_map (map_index e "data") ;;
  currency <- assert_string (map_index data "currency") ;;
  rates <- assert_map (map_index data "rates") ;;
  let tbl := table_New ["Currency"; "Crypto"; "Rate"] in
  entries <- range_map rates ;;
  tbl <- foldM (ExchangeRate_String_row currency) entries tbl ;;
  ret (table_render L tbl).

End Rates.


(** ** A test double of the library and of the remote service

    Concrete stand-ins used to run the program on examples: a parser and
    a printer of plain decimal numerals that agree with Go's on the
    numerals they accept, a URL splitter, decoders that recognise the
    documents served by the fake service below, and a fake service that
    answers by request path. *)

Module Fixture.

Import SpecFloat FloatOps.

Definition quote : string := String (ascii_of_nat 34) EmptyString.

(** JSON text is written with apostrophes for the double quotes. *)
Fixpoint jq (s : string) : string :=
  match s with
  | EmptyString => EmptyString
  | String c rest =>
      String (if Ascii.eqb c "'"%char then ascii_of_nat 34 else c) (jq rest)
  end.

(** *** Decimal numerals *)

Definition digit_of (c : ascii) : option Z :=
  let n := Z.of_N (N_of_ascii c) in
  if (48 <=? n) && (n <=? 57) then Some (n - 48) else None.

(** Reads digits: the value so far and the number of digits read. *)
Fixpoint read_digits (s : string) (acc : Z) (n : nat) : Z * nat * string :=
  match s with
  | EmptyString => (acc, n, s)
  | String c rest =>
      match digit_of c with
      | Some d => read_digits rest (10 * acc + d) (S n)
      | None => (acc, n, s)
      end
  end.

Definition syntax_error (s : string) : error :=
  "strconv.ParseFloat: parsing " ++ quote ++ s ++ quote ++ ": invalid syntax".

(** [-]digits[.digits] with at most 15 digits: the quotient of two
    integers that binary64 holds exactly, rounded once by the division. *)
Definition parse_float (s : string) : float * option error :=
  let (neg, body) :=
    match s with
    | String "-"%char rest => (true, rest)
    | String "+"%char rest => (false, rest)
    | _ => (false, s)
    end in
  let '(ip, n1, rest) := read_digits body 0 O in
  let '(m, n2, rest) :=
    match rest with
    | String "."%char frac =>
        let '(v, k, rest') := read_digits frac ip O in (v, k, rest')
    | _ => (ip, O, rest)
    end in
  match rest with
  | EmptyString =>
      if ((n1 + n2 =? 0) || (15 <? n1 + n2))%nat then (0%float, Some (syntax_error s))
      else
        let x := (of_uint63 (Uint63.of_Z m) / of_uint63 (Uint63.of_Z (10 ^ Z.of_nat n2)))%float in
        (if neg then (- x)%float else x, None)
  | _ => (0%float, Some (syntax_error s))
  end.

(** [fmt.Sprintf("%.<prec>f", x)]: the exact value of [x] rounded to
    [prec] decimals, ties to even. *)
Definition format_fixed (prec : nat) (x : float) : string :=
  let scale := 10 ^ Z.of_nat prec in
  let show (neg : bool) (q : Z) : string :=
    (if neg then "-" else "") ++ Sprint_int (q / scale) ++ "." ++
    match Sprint_int (scale + q mod scale) with
    | String _ frac => frac
    | EmptyString => EmptyString
    end in
  match Prim2SF x with
  | S754_zero neg => show neg 0
  | S754_infinity neg => if neg then "-Inf" else "+Inf"
  | S754_nan => "NaN"
  | S754_finite neg m e =>
      let num := if 0 <=? e then Zpos m * 2 ^ e * scale else Zpos m * scale in
      let den := if 0 <=? e then 1 else 2 ^ (- e) in
      let q := num / den in
      let r := num mod den in
      let up := (den <? 2 * r) || ((den =? 2 * r) && Z.odd q) in
      show neg (if up then q + 1 else q)
  end.

(** *** URLs: scheme://host/path?query *)

Fixpoint split_at (c : ascii) (s : string) : string * option string :=
  match s with
  | EmptyString => (EmptyString, None)
  | String a rest =>
      if Ascii.eqb a c then (EmptyString, Some rest)
      else let (l, r) := split_at c rest in (String a l, r)
  end.

Fixpoint has_control (s : string) : bool :=
  match s with
  | EmptyString => false
  | String a rest => (N_of_ascii a <? 32)%N || (N_of_ascii a =? 127)%N || has_control rest
  end.

Definition parse_url (s : string) : URL + error :=
  if has_control s
  then inr ("parse " ++ quote ++ s ++ quote ++ ": net/url: invalid control character in URL")
  else
    let (before, query) := split_at "?"%char s in
    match split_at ":"%char before with
    | (scheme, Some (String "/"%char (String "/"%char rest))) =>
        let (host, path) := split_at "/"%char rest in
        inl {| Scheme := scheme; Host := host;
               Path := match path with Some p => "/" ++ p | None => "" end;
               RawQuery := match query with Some q => q | None => "" end |}
    | _ => inr ("parse " ++ quote ++ s ++ quote ++ ": unsupported URL")
    end.

(** *** The documents of the fake service and their decoded values *)

Definition user_json : string :=
  jq "{'data':{'id':'u-1','name':'Ada','time_zone':'UTC','native_currency':'USD','bitcoin_unit':'BTC','state':'NY','country':{'code':'US'},'created_at':'2021-01-01T00:00:00Z'}}".
Definition user_value : User :=
  {| User_Data := {| user_ID := "u-1"; user_Name := "Ada"; user_TimeZone := "UTC";
                     user_NativeCurrency := "USD"; user_BitcoinUnit := "BTC";
                     user_State := "NY"; user_CountryCode := "US";
                     user_CreatedAt := 1609459200000000000 |} |}.

Definition accounts_json : string :=
  jq "{'data':[{'id':'a-btc','name':'BTC Wallet','balance':{'amount':'1.0','currency':'BTC'}},{'id':'a-eth','name':'ETH Wallet','balance':{'amount':'0.00000000','currency':'ETH'}}]}".
Definition btc_account : AccountEntry :=
  {| acct_ID := "a-btc"; acct_Name := "BTC Wallet";
     acct_Balance := {| Amount := "1.0"; Currency := "BTC" |} |}.
Definition eth_account : AccountEntry :=
  {| acct_ID := "a-eth"; acct_Name := "ETH Wallet";
     acct_Balance := {| Amount := "0.00000000"; Currency := "ETH" |} |}.
Definition accounts_value : Account := {| Account_Data := [btc_account; eth_account] |}.

Definition price_json (amount : string) : string :=
  jq ("{'data':{'base':'BTC','amount':'" ++ amount ++ "','currency':'USD'}}").
Definition price_value (amount : string) : Price :=
  {| Price_Data := {| Base := "BTC"; price_Amount := amount; price_Currency := "USD" |} |}.

Definition transactions_json : string :=
  jq "{'data':[{'id':'t-1','type':'buy','amount':{'amount':'1.0','currency':'BTC'},'native_amount':{'amount':'25000.00','currency':'USD'},'created_at':'2021-02-01T00:00:00Z','details':{'header':'Bought 1.0 BTC','payment_method_name':'Bank'}}]}".
Definition buy_entry : TransactionEntry :=
  {| tr_ID := "t-1"; tr_Type := "buy";
     tr_Amount := {| Amount := "1.0"; Currency := "BTC" |};
     tr_NativeAmount := {| Amount := "25000.00"; Currency := "USD" |};
     tr_CreatedAt := 1612137600000000000;
     tr_PaymentMethodName := "Bank"; tr_Header := "Bought 1.0 BTC" |}.
Definition transactions_value : Transaction := {| Transaction_Data := [buy_entry] |}.

Definition json_error : error := "invalid character '<' looking for beginning of value".

(** A decoder that knows the documents in [known]. *)
Fixpoint decode {T} (known : list (string * T)) (zero : T) (body : string)
  : T * option error :=
  match known with
  | [] => (zero, Some json_error)
  | (doc, v) :: rest => if String.eqb doc body then (v, None) else decode rest zero body
  end.

Definition lib : GoLib :=
  {| ParseFloat := parse_float;
     Sprintf_f := format_fixed 6;
     Sprintf_2f := format_fixed 2;
     url_Parse := parse_url;
     Unmarshal_User := decode [(user_json, user_value)] User_zero;
     Unmarshal_Account := decode [(accounts_json, accounts_value)] Account_zero;
     Unmarshal_ExchangeRate := decode [] [];
     Unmarshal_Price :=
       decode [(price_json "30000.00", price_value "30000.00");
               (price_json "30100.00", price_value "30100.00");
               (price_json "29900.00", price_value "29900.00")] Price_zero;
     Unmarshal_Transaction :=
       decode [(transactions_json, transactions_value);
               (jq "{'data':[]}", Transaction_zero)] Transaction_zero;
     time_Format := fun t _ => Sprint_int (Unix t);
     time_Local := fun t => t;
     Duration_String := fun d => Sprint_int d ++ "ns";
     table_render := fun t => String.concat " " (header t) ++ newline |}.

(** *** The fake service *)

Definition ok (body : string) : Response + error :=
  inl {| Status := "200 OK"; StatusCode := 200; Body := (body, None) |}.
Definition not_found : Response + error :=
  inl {| Status := "404 Not Found"; StatusCode := 404;
         Body := (jq "{'errors':[{'id':'not_found','message':'Not found'}]}", None) |}.
Definition server_error : Response + error :=
  inl {| Status := "500 Internal Server Error"; StatusCode := 500;
         Body := (jq "{'errors':[{'id':'internal_server_error','message':'oops'}]}", None) |}.

Definition routes := list (string * (Response + error)).

Fixpoint serve (r : routes) (path : string) : Response + error :=
  match r with
  | [] => not_found
  | (p, res) :: rest => if String.eqb p path then res else serve rest path
  end.

(** The scenario of the specification: one wallet of 1.0 BTC (and an
    empty ETH wallet), quotes 30000 / 30100 / 29900 USD, one buy of
    25000 USD. *)
Definition healthy : routes :=
  [ ("/v2/user", ok user_json);
    ("/v2/accounts", ok accounts_json);
    ("/v2/prices/BTC-USD/spot", ok (price_json "30000.00"));
    ("/v2/prices/BTC-USD/buy", ok (price_json "30100.00"));
    ("/v2/prices/BTC-USD/sell", ok (price_json "29900.00"));
    ("/v2/accounts/a-btc/transactions", ok transactions_json);
    ("/v2/accounts/a-eth/transactions", ok (jq "{'data':[]}")) ].

(** A world: credentials in the environment, a clock, a service. *)
Definition world (clk : nat -> Time) (r : routes) : World :=
  {| environ := fun k =>
       if String.eqb k "COINBASE_KEY" then "key-1"
       else if String.eqb k "COINBASE_SECRET" then "secret-1" else "";
     cbAPIKey := ""; cbAPISecret := "";
     clock := clk; clock_reads := 0;
     remote := fun _ req => serve r (Path (Url req));
     round_trips := 0;
     scheduler := fun _ => O;
     trace := [] |}.

(** A clock that advances one millisecond per reading from
    2023-11-14 22:13:20 UTC. *)
Definition steady_clock (n : nat) : Time :=
  1700000000000000000 + 1000000 * Z.of_nat n.

(** A clock whose first reading falls just before a second boundary and
    whose later readings fall after it. *)
Definition ticking_clock (n : nat) : Time :=
  match n with
  | O => 1699999999999900000
  | S k => 1700000000000100000 + 1000000 * Z.of_nat k
  end.

(** A history with two buys, a sell and two inflation rewards. *)
Definition entry (type amount currency native : string) : TransactionEntry :=
  {| tr_ID := "t"; tr_Type := type;
     tr_Amount := {| Amount := amount; Currency := currency |};
     tr_NativeAmount := {| Amount := native; Currency := "USD" |};
     tr_CreatedAt := 1612137600000000000;
     tr_PaymentMethodName := "Bank"; tr_Header := "" |}.

Definition history : list TransactionEntry :=
  [ entry "buy" "0.002" "BTC" "50.00";
    entry "sell" "0.001" "BTC" "30.00";
    entry "inflation_reward" "0.001" "BTC" "0.03";
    entry "buy" "0.003" "BTC" "75.25";
    entry "inflation_reward" "0.002" "BTC" "0.06" ].

(** An account whose balance is not a number. *)
Definition odd_account : AccountEntry :=
  {| acct_ID := "a-odd"; acct_Name := "Odd Wallet";
     acct_Balance := {| Amount := "1,5"; Currency := "DOGE" |} |}.

(** The service with its profile endpoint failing, and with its spot
    quote missing. *)
Definition user_down : routes := ("/v2/user", server_error) :: healthy.
Definition spot_missing : routes := ("/v2/prices/BTC-USD/spot", not_found) :: healthy.

(** The service answering the transaction history with a page that is
    not JSON. *)
Definition history_garbled : routes :=
  ("/v2/accounts/a-btc/transactions", ok "<html>Service Unavailable</html>") :: healthy.

(** The request for the profile before the headers are added. *)
Definition profile_request : Request :=
  {| Method := "GET";
     Url := {| Scheme := "https"; Host := "api.coinbase.com";
               Path := "/v2/user"; RawQuery := "" |};
     Header := [] |}.

(** The service with both transaction histories failing. *)
Definition histories_down : routes :=
  ("/v2/accounts/a-btc/transactions", server_error)
  :: ("/v2/accounts/a-eth/transactions", server_error) :: healthy.

(** A scheduler under which the goroutines that can run take turns. *)
Definition taking_turns (tick : nat) : nat := (tick mod 2)%nat.

Definition with_scheduler (s : nat -> nat) (w : World) : World :=
  {| environ := environ w; cbAPIKey := cbAPIKey w; cbAPISecret := cbAPISecret w;
     clock := clock w; clock_reads := clock_reads w;
     remote := remote w; round_trips := round_trips w;
     scheduler := s; trace := trace w |}.

(** The kind of an event. *)
Definition kind (e : Event) : string :=
  match e with
  | EvNow _ => "now"
  | EvDo _ _ => "do"
  | EvStdout _ => "stdout"
  | EvPrintTable _ => "table"
  | EvStderr _ => "stderr"
  | EvGo arg => "go " ++ arg
  | EvWgAdd _ => "add"
  | EvWgDone => "done"
  | EvWgWait => "wait"
  end.

(** The worlds of the examples. *)
Definition w_healthy : World := world steady_clock healthy.
Definition w_histories_down : World :=
  with_scheduler taking_turns (world steady_clock histories_down).
Definition w_taking_turns : World :=
  with_scheduler taking_turns (world steady_clock healthy).
Definition w_ticking : World := world ticking_clock healthy.
Definition w_user_down : World := world steady_clock user_down.
Definition w_spot_missing : World := world steady_clock spot_missing.
Definition w_history_garbled : World := world steady_clock history_garbled.


(** An exchange-rate document, and the same with a rate sent as a number. *)
Definition rates_value : ExchangeRate :=
  [("data", JObject [("currency", JString "BTC");
                     ("rates", JObject [("USD", JString "30000.00");
                                        ("EUR", JString "27000.00")])])].
Definition rates_with_a_number : ExchangeRate :=
  [("data", JObject [("currency", JString "BTC");
                     ("rates", JObject [("USD", JNumber 30000)])])].

End Fixture.

(** ** Vocabulary of the statements *)

(** The signature as the specification words it (4.1): the hex encoding
    of the HMAC-SHA256, keyed by the secret, of the timestamp followed by
    the method followed by the path. *)
Definition spec_signature (secret method path : string) (timestamp : Z) : string :=
  hex_EncodeToString
    (HMAC.sha256 (bytes_of_string secret)
       (bytes_of_string (Sprint_int timestamp ++ method ++ path))).

(** The sum of a list of [float64]: additions from the left, from 0, in
    the order of the list. *)
Definition fsum (l : list float) : float := fold_left PrimFloat.add l 0%float.

(** A monetary string that [strconv.ParseFloat] accepts, and its value. *)
Definition parses (L : GoLib) (s : string) : Prop := snd (ParseFloat L s) = None.
Definition value_of (L : GoLib) (s : string) : float := fst (ParseFloat L s).

Definition is_buy (t : TransactionEntry) : bool := String.eqb (tr_Type t) Buy.
Definition is_inflation_reward (t : TransactionEntry) : bool :=
  String.eqb (tr_Type t) InflationReward.
Definition native_amount (L : GoLib) (t : TransactionEntry) : float :=
  value_of L (Amount (tr_NativeAmount t)).
Definition asset_amount (L : GoLib) (t : TransactionEntry) : float :=
  value_of L (Amount (tr_Amount t)).

(** The parsed balance of an account and the filter [amt > 0]. *)
Definition balance (L : GoLib) (a : AccountEntry) : float :=
  value_of L (Amount (acct_Balance a)).
Definition qualifies (L : GoLib) (a : AccountEntry) : bool :=
  (0 <? balance L a)%float.

(** A round trip that succeeded with a status other than 200. *)
Definition is_non200 (e : Event) : bool :=
  match e with
  | EvDo _ (inl resp) => negb (StatusCode resp =? 200)
  | _ => false
  end.

(** The output of a table. *)
Definition is_table (e : Event) : bool :=
  match e with EvPrintTable _ => true | _ => false end.

(** The launch of a goroutine, or the return of a wait on the group. *)
Definition is_go_or_wait (e : Event) : bool :=
  match e with EvGo _ | EvWgWait => true | _ => false end.

(** What a procedure adds to the trace of a world. *)
Definition adds {A} (m : M A) (w : World) (d : list Event) : Prop :=
  trace (snd (m w)) = (trace w ++ d)%list.

(** "A non-200 answer stops the process with status 1 before any table is
    printed": the procedure extends the trace, and whenever what it adds
    holds a non-200 round trip, the outcome is [Exit 1] and no table is
    among what it added. *)
Definition aborts_before_rows (run : M unit) : Prop :=
  forall w, exists d,
    adds run w d
    /\ (existsb is_non200 d = true ->
        fst (run w) = Exit 1 /\ existsb is_table d = false).

(** The request as dispatched: the five headers that [appendHeaders] adds. *)
Definition with_auth (r : Request) (key sig timestamp : string) : Request :=
  Header_Add
    (Header_Add
       (Header_Add (Header_Add (Header_Add r "CB-ACCESS-KEY" key) "CB-ACCESS-SIGN" sig)
          "CB-ACCESS-TIMESTAMP" timestamp)
       "CB-VERSION" cbAPIVersion)
    "Content-Type" "application/json".

(** What [createRequest] returns for an answer of the transport. *)
Definition answer (res : Response + error) : string * option error :=
  match res with
  | inr err => ("", Some err)
  | inl resp =>
      match Body resp with
      | (_, Some err) => ("", Some err)
      | (body, None) =>
          if negb (StatusCode resp =? 200)
          then ("", Some (bad_status_error (Status resp) body))
          else (body, None)
      end
  end.

(** [in_turn R l w bs w']: starting in the world [w], the elements of
    [l] are dealt with one after the other, each in the world the one
    before left; [R a w1 b w2] relates an element, the world it found,
    what was obtained for it and the world it left; [w'] is the world
    after the last one. *)
Inductive in_turn {A B} (R : A -> World -> B -> World -> Prop)
  : list A -> World -> list B -> World -> Prop :=
| in_turn_nil (w : World) : in_turn R [] w [] w
| in_turn_cons (a : A) (l : list A) (w : World) (b : B) (w1 : World)
               (bs : list B) (w' : World) :
    R a w b w1 -> in_turn R l w1 bs w' -> in_turn R (a :: l) w (b :: bs) w'.

(** What one iteration of the Overview loop, started in the world [w],
    records about the account it prices, and the world [w'] it leaves.
    The spot, buy and sell quotes are the prices that [GetPrice] returns
    for the pair of the account, asked in this order from [w] on, and the
    history is the one that [GetTransactionHistory] then returns for the
    account: these are the requests of this run, not of another.  The
    balance is the parsed balance of the account and the quote amounts
    are the parsed amounts of those prices; the invested amount and the
    inflation rewards are the two sums over that history; the sell-out
    value is balance * sell quote and the net return is sell-out value -
    invested amount. *)
Definition priced_at (L : GoLib) (user : User) (a : AccountEntry) (w : World)
           (h : Holding) (w' : World) : Prop :=
  let currencyPair :=
    Currency (acct_Balance a) ++ "-" ++ user_NativeCurrency (User_Data user) in
  exists (history : Transaction) (w1 w2 w3 : World),
    GetPrice L currencyPair Spot w = (Ret (h_spotPrice h, None), w1)
    /\ GetPrice L currencyPair Buy w1 = (Ret (h_buyPrice h, None), w2)
    /\ GetPrice L currencyPair Sell w2 = (Ret (h_sellPrice h, None), w3)
    /\ GetTransactionHistory L (acct_ID a) w3 = (Ret (history, None), w')
    /\ h_amt h = balance L a
    /\ h_spotAmt h = value_of L (price_Amount (Price_Data (h_spotPrice h)))
    /\ h_bpAmt h = value_of L (price_Amount (Price_Data (h_buyPrice h)))
    /\ h_sellAmt h = value_of L (price_Amount (Price_Data (h_sellPrice h)))
    /\ h_invested h
       = fsum (map (native_amount L) (filter is_buy (Transaction_Data history)))
    /\ h_inflationRewards h
       = fsum (map (asset_amount L)
                   (filter is_inflation_reward (Transaction_Data history)))
    /\ h_sellOutAmount h = (h_amt h * h_sellAmt h)%float
    /\ h_returnAmount h = (h_sellOutAmount h - h_invested h)%float.

(** The point at which a goroutine stands once its round trip has been
    answered with [res]: inside [errHandler] with the error of the
    request, or at the start of the loop over the history that
    [GetTransactionHistory] makes of the body. *)
Definition answered (L : GoLib) (res : Response + error) : Goroutine :=
  match answer res with
  | (_, Some err) => AtReport err
  | (body, None) =>
      AtRange (Transaction_Data
                 (match Unmarshal_Transaction L body with
                  | (t, None) => t
                  | (_, Some _) => Transaction_zero
                  end))
  end.

(** The moves of the pool of Transactions mode, whoever the scheduler
    picks: the calling goroutine calls [wg.Add(1)] or starts a goroutine,
    or a started goroutine makes a step: it finds that the URL of its
    request does not parse, or signs the request (first reading of the
    clock), adds the headers (second reading), makes the round trip,
    visits a transaction whose amount parses (a row is added) or does
    not, calls the deferred [wg.Done()] at the end of the body, or writes
    the error in [errHandler].  A goroutine that stands before
    [os.Exit(1)] has no move: its step ends the process. *)
Inductive pool_move (L : GoLib) : Pool -> World -> Pool -> World -> Prop :=
| move_add (id : string) (ids : list string) (gs : list Goroutine) (tbl : Table)
           (w : World) :
    pool_move L
      {| launcher := AtAdd (id :: ids); goroutines := gs; shared := tbl |} w
      {| launcher := AtGo id ids; goroutines := gs; shared := tbl |}
      (snd (emit (EvWgAdd 1) w))
| move_go (id : string) (ids : list string) (gs : list Goroutine) (tbl : Table)
          (w : World) :
    pool_move L
      {| launcher := AtGo id ids; goroutines := gs; shared := tbl |} w
      {| launcher := AtAdd ids; goroutines := (gs ++ [AtFetch id])%list; shared := tbl |}
      (snd (emit (EvGo id) w))
| move_unsent (l : Launcher) (gs1 gs2 : list Goroutine) (tbl : Table)
              (accountID : string) (err : error) (w : World) :
    http_NewRequest L "GET"
      (apiEndpointBase ++ "accounts/" ++ accountID ++ "/transactions") = inr err ->
    pool_move L
      {| launcher := l; goroutines := (gs1 ++ AtFetch accountID :: gs2)%list;
         shared := tbl |} w
      {| launcher := l; goroutines := (gs1 ++ AtReport err :: gs2)%list;
         shared := tbl |} w
| move_sign (l : Launcher) (gs1 gs2 : list Goroutine) (tbl : Table)
            (accountID : string) (req : Request) (w : World) :
    http_NewRequest L "GET"
      (apiEndpointBase ++ "accounts/" ++ accountID ++ "/transactions") = inl req ->
    pool_move L
      {| launcher := l; goroutines := (gs1 ++ AtFetch accountID :: gs2)%list;
         shared := tbl |} w
      {| launcher := l;
         goroutines :=
           (gs1 ++ AtHeaders accountID req
                     (spec_signature (cbAPISecret w) (Method req) (Path (Url req))
                        (Unix (clock w (clock_reads w)))) :: gs2)%list;
         shared := tbl |}
      (snd (time_Now w))
| move_headers (l : Launcher) (gs1 gs2 : list Goroutine) (tbl : Table)
               (accountID : string) (req : Request) (sig : string) (w : World) :
    pool_move L
      {| launcher := l; goroutines := (gs1 ++ AtHeaders accountID req sig :: gs2)%list;
         shared := tbl |} w
      {| launcher := l;
         goroutines :=
           (gs1 ++ AtDo accountID
                     (with_auth req (cbAPIKey w) sig
                        (Sprint_int (Unix (clock w (clock_reads w))))) :: gs2)%list;
         shared := tbl |}
      (snd (time_Now w))
| move_do (l : Launcher) (gs1 gs2 : list Goroutine) (tbl : Table)
          (accountID : string) (req : Request) (w : World) :
    pool_move L
      {| launcher := l; goroutines := (gs1 ++ AtDo accountID req :: gs2)%list;
         shared := tbl |} w
      {| launcher := l;
         goroutines := (gs1 ++ answered L (remote w (round_trips w) req) :: gs2)%list;
         shared := tbl |}
      (snd (http_Do req w))
| move_row (l : Launcher) (gs1 gs2 : list Goroutine) (tbl : Table)
           (t : TransactionEntry) (rest : list TransactionEntry) (tAmt : float)
           (w : World) :
    ParseFloat L (Amount (tr_Amount t)) = (tAmt, None) ->
    pool_move L
      {| launcher := l; goroutines := (gs1 ++ AtRange (t :: rest) :: gs2)%list;
         shared := tbl |} w
      {| launcher := l; goroutines := (gs1 ++ AtRange rest :: gs2)%list;
         shared := AddRow tbl [CString (tr_Type t); CString (Currency (tr_Amount t));
                               CFloat tAmt; CTime (tr_CreatedAt t);
                               CString (tr_PaymentMethodName t);
                               CString (tr_Header t)] |} w
| move_bad_row (l : Launcher) (gs1 gs2 : list Goroutine) (tbl : Table)
               (t : TransactionEntry) (rest : list TransactionEntry) (tAmt : float)
               (e : error) (w : World) :
    ParseFloat L (Amount (tr_Amount t)) = (tAmt, Some e) ->
    pool_move L
      {| launcher := l; goroutines := (gs1 ++ AtRange (t :: rest) :: gs2)%list;
         shared := tbl |} w
      {| launcher := l; goroutines := (gs1 ++ AtReport e :: gs2)%list; shared := tbl |} w
| move_done (l : Launcher) (gs1 gs2 : list Goroutine) (tbl : Table) (w : World) :
    pool_move L
      {| launcher := l; goroutines := (gs1 ++ AtRange [] :: gs2)%list; shared := tbl |} w
      {| launcher := l; goroutines := (gs1 ++ gs2)%list; shared := tbl |}
      (snd (emit EvWgDone w))
| move_report (l : Launcher) (gs1 gs2 : list Goroutine) (tbl : Table) (e : error)
              (w : World) :
    pool_move L
      {| launcher := l; goroutines := (gs1 ++ AtReport e :: gs2)%list; shared := tbl |} w
      {| launcher := l; goroutines := (gs1 ++ AtExit :: gs2)%list; shared := tbl |}
      (snd (emit (EvStderr (e ++ newline)) w)).

(** Any number of moves, in any interleaving. *)
Inductive pool_run (L : GoLib) : Pool -> World -> Pool -> World -> Prop :=
| run_here (p : Pool) (w : World) : pool_run L p w p w
| run_on (p : Pool) (w : World) (p1 : Pool) (w1 : World) (p' : Pool) (w' : World) :
    pool_move L p w p1 w1 -> pool_run L p1 w1 p' w' -> pool_run L p w p' w'.

(** The accounts for which the loop has still to start a goroutine, and
    what the calling goroutine has still to do for them. *)
Definition pending (l : Launcher) : list string :=
  match l with AtAdd ids => ids | AtGo id ids => id :: ids end.

Definition launches (l : Launcher) : list Event :=
  match l with
  | AtAdd ids => flat_map (fun id => [EvWgAdd 1; EvGo id]) ids
  | AtGo id ids => EvGo id :: flat_map (fun id => [EvWgAdd 1; EvGo id]) ids
  end.

(** The account of a started goroutine that has not made its round
    trip, and the accounts of the goroutines of a pool that have not. *)
Definition fetch_id (g : Goroutine) : list string :=
  match g with
  | AtFetch accountID | AtHeaders accountID _ _ | AtDo accountID _ => [accountID]
  | _ => []
  end.

Definition fetch_ids (gs : list Goroutine) : list string := flat_map fetch_id gs.

(** The round trips that the pool may still make. *)
Definition unfetched (p : Pool) : nat :=
  (List.length (pending (launcher p)) + List.length (fetch_ids (goroutines p)))%nat.

(** A goroutine that is inside [errHandler] with an error. *)
Definition doomed (g : Goroutine) : bool :=
  match g with AtReport _ | AtExit => true | _ => false end.

(** A goroutine that can still return: it is not inside [errHandler],
    and the amounts of the transactions it has still to visit parse. *)
Definition returning (L : GoLib) (g : Goroutine) : Prop :=
  match g with
  | AtFetch _ | AtHeaders _ _ _ | AtDo _ _ => True
  | AtRange rest => Forall (fun t => parses L (Amount (tr_Amount t))) rest
  | AtReport _ | AtExit => False
  end.

(** The request that a goroutine holds is for the history of its
    account. *)
Definition addressed (L : GoLib) (g : Goroutine) : Prop :=
  match g with
  | AtHeaders accountID req _ | AtDo accountID req =>
      url_Parse L (apiEndpointBase ++ "accounts/" ++ accountID ++ "/transactions")
      = inl (Url req)
  | _ => True
  end.

(** What a run of [quiet] from the pool [p] and the world [w] comes to:
    it made moves of the pool and no round trip, and stopped with every
    goroutine returned and the loop over, or at a goroutine that stands
    before its round trip; or a goroutine that stood before [os.Exit(1)]
    ended the process.  It does not panic. *)
Definition quiet_spec (L : GoLib) (k : nat) (p : Pool) (w : World)
           (r : Outcome (nat * Pool * Pause) * World) : Prop :=
  match r with
  | (Ret (_, p', pause), w') =>
      pool_run L p w p' w'
      /\ (unfetched p' <= unfetched p)%nat
      /\ match pause with
         | AllReturned => (budget p <= k)%nat -> ready p' = O
         | Fetching j g =>
             nth_error (goroutines p') j = Some g
             /\ exists accountID req, g = AtDo accountID req
         end
  | (Exit c, w') =>
      c = 1 /\ exists p1, pool_run L p w p1 w' /\ In AtExit (goroutines p1)
  | (Panic _, _) => False
  end.

(** What a run of [fan_out] comes to: when it returns, the pool has
    moved to a state in which the loop is over and every goroutine has
    returned, and the table is the shared one; when it ends the process,
    the status is 1 and the pool has moved to a state in which a
    goroutine stood before [os.Exit(1)]. *)
Definition fan_out_spec (L : GoLib) (p : Pool) (w : World)
           (r : Outcome Table * World) : Prop :=
  match r with
  | (Ret tbl, w') =>
      exists p', pool_run L p w p' w' /\ ready p' = O /\ shared p' = tbl
  | (Exit c, w') =>
      c = 1 /\ exists p1, pool_run L p w p1 w' /\ In AtExit (goroutines p1)
  | (Panic _, _) => False
  end.

(** [guarded_by T B R m]: whatever the world, [m] adds to the trace no
    event that [T] flags; it does not panic; when it stops the process
    the status is 1; and when it returns [a] after adding an event that
    [B] flags, [R a] holds. *)
Definition guarded_by (T B : Event -> bool) {A} (R : A -> Prop) (m : M A) : Prop :=
  forall w, exists d,
    adds m w d /\ existsb T d = false /\
    match fst (m w) with
    | Ret a => existsb B d = true -> R a
    | Exit c => c = 1
    | Panic _ => False
    end.

Definition never {A} : A -> Prop := fun _ => False.

(** [settles_by T B m]: [m] does not panic; when it returns, it has
    added no event that [B] flags; when it stops the process, the status
    is 1 and it has added no event that [T] flags. *)
Definition settles_by (T B : Event -> bool) {A} (m : M A) : Prop :=
  forall w, exists d,
    adds m w d /\
    match fst (m w) with
    | Ret _ => existsb B d = false
    | Exit c => c = 1 /\ existsb T d = false
    | Panic _ => False
    end.

(** [harmless_by B m]: [m] always returns and adds only events that [B]
    does not flag (printing the table, the totals, the elapsed time). *)
Definition harmless_by (B : Event -> bool) {A} (m : M A) : Prop :=
  forall w, exists d a, adds m w d /\ fst (m w) = Ret a /\ existsb B d = false.

(** ** Vocabulary of the further properties *)

(** The request that [createRequest] hands to the transport in world [w],
    for the request [r] that [http.NewRequest] built. *)
Definition dispatched (r : Request) (w : World) : Request :=
  with_auth r (cbAPIKey w)
    (spec_signature (cbAPISecret w) (Method r) (Path (Url r))
       (Unix (clock w (clock_reads w))))
    (Sprint_int (Unix (clock w (S (clock_reads w))))).

(** In world [w] the GET of a resource path is answered with status 200
    and a body that is read to its end. *)
Definition answered_200 (L : GoLib) (resourcePath : string) (w : World)
           (body : string) : Prop :=
  exists req0 resp,
    http_NewRequest L "GET" (apiEndpointBase ++ resourcePath) = inl req0
    /\ remote w (round_trips w) (dispatched req0 w) = inl resp
    /\ Body resp = (body, None)
    /\ StatusCode resp = 200.

(** The error contract of a getter that fetches a resource path and
    decodes the body: it always returns; the error is nil exactly when
    the request was answered 200 and the body decoded without error, and
    the value is then the decoded one; on any error the value is the zero
    value; and the world is left as the request left it. *)
Definition propagates {T} (L : GoLib) (get : M (T * option error))
           (resourcePath : string) (decode : string -> T * option error)
           (zero : T) : Prop :=
  forall w, exists v err,
    get w = (Ret (v, err), snd (createRequest L resourcePath w))
    /\ (err = None <->
        exists body, answered_200 L resourcePath w body /\ decode body = (v, None))
    /\ (err <> None -> v = zero).

(** The digits of [hex.EncodeToString]. *)
Definition is_lower_hex (c : ascii) : bool :=
  existsb (Ascii.eqb c) (list_ascii_of_string "0123456789abcdef").

(** The row that [Account.String] adds for an account. *)
Definition Account_String_cells (L : GoLib) (a : AccountEntry) : list Cell :=
  [CString (acct_Name a); CString (Sprintf_f L (balance L a));
   CString (Currency (acct_Balance a))].

(** The package variables hold the credentials of the environment, as
    [APIKeyClient] leaves them. *)
Definition credentials (w : World) : Prop :=
  cbAPIKey w = environ w "COINBASE_KEY"
  /\ cbAPISecret w = environ w "COINBASE_SECRET".

(** A round trip as the API wants it, in the environment [env]: a GET of
    a URL parsed from the API base followed by a resource path, whose
    header holds five fields and no other, one value each: Cb-Access-Key
    (the names are the canonical forms under which [http.Header] files
    what [appendHeaders] adds) with the value of COINBASE_KEY,
    Cb-Access-Sign with the signature keyed by the value of
    COINBASE_SECRET over a timestamp, the method and the path of that
    URL, Cb-Access-Timestamp, Cb-Version and Content-Type.  A header is
    a map: the fields are given up to their order.  Events other than
    round trips are not constrained. *)
Definition authentic (L : GoLib) (env : string -> string) (e : Event) : Prop :=
  match e with
  | EvDo req _ =>
      Method req = "GET"
      /\ (exists resourcePath,
             url_Parse L (apiEndpointBase ++ resourcePath) = inl (Url req))
      /\ exists t0 t1 : Time,
          Permutation (Header req)
            [("Cb-Access-Key", env "COINBASE_KEY");
             ("Cb-Access-Sign",
              spec_signature (env "COINBASE_SECRET") "GET" (Path (Url req)) (Unix t0));
             ("Cb-Access-Timestamp", Sprint_int (Unix t1));
             ("Cb-Version", "2017-08-31");
             ("Content-Type", "application/json")]
  | _ => True
  end.

(** The request that a goroutine of Transactions mode holds is on its
    way to an authentic round trip: before [appendHeaders] it is a GET of
    a URL under the API base without any header, and the signature is
    over its path; before [hc.Do] it is as [authentic] wants it. *)
Definition signed (L : GoLib) (env : string -> string) (g : Goroutine) : Prop :=
  match g with
  | AtHeaders _ req sig =>
      Method req = "GET"
      /\ Header req = []
      /\ (exists resourcePath,
             url_Parse L (apiEndpointBase ++ resourcePath) = inl (Url req))
      /\ exists t0 : Time,
          sig = spec_signature (env "COINBASE_SECRET") "GET" (Path (Url req)) (Unix t0)
  | AtDo _ req => authentic L env (EvDo req (inr ""))
  | _ => True
  end.

(** How a procedure that added [d] to the trace may end: it returns, or
    it stops the process with status 1 and the last thing it did before
    was to write a line to stderr.  It does not panic. *)
Definition reported {A} (o : Outcome A) (d : list Event) : Prop :=
  match o with
  | Ret _ => True
  | Exit c => c = 1 /\ exists d' msg, d = (d' ++ [EvStderr (msg ++ newline)])%list
  | Panic _ => False
  end.

(** The same, for a procedure during which several goroutines run when
    [strict] is not set: before the process stopped a line was written
    to stderr, and other goroutines may have gone on after it (they did
    not when [strict] is set). *)
Definition told (strict : bool) {A} (o : Outcome A) (d : list Event) : Prop :=
  match o with
  | Ret _ => True
  | Exit c =>
      c = 1
      /\ exists d1 d2 msg,
          d = (d1 ++ EvStderr (msg ++ newline) :: d2)%list
          /\ (strict = true -> d2 = [])
  | Panic _ => False
  end.

(** [orderly L env strict pre post m]: started in the environment [env]
    (and, when [pre] is set, with the credentials in the package
    variables), [m] adds only authentic round trips to the trace, ends
    as [told strict] says, leaves the environment alone and, when it
    returns and [post] is set, leaves the credentials in the package
    variables. *)
Definition orderly (L : GoLib) (env : string -> string) (strict pre post : bool)
           {A} (m : M A) : Prop :=
  forall w,
    environ w = env ->
    (pre = true -> credentials w) ->
    exists d,
      adds m w d
      /\ Forall (authentic L env) d
      /\ told strict (fst (m w)) d
      /\ environ (snd (m w)) = env
      /\ match fst (m w) with
         | Ret _ => post = true -> credentials (snd (m w))
         | _ => True
         end.

(** The events of a request: the two clock readings and the round trip. *)
Definition is_wire (e : Event) : bool :=
  match e with EvNow _ | EvDo _ _ => true | _ => false end.

(** The URLs of the round trips among the events [d], oldest first. *)
Definition urls (d : list Event) : list URL :=
  flat_map (fun e => match e with EvDo req _ => [Url req] | _ => [] end) d.

(** [u] is the URL of a resource path under the API base. *)
Definition url_of (L : GoLib) (resourcePath : string) (u : URL) : Prop :=
  url_Parse L (apiEndpointBase ++ resourcePath) = inl u.

(** From [w] to [w'] the program requested the resource paths [paths],
    one round trip each, in this order, and nothing else. *)
Definition requested (L : GoLib) (paths : list string) (w w' : World) : Prop :=
  round_trips w' = (round_trips w + List.length paths)%nat
  /\ exists d, trace w' = (trace w ++ d)%list /\ Forall2 (url_of L) paths (urls d).

(** The same, the program having added only events of requests to the
    trace. *)
Definition fetches (L : GoLib) (paths : list string) (w w' : World) : Prop :=
  round_trips w' = (round_trips w + List.length paths)%nat
  /\ exists d,
      trace w' = (trace w ++ d)%list
      /\ forallb is_wire d = true
      /\ Forall2 (url_of L) paths (urls d).

(** The resource paths of the program. *)
Definition pair_of (user : User) (a : AccountEntry) : string :=
  Currency (acct_Balance a) ++ "-" ++ user_NativeCurrency (User_Data user).
Definition price_path (currencyPair priceType : string) : string :=
  "prices/" ++ currencyPair ++ "/" ++ priceType.
Definition history_path (accountId : string) : string :=
  "accounts/" ++ accountId ++ "/transactions".

(** What Overview mode requests for an account it prices. *)
Definition holding_paths (user : User) (a : AccountEntry) : list string :=
  [price_path (pair_of user a) Spot; price_path (pair_of user a) Buy;
   price_path (pair_of user a) Sell; history_path (acct_ID a)].

(** The spot quote behind a row of Accounts mode: the price that
    [GetPrice] returns in the world [w] for the pair of the account and
    the kind "spot", leaving the world [w']; its amount parses. *)
Definition quoted_at (L : GoLib) (user : User) (a : AccountEntry) (w : World)
           (p : Price) (w' : World) : Prop :=
  GetPrice L (pair_of user a) Spot w = (Ret (p, None), w')
  /\ parses L (price_Amount (Price_Data p)).

(** The row of Accounts mode for an account and its spot quote: the
    name, the balance as the service spelled it, and quote * balance in
    the native currency of the user. *)
Definition accountsCells (L : GoLib) (user : User) (a : AccountEntry) (p : Price)
  : list Cell :=
  [CString (acct_Name a);
   CString (Amount (acct_Balance a));
   CString (Sprintf_2f_s L
              (value_of L (price_Amount (Price_Data p)) * balance L a)%float
              (user_NativeCurrency (User_Data user)))].

(** The events by which the calling goroutine launches a worker. *)
Definition is_launch (e : Event) : bool :=
  match e with EvWgAdd _ | EvGo _ => true | _ => false end.
Definition is_done (e : Event) : bool :=
  match e with EvWgDone => true | _ => false end.
Definition is_wait_or_table (e : Event) : bool :=
  match e with EvWgWait | EvPrintTable _ => true | _ => false end.

(** The currency and the rates of a decoded document that has the shape
    [ExchangeRate.String] expects: an object under "data" that holds a
    string under "currency" and an object under "rates". *)
Definition rates_of (e : ExchangeRate) : option (string * list (string * JSON)) :=
  match map_index e "data" with
  | Some (JObject data) =>
      match map_index data "currency", map_index data "rates" with
      | Some (JString currency), Some (JObject rates) => Some (currency, rates)
      | _, _ => None
      end
  | _ => None
  end.

Definition is_JString (v : JSON) : bool :=
  match v with JString _ => true | _ => false end.

(** The row of a rate that is a string. *)
Definition ExchangeRate_cells (currency : string) (kv : string * JSON) : list Cell :=
  [CString currency; CString (fst kv);
   CString (match snd kv with JString s => s | _ => "" end)].

(** The numbers behind a row of Overview mode all parsed.  From the
    world [w] on, [GetPrice] returns the spot, the buy and the sell quote
    of the pair of the account, in this order, and
    [GetTransactionHistory] then returns [history], leaving the world
    [w']; the three quote amounts parse, and so do both amounts of every
    transaction of the history, whatever the type of the transaction. *)
Definition vetted_at (L : GoLib) (user : User) (a : AccountEntry) (w : World)
           (history : Transaction) (w' : World) : Prop :=
  exists (spot buy sell : Price) (w1 w2 w3 : World),
    GetPrice L (pair_of user a) Spot w = (Ret (spot, None), w1)
    /\ GetPrice L (pair_of user a) Buy w1 = (Ret (buy, None), w2)
    /\ GetPrice L (pair_of user a) Sell w2 = (Ret (sell, None), w3)
    /\ GetTransactionHistory L (acct_ID a) w3 = (Ret (history, None), w')
    /\ parses L (price_Amount (Price_Data spot))
    /\ parses L (price_Amount (Price_Data buy))
    /\ parses L (price_Amount (Price_Data sell))
    /\ Forall (fun t => parses L (Amount (tr_NativeAmount t))
                        /\ parses L (Amount (tr_Amount t)))
              (Transaction_Data history).

(** The history that [GetTransactionHistory] makes of a body: the
    decoded value, or the zero value when the body does not decode. *)
Definition history_of (L : GoLib) (body : string) : Transaction :=
  match Unmarshal_Transaction L body with
  | (t, None) => t
  | (_, Some _) => Transaction_zero
  end.

(** Among the events [d] there is a round trip for the history of the
    account, answered 200 with a body every transaction of which has an
    amount that parses. *)
Definition listed_in (L : GoLib) (d : list Event) (accountId : string) : Prop :=
  exists req res body,
    In (EvDo req res) d
    /\ url_of L (history_path accountId) (Url req)
    /\ answer res = (body, None)
    /\ Forall (fun t => parses L (Amount (tr_Amount t)))
              (Transaction_Data (history_of L body)).

(** A mode prints its table once or not at all: whatever the world, it
    does not panic; when it returns, one table is among what it added to
    the trace; when it stops the process, none is. *)
Definition one_table_or_none (m : M unit) : Prop :=
  forall w, exists d,
    adds m w d
    /\ match fst (m w) with
       | Ret _ => List.length (filter is_table d) = 1%nat
       | Exit _ => filter is_table d = []
       | Panic _ => False
       end.


(** * Properties *)

(** ** The hash functions agree with the published test vectors *)

(** Known answers: FIPS 180-4 ("abc", the empty message, a two-block
    message) and RFC 4231, test case 2. *)
Example sha256_abc :
  hex_EncodeToString (SHA256.digest (bytes_of_string "abc"))
  = "ba7816bf8f01cfea414140de5dae2223b00361a396177a9cb410ff61f20015ad".
Proof. vm_compute. reflexivity. Qed.

Example sha256_empty :
  hex_EncodeToString (SHA256.digest [])
  = "e3b0c44298fc1c149afbf4c8996fb92427ae41e4649b934ca495991b7852b855".
Proof. vm_compute. reflexivity. Qed.

Example sha256_two_blocks :
  hex_EncodeToString (SHA256.digest (bytes_of_string
    "abcdbcdecdefdefgefghfghighijhijkijkljklmklmnlmnomnopnopq"))
  = "248d6a61d20638b8e5c026930c3e6039a33ce45964ff2167f6ecedd419db06c1".
Proof. vm_compute. reflexivity. Qed.

Example hmac_rfc4231_2 :
  hex_EncodeToString (HMAC.sha256 (bytes_of_string "Jefe")
    (bytes_of_string "what do ya want for nothing?"))
  = "5bdcc146bf60754e6a042426089575c75a003f089d2739839dec58b964ec3843".
Proof. vm_compute. reflexivity. Qed.

(** Messages whose padding ends a block, opens a new one or fills two,
    and a key longer than a block. *)
Example sha256_padding_boundaries :
  map (fun n => hex_EncodeToString (SHA256.digest (repeat 97 n))) [55; 56; 64; 119]%nat
  = [ "9f4390f8d30c2dd92ec9f095b65e2b9ae9b0a925a5258e241c9f1e910f734318";
      "b35439a4ac6f0948b6d6f9e3c6af0f5f590ce20f1bde7090ef7970686ec6738a";
      "ffe054fe7ae0cb6dc65c3af9b61d5209f439851db43d0ba5997337df154668eb";
      "31eba51c313a5c08226adf18d4a359cfdfd8d2e816b13f4af952f7ea6584dcfb" ].
Proof. vm_compute. reflexivity. Qed.

Example hmac_long_key :
  hex_EncodeToString (HMAC.sha256 (repeat 107 100) (repeat 120 200))
  = "e326f00ce14194bb85e2683fe9b1a78851753f77479303f94c2c3cd1998bdda3".
Proof. vm_compute. reflexivity. Qed.

(** ** The monad *)

Lemma bind_ret_l {A B} (a : A) (k : A -> M B) (w : World) : bind (ret a) k w = k a w.
Proof. reflexivity. Qed.

Lemma bind_Ret {A B} (m : M A) (k : A -> M B) w a w' :
  m w = (Ret a, w') -> bind m k w = k a w'.
Proof. intros E. unfold bind. now rewrite E. Qed.

Lemma bind_Panic {A B} (m : M A) (k : A -> M B) w e w' :
  m w = (Panic e, w') -> bind m k w = (Panic e, w').
Proof. intros E. unfold bind. now rewrite E. Qed.

Lemma foldM_app {A S} (body : S -> A -> M S) (l1 l2 : list A) (s : S) (w : World) :
  foldM body (l1 ++ l2) s w = bind (foldM body l1 s) (foldM body l2) w.
Proof.
  revert s w. induction l1 as [|a l1 IH]; intros s w; simpl.
  - reflexivity.
  - unfold bind in *.
    destruct (body s a w) as [[s'|c|e] w1]; auto.
Qed.

(** ** C3: the request signature *)

Lemma createSignature_run (r : Request) (w : World) :
  fst (createSignature r w)
  = Ret (spec_signature (cbAPISecret w) (Method r) (Path (Url r))
           (Unix (clock w (clock_reads w)))).
Proof. reflexivity. Qed.

(** C3. The signer returns the hex encoding of the HMAC-SHA256, keyed by
    the secret, of timestamp ++ method ++ path, the timestamp being the
    Unix time it reads from the clock; and two calls whose secret, method,
    path and timestamp are equal return the same signature. *)
Theorem createSignature_spec (r : Request) (w : World) :
  fst (createSignature r w)
  = Ret (spec_signature (cbAPISecret w) (Method r) (Path (Url r))
           (Unix (clock w (clock_reads w))))
  /\ forall (r' : Request) (w' : World),
       cbAPISecret w' = cbAPISecret w ->
       Method r' = Method r ->
       Path (Url r') = Path (Url r) ->
       Unix (clock w' (clock_reads w')) = Unix (clock w (clock_reads w)) ->
       fst (createSignature r' w') = fst (createSignature r w).
Proof.
  split.
  - apply createSignature_run.
  - intros r' w' Hs Hm Hp Ht.
    rewrite !createSignature_run. congruence.
Qed.

Lemma createSignature_spec_witness :
  let w := Fixture.world Fixture.steady_clock Fixture.healthy in
  let w' := Fixture.world (fun _ => 1700000000999999999) [] in
  let r := {| Method := "GET";
              Url := {| Scheme := "https"; Host := "api.coinbase.com";
                        Path := "/v2/user"; RawQuery := "" |};
              Header := [] |} in
  let r' := {| Method := "GET";
               Url := {| Scheme := "http"; Host := "localhost";
                         Path := "/v2/user"; RawQuery := "page=2" |};
               Header := [("Accept", "*/*")] |} in
  fst (createSignature r' w') = fst (createSignature r w).
Proof.
  intros w w' r r'.
  destruct (createSignature_spec r w) as [_ H].
  apply H; reflexivity.
Defined.

(** ** C5: the fold of a transaction history *)

Section TransactionSums.

Variable L : GoLib.

Local Open Scope float_scope.

Lemma sumTransaction_run (invested inflationRewards : float) (t : TransactionEntry)
      (w : World) :
  parses L (Amount (tr_NativeAmount t)) ->
  parses L (Amount (tr_Amount t)) ->
  sumTransaction L (invested, inflationRewards) t w
  = (Ret (if is_buy t then invested + native_amount L t else invested,
          if is_inflation_reward t then inflationRewards + asset_amount L t
          else inflationRewards), w).
Proof.
  unfold parses, native_amount, asset_amount, value_of, sumTransaction,
    is_buy, is_inflation_reward.
  intros Hn Ha.
  destruct (ParseFloat L (Amount (tr_NativeAmount t))) as [nc e1].
  destruct (ParseFloat L (Amount (tr_Amount t))) as [am e2].
  simpl in Hn, Ha. subst e1 e2. simpl.
  rewrite !bind_ret_l.
  destruct (String.eqb (tr_Type t) Buy) eqn:Eb.
  - apply String.eqb_eq in Eb. rewrite Eb. reflexivity.
  - destruct (String.eqb (tr_Type t) InflationReward); reflexivity.
Qed.

Lemma sumTransactions_from (txs : list TransactionEntry) :
  Forall (fun t => parses L (Amount (tr_NativeAmount t))
                   /\ parses L (Amount (tr_Amount t))) txs ->
  forall invested inflationRewards w,
    foldM (sumTransaction L) txs (invested, inflationRewards) w
    = (Ret (fold_left PrimFloat.add (map (native_amount L) (filter is_buy txs)) invested,
            fold_left PrimFloat.add
              (map (asset_amount L) (filter is_inflation_reward txs)) inflationRewards),
       w).
Proof.
  induction 1 as [|t txs [Hn Ha] _ IH]; intros invested inflationRewards w.
  - reflexivity.
  - cbn [foldM].
    rewrite (bind_Ret _ _ _ _ _ (sumTransaction_run invested inflationRewards t w Hn Ha)).
    rewrite IH. cbn [filter].
    destruct (is_buy t), (is_inflation_reward t); reflexivity.
Qed.

End TransactionSums.

(** C5. Over a transaction list whose amounts all parse, the loop of
    Overview mode returns, leaves the world as it was, and yields as
    [invested] the sum of the native-currency amounts of exactly the
    transactions of type "buy" and as [inflationRewards] the sum of the
    asset-currency amounts of exactly those of type "inflation_reward";
    the sums add from the left, from 0, in list order, and a transaction
    of any other type enters neither. *)
Theorem invested_and_rewards_sums (L : GoLib) (txs : list TransactionEntry) (w : World) :
  Forall (fun t => parses L (Amount (tr_NativeAmount t))
                   /\ parses L (Amount (tr_Amount t))) txs ->
  foldM (sumTransaction L) txs (0%float, 0%float) w
  = (Ret (fsum (map (native_amount L) (filter is_buy txs)),
          fsum (map (asset_amount L) (filter is_inflation_reward txs))), w).
Proof.
  intros H. apply sumTransactions_from. exact H.
Qed.

Lemma invested_and_rewards_sums_witness :
  foldM (sumTransaction Fixture.lib) Fixture.history (0%float, 0%float)
        (Fixture.world Fixture.steady_clock Fixture.healthy)
  = (Ret (fsum (map (native_amount Fixture.lib) (filter is_buy Fixture.history)),
          fsum (map (asset_amount Fixture.lib)
                    (filter is_inflation_reward Fixture.history))),
     Fixture.world Fixture.steady_clock Fixture.healthy).
Proof.
  apply invested_and_rewards_sums.
  repeat (constructor; [split; reflexivity|]). constructor.
Defined.

(** The examples of the specification: buys of 50.00 and 75.25 and a sell
    of 30.00 give 125.25 invested; rewards of 0.001 and 0.002 print as
    0.003000. *)
Example history_sums :
  fsum (map (native_amount Fixture.lib) (filter is_buy Fixture.history)) = 125.25%float
  /\ Fixture.format_fixed 6
       (fsum (map (asset_amount Fixture.lib)
                  (filter is_inflation_reward Fixture.history))) = "0.003000".
Proof. split; vm_compute; reflexivity. Qed.

(** ** C6: accounts without a positive balance *)

Section EmptyAccounts.

Variable L : GoLib.
Variable a : AccountEntry.
Hypothesis a_parses : parses L (Amount (acct_Balance a)).
Hypothesis a_not_positive : qualifies L a = false.

Lemma overviewAccount_skips (user : User) (st : Table * float * float) (w : World) :
  overviewAccount L user st a w = (Ret st, w).
Proof.
  unfold overviewAccount. destruct st as [[tbl tso] tr].
  unfold parses, qualifies, balance, value_of in *.
  destruct (ParseFloat L (Amount (acct_Balance a))) as [amt err].
  cbn [fst snd] in *. subst err. unfold bind, errHandler, ret.
  rewrite a_not_positive. reflexivity.
Qed.

Lemma accountsRow_skips (user : User) (tbl : Table) (w : World) :
  accountsRow L user tbl a w = (Ret tbl, w).
Proof.
  unfold accountsRow.
  unfold parses, qualifies, balance, value_of in *.
  destruct (ParseFloat L (Amount (acct_Balance a))) as [amt err].
  cbn [fst snd] in *. subst err. unfold bind, errHandler, ret.
  rewrite a_not_positive. reflexivity.
Qed.

Lemma foldM_skips {S} (body : S -> AccountEntry -> M S) :
  (forall s w, body s a w = (Ret s, w)) ->
  forall l1 l2 s w, foldM body (l1 ++ a :: l2) s w = foldM body (l1 ++ l2) s w.
Proof.
  intros Hskip l1 l2 s w.
  rewrite !foldM_app. unfold bind at 1 2.
  destruct (foldM body l1 s w) as [[s'|c|e] w1]; auto.
  cbn [foldM]. rewrite (bind_Ret _ _ _ _ _ (Hskip s' w1)). reflexivity.
Qed.

End EmptyAccounts.

(** C6. An account whose balance parses to an amount that is not
    strictly positive leaves no mark: its iteration of the Overview loop
    and of the Accounts loop returns the table and the totals as they were
    and the world as it was (no request sent, nothing read or written),
    and both loops run on a list that holds the account exactly as on the
    list without it. *)
Theorem non_positive_account_excluded (L : GoLib) (a : AccountEntry) :
  parses L (Amount (acct_Balance a)) ->
  qualifies L a = false ->
  (forall user st w, overviewAccount L user st a w = (Ret st, w))
  /\ (forall user tbl w, accountsRow L user tbl a w = (Ret tbl, w))
  /\ (forall user l1 l2 st w,
        foldM (overviewAccount L user) (l1 ++ a :: l2) st w
        = foldM (overviewAccount L user) (l1 ++ l2) st w)
  /\ (forall user l1 l2 tbl w,
        foldM (accountsRow L user) (l1 ++ a :: l2) tbl w
        = foldM (accountsRow L user) (l1 ++ l2) tbl w).
Proof.
  intros Hp Hn. repeat split; intros.
  - now apply overviewAccount_skips.
  - now apply accountsRow_skips.
  - apply foldM_skips. intros. now apply overviewAccount_skips.
  - apply foldM_skips. intros. now apply accountsRow_skips.
Qed.

Lemma non_positive_account_excluded_witness :
  let w := Fixture.world Fixture.steady_clock Fixture.healthy in
  foldM (overviewAccount Fixture.lib Fixture.user_value)
        ([Fixture.btc_account] ++ Fixture.eth_account :: [])
        (table_New (overviewHeader), 0%float, 0%float) w
  = foldM (overviewAccount Fixture.lib Fixture.user_value)
        ([Fixture.btc_account] ++ [])
        (table_New (overviewHeader), 0%float, 0%float) w.
Proof.
  intros w.
  destruct (non_positive_account_excluded Fixture.lib Fixture.eth_account)
    as (_ & _ & H & _); [reflexivity | reflexivity |].
  apply H.
Defined.

(** ** C9: both flags *)

(** C9. With both flags set the command reads the clock, runs
    Transactions mode, then Accounts mode, then prints the elapsed time;
    Overview mode is not run: the command behaves the same whatever
    procedure stands in its place. *)
Theorem both_flags_run_transactions_then_accounts (L : GoLib) (w : World) :
  coinbaseCmd_Run L true true w
  = (start <- time_Now ;;
     getCoinbaseTransactions L ;;
     getCoinbaseAccounts L ;;
     fmt_Println "" ;;
     now <- time_Now ;;
     fmt_Println ("Elapsed Run Time: " ++ Duration_String L (now - start))) w
  /\ forall overview : M unit,
       dispatch L (getCoinbaseTransactions L) (getCoinbaseAccounts L) overview true true w
       = coinbaseCmd_Run L true true w.
Proof.
  split.
  - unfold coinbaseCmd_Run, dispatch. cbn [negb andb]. unfold bind.
    cbn [time_Now].
    destruct (getCoinbaseTransactions L _) as [[[]|c|e] w2]; reflexivity.
  - intros overview. reflexivity.
Qed.

(** On the scenario of the specification, with both flags: the table of
    Transactions mode, then the table of Accounts mode, and no profile
    (which only Overview mode prints). *)
Example both_flags_on_the_scenario :
  map (fun e => match e with EvPrintTable t => header t | _ => [] end)
      (filter (fun e => match e with EvPrintTable _ | EvStdout _ => true | _ => false end)
              (trace (snd (coinbaseCmd_Run Fixture.lib true true Fixture.w_healthy))))
  = [ ["Transaction Type"; "Crypto"; "Amount"; "Date"; "Payment Method"; "Summary"];
      ["Wallet"; "Balance"; "Native"];
      []; [] ].
Proof. vm_compute. reflexivity. Qed.

(** ** C10: the stringer of an account list *)

Lemma Account_String_rows_panic (L : GoLib) (data : list AccountEntry) :
  Exists (fun act => ~ parses L (Amount (acct_Balance act))) data ->
  forall tbl w, exists e, foldM (Account_String_row L) data tbl w = (Panic e, w).
Proof.
  induction data as [|act data IH]; intros Hex tbl w.
  - inversion Hex.
  - cbn [foldM]. unfold bind.
    unfold Account_String_row at 1. unfold parses in *.
    destruct (ParseFloat L (Amount (acct_Balance act))) as [amount [err|]] eqn:E.
    + exists err. reflexivity.
    + assert (Ht : Exists (fun act => snd (ParseFloat L (Amount (acct_Balance act))) <> None)
                          data).
      { inversion Hex as [? ? Hhd | ? ? Htl]; subst; auto.
        rewrite E in Hhd. now elim Hhd. }
      destruct (0 <? amount)%float; cbn; apply IH; exact Ht.
Qed.

(** C10. When the balance amount of some account of the list does not
    parse as a number, [Account.String] panics: it neither returns a
    string nor hands an error to its caller. *)
Theorem Account_String_panics (L : GoLib) (a : Account) (w : World) :
  Exists (fun act => ~ parses L (Amount (acct_Balance act))) (Account_Data a) ->
  exists e, Account_String L a w = (Panic e, w).
Proof.
  intros Hex. unfold Account_String.
  destruct (Account_String_rows_panic L (Account_Data a) Hex
              (table_New ["Wallet Name"; "Balance"; "Currency"]) w) as [e He].
  exists e. apply bind_Panic. exact He.
Qed.

(** Conversely, when every balance parses the stringer returns. *)
Lemma Account_String_returns (L : GoLib) (a : Account) (w : World) :
  Forall (fun act => parses L (Amount (acct_Balance act))) (Account_Data a) ->
  exists s, Account_String L a w = (Ret s, w).
Proof.
  intros Hall. unfold Account_String.
  assert (H : forall tbl, exists tbl',
               foldM (Account_String_row L) (Account_Data a) tbl w = (Ret tbl', w)).
  { induction Hall as [|act data Hp _ IH]; intros tbl.
    - now exists tbl.
    - cbn [foldM]. unfold bind, Account_String_row at 1. unfold parses in Hp.
      destruct (ParseFloat L (Amount (acct_Balance act))) as [amount err].
      cbn [snd] in Hp. subst err.
      destruct (0 <? amount)%float; cbn; apply IH. }
  destruct (H (table_New ["Wallet Name"; "Balance"; "Currency"])) as [tbl' E].
  exists (table_render L tbl'). now rewrite (bind_Ret _ _ _ _ _ E).
Qed.

Lemma Account_String_panics_witness :
  exists e,
    Account_String Fixture.lib
      {| Account_Data := [Fixture.btc_account; Fixture.odd_account] |}
      (Fixture.world Fixture.steady_clock Fixture.healthy)
    = (Panic e, Fixture.world Fixture.steady_clock Fixture.healthy).
Proof.
  apply Account_String_panics.
  right. left. vm_compute. discriminate.
Defined.

(** ** The pool of Transactions mode

    Whatever the scheduler picks, [fan_out] makes moves of the pool
    ([pool_move]) and nothing else, and returns only when the loop is
    over and every goroutine has returned: the bounds it is given are
    enough.  What holds of every sequence of moves therefore holds of
    every interleaving the scheduler may choose. *)

Lemma nth_error_context {A} (l : list A) :
  forall (j : nat) (g : A),
    nth_error l j = Some g ->
    exists l1 l2,
      l = (l1 ++ g :: l2)%list
      /\ (forall x, replace_nth j x l = (l1 ++ x :: l2)%list)
      /\ remove_nth j l = (l1 ++ l2)%list.
Proof.
  induction l as [|a l IH]; intros [|j] g H; try discriminate.
  - injection H as ->. exists [], l. repeat split.
  - cbn [nth_error] in H. destruct (IH j g H) as (l1 & l2 & -> & Hr & Hd).
    exists (a :: l1), l2. cbn [replace_nth remove_nth app]. repeat split.
    + intros x. now rewrite Hr.
    + now rewrite Hd.
Qed.

Lemma budget_context (l : Launcher) (gs1 gs2 : list Goroutine) (g : Goroutine)
      (tbl tbl' : Table) :
  budget {| launcher := l; goroutines := (gs1 ++ g :: gs2)%list; shared := tbl |}
  = (budget_of g
     + budget {| launcher := l; goroutines := (gs1 ++ gs2)%list; shared := tbl' |})%nat.
Proof.
  unfold budget. cbn [launcher goroutines].
  rewrite !map_app, !list_sum_app. cbn [map].
  change (list_sum (budget_of g :: map budget_of gs2))
    with (budget_of g + list_sum (map budget_of gs2))%nat.
  lia.
Qed.

Lemma fetch_ids_app (gs1 gs2 : list Goroutine) :
  fetch_ids (gs1 ++ gs2) = (fetch_ids gs1 ++ fetch_ids gs2)%list.
Proof. apply flat_map_app. Qed.

Lemma fetch_ids_context (gs1 gs2 : list Goroutine) (g : Goroutine) :
  fetch_ids (gs1 ++ g :: gs2) = (fetch_ids gs1 ++ fetch_id g ++ fetch_ids gs2)%list.
Proof. now rewrite fetch_ids_app. Qed.

Lemma unfetched_context (l : Launcher) (gs1 gs2 : list Goroutine) (g : Goroutine)
      (tbl tbl' : Table) :
  unfetched {| launcher := l; goroutines := (gs1 ++ g :: gs2)%list; shared := tbl |}
  = (List.length (fetch_id g)
     + unfetched {| launcher := l; goroutines := (gs1 ++ gs2)%list; shared := tbl' |})%nat.
Proof.
  unfold unfetched. cbn [launcher goroutines].
  rewrite fetch_ids_context, fetch_ids_app, !length_app. lia.
Qed.

(** What stands in the place of a goroutine of the pool after its step. *)
Lemma pool_step_context (L : GoLib) (j : nat) (g : Goroutine) (l : Launcher)
      (gs1 gs2 : list Goroutine) (tbl : Table) (w : World)
      (o : Outcome (Table * option Goroutine)) (w1 : World) :
  (forall x, replace_nth j x (gs1 ++ g :: gs2) = (gs1 ++ x :: gs2)%list) ->
  remove_nth j (gs1 ++ g :: gs2) = (gs1 ++ gs2)%list ->
  goroutine_step L tbl g w = (o, w1) ->
  pool_step L j g {| launcher := l; goroutines := (gs1 ++ g :: gs2)%list; shared := tbl |} w
  = (match o with
     | Ret (tbl', Some g') =>
         Ret {| launcher := l; goroutines := (gs1 ++ g' :: gs2)%list; shared := tbl' |}
     | Ret (tbl', None) =>
         Ret {| launcher := l; goroutines := (gs1 ++ gs2)%list; shared := tbl' |}
     | Exit c => Exit c
     | Panic e => Panic e
     end, w1).
Proof.
  intros Hr Hd E. unfold pool_step. cbn [shared launcher goroutines].
  unfold bind. rewrite E. destruct o as [[tbl' [g'|]]|c|e]; unfold ret;
    rewrite ?Hr, ?Hd; reflexivity.
Qed.

(** The step at [AtDo], in the words of [answer]. *)
Lemma goroutine_step_Do (L : GoLib) (tbl : Table) (accountID : string) (req : Request)
      (w : World) :
  goroutine_step L tbl (AtDo accountID req) w
  = (Ret (tbl, Some (answered L (remote w (round_trips w) req))), snd (http_Do req w)).
Proof.
  cbn [goroutine_step]. unfold bind, http_Do, answered, answer. cbv beta iota.
  cbn [snd].
  destruct (remote w (round_trips w) req) as [resp|err]; [|reflexivity].
  destruct (Body resp) as [body [err|]]; [reflexivity|].
  destruct (negb (StatusCode resp =? 200)); [reflexivity|].
  destruct (Unmarshal_Transaction L body) as [t [err|]]; reflexivity.
Qed.

(** A step of the calling goroutine inside its loop is a move. *)
Lemma launcher_step_move (L : GoLib) (p : Pool) (w : World) :
  launching (launcher p) = true ->
  exists p1 w1,
    launcher_step p w = (Ret p1, w1)
    /\ pool_move L p w p1 w1
    /\ S (budget p1) = budget p
    /\ unfetched p1 = unfetched p.
Proof.
  destruct p as [[[|id ids]|id ids] gs tbl]; cbn [launcher launching]; intros H;
    try discriminate.
  - exists {| launcher := AtGo id ids; goroutines := gs; shared := tbl |},
      (snd (emit (EvWgAdd 1) w)).
    split; [reflexivity|]. split; [constructor|].
    unfold budget, unfetched. cbn [launcher goroutines pending List.length]. lia.
  - exists {| launcher := AtAdd ids; goroutines := (gs ++ [AtFetch id])%list;
              shared := tbl |},
      (snd (emit (EvGo id) w)).
    split; [reflexivity|]. split; [constructor|].
    unfold budget, unfetched. cbn [launcher goroutines pending List.length].
    rewrite map_app, list_sum_app, fetch_ids_app, length_app.
    cbn. lia.
Qed.

(** The round trip of a goroutine is a move, and one round trip less is
    left. *)
Lemma pool_step_fetch (L : GoLib) (j : nat) (accountID : string) (req : Request)
      (p : Pool) (w : World) :
  nth_error (goroutines p) j = Some (AtDo accountID req) ->
  exists p1 w1,
    pool_step L j (AtDo accountID req) p w = (Ret p1, w1)
    /\ pool_move L p w p1 w1
    /\ S (unfetched p1) = unfetched p.
Proof.
  intros H. destruct (nth_error_context _ _ _ H) as (gs1 & gs2 & Hg & Hr & Hd).
  destruct p as [l gs tbl]. cbn [goroutines] in *. subst gs.
  exists {| launcher := l;
            goroutines := (gs1 ++ answered L (remote w (round_trips w) req) :: gs2)%list;
            shared := tbl |}, (snd (http_Do req w)).
  split; [|split; [constructor|]].
  - rewrite (pool_step_context L j _ l gs1 gs2 tbl w _ _ Hr Hd
               (goroutine_step_Do L tbl accountID req w)).
    reflexivity.
  - rewrite (unfetched_context l gs1 gs2 (AtDo accountID req) tbl tbl).
    rewrite (unfetched_context l gs1 gs2 _ tbl tbl).
    unfold answered. destruct (answer (remote w (round_trips w) req)) as [body [e|]];
      reflexivity.
Qed.

(** The other steps of a goroutine: the one before [os.Exit(1)] ends the
    process, each of the others is a move that uses up some of the
    budget. *)
Lemma pool_step_quiet (L : GoLib) (j : nat) (g : Goroutine) (p : Pool) (w : World) :
  nth_error (goroutines p) j = Some g ->
  match g with
  | AtDo _ _ => True
  | AtExit => pool_step L j g p w = (Exit 1, w)
  | _ =>
      exists p1 w1,
        pool_step L j g p w = (Ret p1, w1)
        /\ pool_move L p w p1 w1
        /\ (budget p1 < budget p)%nat
        /\ (unfetched p1 <= unfetched p)%nat
  end.
Proof.
  intros H. destruct (nth_error_context _ _ _ H) as (gs1 & gs2 & Hg & Hr & Hd).
  destruct p as [l gs tbl]. cbn [goroutines] in *. subst gs.
  pose proof (fun o w1 => pool_step_context L j g l gs1 gs2 tbl w o w1 Hr Hd) as Hstep.
  pose proof (fun g' => budget_context l gs1 gs2 g' tbl tbl) as Hb.
  pose proof (fun g' tbl' => budget_context l gs1 gs2 g' tbl' tbl) as Hb'.
  pose proof (fun g' => unfetched_context l gs1 gs2 g' tbl tbl) as Hu.
  pose proof (fun g' tbl' => unfetched_context l gs1 gs2 g' tbl' tbl) as Hu'.
  destruct g as [accountID|accountID req sig|accountID req|[|t rest]|e|].
  - destruct (http_NewRequest L "GET"
                (apiEndpointBase ++ "accounts/" ++ accountID ++ "/transactions"))
      as [req|err] eqn:Hreq.
    + assert (E : goroutine_step L tbl (AtFetch accountID) w
                  = (Ret (tbl, Some (AtHeaders accountID req
                                       (spec_signature (cbAPISecret w) (Method req)
                                          (Path (Url req))
                                          (Unix (clock w (clock_reads w)))))),
                     snd (time_Now w)))
        by (cbn [goroutine_step]; rewrite Hreq; reflexivity).
      do 2 eexists. split; [exact (Hstep _ _ E)|].
      split; [exact (move_sign L l gs1 gs2 tbl accountID req w Hreq)|].
      rewrite (Hb (AtFetch accountID)), (Hb (AtHeaders _ _ _)),
        (Hu (AtFetch accountID)), (Hu (AtHeaders _ _ _)).
      cbn [budget_of fetch_id List.length]. split; lia.
    + assert (E : goroutine_step L tbl (AtFetch accountID) w
                  = (Ret (tbl, Some (AtReport err)), w))
        by (cbn [goroutine_step]; rewrite Hreq; reflexivity).
      do 2 eexists. split; [exact (Hstep _ _ E)|].
      split; [exact (move_unsent L l gs1 gs2 tbl accountID err w Hreq)|].
      rewrite (Hb (AtFetch accountID)), (Hb (AtReport _)),
        (Hu (AtFetch accountID)), (Hu (AtReport _)).
      cbn [budget_of fetch_id List.length]. split; lia.
  - assert (E : goroutine_step L tbl (AtHeaders accountID req sig) w
                = (Ret (tbl, Some (AtDo accountID
                                     (with_auth req (cbAPIKey w) sig
                                        (Sprint_int (Unix (clock w (clock_reads w))))))),
                   snd (time_Now w)))
      by reflexivity.
    do 2 eexists. split; [exact (Hstep _ _ E)|].
    split; [exact (move_headers L l gs1 gs2 tbl accountID req sig w)|].
    rewrite (Hb (AtHeaders _ _ _)), (Hb (AtDo _ _)),
      (Hu (AtHeaders _ _ _)), (Hu (AtDo _ _)).
    cbn [budget_of fetch_id List.length]. split; lia.
  - exact I.
  - assert (E : goroutine_step L tbl (AtRange []) w
                = (Ret (tbl, None), snd (emit EvWgDone w)))
      by reflexivity.
    do 2 eexists. split; [exact (Hstep _ _ E)|].
    split; [constructor|].
    rewrite (Hb (AtRange [])), (Hu (AtRange [])).
    cbn [budget_of fetch_id List.length]. split; lia.
  - destruct (ParseFloat L (Amount (tr_Amount t))) as [tAmt [e|]] eqn:E0.
    + assert (E : goroutine_step L tbl (AtRange (t :: rest)) w
                  = (Ret (tbl, Some (AtReport e)), w))
        by (cbn [goroutine_step]; rewrite E0; reflexivity).
      do 2 eexists. split; [exact (Hstep _ _ E)|].
      split; [now apply (move_bad_row L l gs1 gs2 tbl t rest tAmt)|].
      rewrite (Hb (AtRange (t :: rest))), (Hb (AtReport e)),
        (Hu (AtRange (t :: rest))), (Hu (AtReport e)).
      cbn [budget_of fetch_id List.length]. split; lia.
    + assert (E : goroutine_step L tbl (AtRange (t :: rest)) w
                  = (Ret (AddRow tbl [CString (tr_Type t); CString (Currency (tr_Amount t));
                                      CFloat tAmt; CTime (tr_CreatedAt t);
                                      CString (tr_PaymentMethodName t);
                                      CString (tr_Header t)],
                          Some (AtRange rest)), w))
        by (cbn [goroutine_step]; rewrite E0; reflexivity).
      do 2 eexists. split; [exact (Hstep _ _ E)|].
      split; [now apply (move_row L l gs1 gs2 tbl t rest tAmt)|].
      rewrite (Hb (AtRange (t :: rest))), (Hb' (AtRange rest)),
        (Hu (AtRange (t :: rest))), (Hu' (AtRange rest)).
      cbn [budget_of fetch_id List.length]. split; lia.
  - assert (E : goroutine_step L tbl (AtReport e) w
                = (Ret (tbl, Some AtExit), snd (emit (EvStderr (e ++ newline)) w)))
      by reflexivity.
    do 2 eexists. split; [exact (Hstep _ _ E)|].
    split; [constructor|].
    rewrite (Hb (AtReport e)), (Hb AtExit), (Hu (AtReport e)), (Hu AtExit).
    cbn [budget_of fetch_id List.length]. split; lia.
  - assert (E : goroutine_step L tbl AtExit w = (Exit 1, w)) by reflexivity.
    exact (Hstep _ _ E).
Qed.

Lemma budget_of_le (p : Pool) (j : nat) (g : Goroutine) :
  nth_error (goroutines p) j = Some g -> (budget_of g <= budget p)%nat.
Proof.
  intros H. destruct (nth_error_context _ _ _ H) as (gs1 & gs2 & Hg & _).
  destruct p as [l gs tbl]. cbn [goroutines] in *. subst gs.
  rewrite (budget_context l gs1 gs2 g tbl tbl). lia.
Qed.

(** The scheduler picks a goroutine that exists. *)
Lemma turn_exists (p : Pool) (n i j : nat) :
  ready p = S n -> (i < S n)%nat -> turn p i = Some j ->
  exists g, nth_error (goroutines p) j = Some g.
Proof.
  unfold ready, turn. intros Hr Hi Ht.
  assert (Hj : (j < List.length (goroutines p))%nat).
  { destruct (launching (launcher p)).
    - destruct i as [|i]; [discriminate|]. injection Ht as <-. lia.
    - injection Ht as <-. lia. }
  apply nth_error_Some in Hj.
  destruct (nth_error (goroutines p) j) as [g|]; [now exists g|congruence].
Qed.

Lemma quiet_spec_move (L : GoLib) (k : nat) (p p1 : Pool) (w w1 : World)
      (r : Outcome (nat * Pool * Pause) * World) :
  pool_move L p w p1 w1 ->
  (budget p1 < budget p)%nat ->
  (unfetched p1 <= unfetched p)%nat ->
  quiet_spec L k p1 w1 r -> quiet_spec L (S k) p w r.
Proof.
  intros Hm Hb Hu. destruct r as [[[[tick' p'] pause]|c|e] w']; cbn [quiet_spec].
  - intros (Hrun & Hu' & Hp). split; [exact (run_on L _ _ _ _ _ _ Hm Hrun)|].
    split; [lia|]. destruct pause; [|exact Hp]. intros Hk. apply Hp. lia.
  - intros (-> & p2 & Hrun & Hin). split; [reflexivity|].
    exists p2. split; [exact (run_on L _ _ _ _ _ _ Hm Hrun)|exact Hin].
  - auto.
Qed.

Lemma quiet_sound (L : GoLib) (k : nat) :
  forall (tick : nat) (p : Pool) (w : World),
    quiet_spec L k p w (quiet L k tick p w).
Proof.
  induction k as [|k IH]; intros tick p w.
  all: cbn [quiet]; destruct (ready p) as [|n] eqn:Hr;
    [cbn [ret quiet_spec]; unfold ret; cbn [quiet_spec];
     split; [constructor|split; [reflexivity|auto]]|].
  all: unfold bind at 1; unfold pick; cbv beta iota.
  all: set (i := (scheduler w tick mod S n)%nat).
  all: assert (Hi : (i < S n)%nat) by (apply Nat.mod_upper_bound; discriminate).
  all: destruct (turn p i) as [j|] eqn:Ht.
  - destruct (turn_exists p n i j Hr Hi Ht) as (g & Hg). rewrite Hg.
    pose proof (budget_of_le p j g Hg) as Hb.
    destruct g; unfold ret; cbn [quiet_spec];
      (split; [constructor|split; [reflexivity|]]); eauto;
      cbn [budget_of] in Hb; intros Hk; lia.
  - unfold ret; cbn [quiet_spec]. split; [constructor|split; [reflexivity|]].
    intros Hk. exfalso. unfold turn in Ht.
    destruct (launching (launcher p)) eqn:Hl; [|discriminate].
    destruct (launcher_step_move L p w Hl) as (p1 & w1 & _ & _ & Hb & _). lia.
  - destruct (turn_exists p n i j Hr Hi Ht) as (g & Hg). rewrite Hg.
    pose proof (pool_step_quiet L j g p w Hg) as Hs.
    destruct g as [accountID|accountID req sig|accountID req|rest|e|].
    + destruct Hs as (p1 & w1 & E & Hm & Hb & Hu).
      unfold bind at 1. rewrite E.
      exact (quiet_spec_move L k p p1 w w1 _ Hm Hb Hu (IH (S tick) p1 w1)).
    + destruct Hs as (p1 & w1 & E & Hm & Hb & Hu).
      unfold bind at 1. rewrite E.
      exact (quiet_spec_move L k p p1 w w1 _ Hm Hb Hu (IH (S tick) p1 w1)).
    + unfold ret; cbn [quiet_spec]. split; [constructor|split; [reflexivity|eauto]].
    + destruct Hs as (p1 & w1 & E & Hm & Hb & Hu).
      unfold bind at 1. rewrite E.
      exact (quiet_spec_move L k p p1 w w1 _ Hm Hb Hu (IH (S tick) p1 w1)).
    + destruct Hs as (p1 & w1 & E & Hm & Hb & Hu).
      unfold bind at 1. rewrite E.
      exact (quiet_spec_move L k p p1 w w1 _ Hm Hb Hu (IH (S tick) p1 w1)).
    + unfold bind at 1. rewrite Hs. cbn [quiet_spec]. split; [reflexivity|].
      exists p. split; [constructor|]. exact (nth_error_In _ _ Hg).
  - unfold turn in Ht. destruct (launching (launcher p)) eqn:Hl; [|discriminate].
    destruct (launcher_step_move L p w Hl) as (p1 & w1 & E & Hm & Hb & Hu).
    unfold bind at 1. rewrite E.
    apply (quiet_spec_move L k p p1 w w1 _ Hm); [lia|lia|].
    exact (IH (S tick) p1 w1).
Qed.

Lemma pool_run_trans (L : GoLib) (p p1 p2 : Pool) (w w1 w2 : World) :
  pool_run L p w p1 w1 -> pool_run L p1 w1 p2 w2 -> pool_run L p w p2 w2.
Proof.
  induction 1 as [|p w pa wa pb wb Hm _ IH]; [auto|].
  intros H. exact (run_on L _ _ _ _ _ _ Hm (IH H)).
Qed.

Lemma fan_out_sound (L : GoLib) (n : nat) :
  forall (tick : nat) (p : Pool) (w : World),
    (unfetched p <= n)%nat ->
    fan_out_spec L p w (fan_out L n tick p w).
Proof.
  induction n as [|n IH]; intros tick p w Hn.
  all: cbn [fan_out]; unfold bind at 1.
  all: pose proof (quiet_sound L (budget p) tick p w) as Hq.
  all: destruct (quiet L (budget p) tick p w) as [[[[tick1 p1] pause]|c|e] w1];
    cbn [quiet_spec] in Hq; cbv beta iota.
  all: try (cbn [fan_out_spec]; exact Hq).
  all: destruct Hq as (Hrun & Hu & Hp).
  all: destruct pause as [|j g].
  all: try (unfold ret; cbn [fan_out_spec]; exists p1; auto).
  - exfalso. destruct Hp as (Hg & accountID & req & ->).
    destruct (pool_step_fetch L j accountID req p1 w1 Hg) as (p2 & w2 & _ & _ & Hu2). lia.
  - destruct Hp as (Hg & accountID & req & ->).
    destruct (pool_step_fetch L j accountID req p1 w1 Hg) as (p2 & w2 & E & Hm & Hu2).
    unfold bind at 1. rewrite E.
    assert (Hn2 : (unfetched p2 <= n)%nat) by lia.
    pose proof (IH tick1 p2 w2 Hn2) as Hf.
    assert (Hrun2 : pool_run L p w p2 w2).
    { apply (pool_run_trans L _ _ _ _ _ _ Hrun).
      exact (run_on L _ _ _ _ _ _ Hm (run_here L _ _)). }
    destruct (fan_out L n tick1 p2 w2) as [[tbl|c|e] w3]; cbn [fan_out_spec] in *.
    + destruct Hf as (p' & Hr' & Hf). exists p'.
      split; [exact (pool_run_trans L _ _ _ _ _ _ Hrun2 Hr')|exact Hf].
    + destruct Hf as (-> & p' & Hr' & Hin). split; [reflexivity|]. exists p'.
      split; [exact (pool_run_trans L _ _ _ _ _ _ Hrun2 Hr')|exact Hin].
    + exact Hf.
Qed.

(** A goroutine inside [errHandler] does not come out of it. *)
Lemma doomed_context (gs1 gs2 : list Goroutine) (g : Goroutine) :
  existsb doomed (gs1 ++ g :: gs2) = doomed g || existsb doomed (gs1 ++ gs2).
Proof.
  rewrite !existsb_app. cbn [existsb].
  destruct (existsb doomed gs1), (doomed g); reflexivity.
Qed.

Lemma pool_move_doomed (L : GoLib) (p p' : Pool) (w w' : World) :
  pool_move L p w p' w' ->
  existsb doomed (goroutines p) = true -> existsb doomed (goroutines p') = true.
Proof.
  intros H. destruct H; cbn [goroutines]; rewrite ?doomed_context; cbn [doomed orb];
    auto.
  - rewrite existsb_app. intros ->. reflexivity.
  - intros ->. apply orb_true_r.
Qed.

Lemma pool_run_doomed (L : GoLib) (p p' : Pool) (w w' : World) :
  pool_run L p w p' w' ->
  existsb doomed (goroutines p) = true -> existsb doomed (goroutines p') = true.
Proof.
  induction 1 as [|p w p1 w1 p' w' Hm _ IH]; [auto|].
  intros H. apply IH. exact (pool_move_doomed L _ _ _ _ Hm H).
Qed.

Lemma ready_none (p : Pool) : ready p = O -> launcher p = AtAdd [] /\ goroutines p = [].
Proof.
  unfold ready. destruct p as [[[|id ids]|id ids] [|g gs] tbl];
    cbn [launcher goroutines launching List.length]; intros H; try discriminate; auto.
Qed.

(** ** What a procedure adds to the trace

    The rules of [guarded_by], [settles_by] and [harmless_by] for the
    steps of the program, for event classes [T] and [B] that are
    instantiated below: tables and non-200 answers (C7), goroutines and
    nothing (C8), nothing and nothing (C4). *)

Section Guarded.

Variable L : GoLib.
Variables T B : Event -> bool.
Hypothesis T_plain :
  forall e, is_table e = false -> is_go_or_wait e = false -> T e = false.
Hypothesis B_non200 : forall e, B e = true -> is_non200 e = true.
Hypothesis B_parse : (exists e, B e = true) -> ~ parses L "".

Local Abbreviation guarded := (guarded_by T B).
Local Abbreviation settles := (settles_by T B).
Local Abbreviation harmless := (harmless_by B).


Lemma B_plain e : is_non200 e = false -> B e = false.
Proof.
  intros H. destruct (B e) eqn:E; auto.
  apply B_non200 in E. congruence.
Qed.

Lemma flagged_some (d : list Event) : existsb B d = true -> exists e, B e = true.
Proof.
  intros H. apply existsb_exists in H. destruct H as (e & _ & He). now exists e.
Qed.

(** A step that returns and leaves the trace alone. *)
Lemma guarded_silent {A} (R : A -> Prop) (m : M A) :
  (forall w, exists a w', m w = (Ret a, w') /\ trace w' = trace w) ->
  guarded R m.
Proof.
  intros H w. destruct (H w) as (a & w' & E & Etr).
  exists []. unfold adds. rewrite E. cbn.
  rewrite Etr, app_nil_r. repeat split. discriminate.
Qed.

Lemma guarded_ret {A} (R : A -> Prop) (a : A) : guarded R (ret a).
Proof. apply guarded_silent. intros w. now exists a, w. Qed.

Lemma guarded_bind {A A'} (R : A -> Prop) (R' : A' -> Prop) (m : M A) (k : A -> M A') :
  guarded R m ->
  (forall a, guarded R' (k a)) ->
  ((exists e, B e = true) -> forall a w b, R a -> fst (k a w) = Ret b -> R' b) ->
  guarded R' (bind m k).
Proof.
  intros Hm Hk Hstep w.
  destruct (Hm w) as (d1 & A1 & T1 & O1).
  unfold adds, bind in *.
  destruct (m w) as [[a|c|e] w1] eqn:E; cbn [fst snd] in *.
  - destruct (Hk a w1) as (d2 & A2 & T2 & O2).
    exists (d1 ++ d2)%list. split; [|split].
    + rewrite A2, A1, app_assoc. reflexivity.
    + rewrite existsb_app, T1, T2. reflexivity.
    + destruct (k a w1) as [[b|c|e] w2] eqn:Ek; cbn [fst snd] in *; auto.
      rewrite existsb_app. intros Hb.
      apply orb_true_iff in Hb. destruct Hb as [Hb|Hb]; auto.
      apply (Hstep (flagged_some d1 Hb) a w1 b (O1 Hb)).
      now rewrite Ek.
  - exists d1. auto.
  - contradiction.
Qed.

Lemma guarded_seq {A A'} (R' : A' -> Prop) (m : M A) (k : A -> M A') :
  guarded never m -> (forall a, guarded R' (k a)) -> guarded R' (bind m k).
Proof.
  intros Hm Hk. apply (guarded_bind never); auto.
  intros _ a w b [].
Qed.

Lemma guarded_emit (e : Event) :
  is_table e = false -> is_go_or_wait e = false -> is_non200 e = false ->
  guarded never (emit e).
Proof.
  intros Ht Hg Hb w. exists [e]. unfold adds. cbn.
  rewrite (T_plain e Ht Hg), (B_plain e Hb). repeat split. discriminate.
Qed.

Lemma guarded_time_Now : guarded never time_Now.
Proof.
  intros w. exists [EvNow (clock w (clock_reads w))]. unfold adds. cbn.
  rewrite T_plain, B_plain by reflexivity. repeat split. discriminate.
Qed.

(** A round trip returns; it is the one step that can add a flagged
    event, and then the answer is a response whose status is not 200. *)
Lemma guarded_http_Do (req : Request) :
  guarded (fun res => is_non200 (EvDo req res) = true) (http_Do req).
Proof.
  intros w. exists [EvDo req (remote w (round_trips w) req)]. unfold adds. cbn.
  rewrite T_plain by reflexivity. repeat split.
  rewrite orb_false_r. apply B_non200.
Qed.

Lemma guarded_errHandler (err : option error) : guarded never (errHandler err).
Proof.
  destruct err as [e|].
  - intros w. exists [EvStderr (e ++ newline)]. unfold adds. cbn.
    rewrite T_plain by reflexivity. repeat split.
  - apply guarded_ret.
Qed.

Lemma errHandler_stops {A} (err : option error) (k : unit -> M A) (w : World) (a : A) :
  err <> None -> fst (bind (errHandler err) k w) <> Ret a.
Proof.
  destruct err as [e|]; [|congruence]. intros _. cbn. discriminate.
Qed.

Lemma guarded_APIKeyClient : guarded never APIKeyClient.
Proof.
  apply guarded_silent. intros w. do 2 eexists. split; reflexivity.
Qed.

Lemma guarded_createSignature (r : Request) : guarded never (createSignature r).
Proof.
  unfold createSignature.
  apply guarded_seq; [apply guarded_time_Now|]. intros now.
  apply guarded_silent. intros w. do 2 eexists. split; reflexivity.
Qed.

Lemma guarded_appendHeaders (r : Request) (sig : string) :
  guarded never (appendHeaders r sig).
Proof.
  unfold appendHeaders.
  apply guarded_seq;
    [apply guarded_silent; intros w; do 2 eexists; split; reflexivity|].
  intros key.
  apply guarded_seq; [apply guarded_time_Now|]. intros now.
  apply guarded_ret.
Qed.

(** [createRequest]: after a non-200 answer the error is not nil. *)
Lemma guarded_createRequest (resourcePath : string) :
  guarded (fun r => snd r <> None) (createRequest L resourcePath).
Proof.
  unfold createRequest.
  destruct (http_NewRequest L "GET" (apiEndpointBase ++ resourcePath)) as [req|err].
  2: apply guarded_ret.
  apply guarded_seq; [apply guarded_createSignature|]. intros sig.
  apply guarded_seq; [apply guarded_appendHeaders|]. intros req'.
  eapply guarded_bind; [apply guarded_http_Do| |].
  - intros [resp|err]; [|apply guarded_ret].
    destruct (Body resp) as [body [err|]]; [apply guarded_ret|].
    destruct (negb (StatusCode resp =? 200)); apply guarded_ret.
  - intros _ [resp|err] w b Hbad; cbn in Hbad; [|discriminate].
    destruct (Body resp) as [body [err|]].
    + cbn. intros [= <-]. discriminate.
    + rewrite Hbad. cbn. intros [= <-]. discriminate.
Qed.

Ltac after_errHandler :=
  apply guarded_seq; [apply guarded_errHandler | intros _].

(** The getters that hand the error of the request to their caller. *)
Lemma guarded_GetUserProfile : guarded (fun r => snd r <> None) (GetUserProfile L).
Proof.
  unfold GetUserProfile.
  eapply guarded_bind; [apply guarded_createRequest| |].
  - intros [body [err|]]; [apply guarded_ret|].
    destruct (Unmarshal_User L body) as [user [err|]]; apply guarded_ret.
  - intros _ [body [err|]] w b Herr; [|now elim Herr].
    cbn. intros [= <-]. discriminate.
Qed.

Lemma guarded_GetAccount : guarded (fun r => snd r <> None) (GetAccount L).
Proof.
  unfold GetAccount.
  eapply guarded_bind; [apply guarded_createRequest| |].
  - intros [body [err|]]; [apply guarded_ret|].
    destruct (Unmarshal_Account L body) as [account [err|]]; apply guarded_ret.
  - intros _ [body [err|]] w b Herr; [|now elim Herr].
    cbn. intros [= <-]. discriminate.
Qed.

Lemma guarded_GetTransactionHistory (accountId : string) :
  guarded (fun r => snd r <> None) (GetTransactionHistory L accountId).
Proof.
  unfold GetTransactionHistory.
  eapply guarded_bind; [apply guarded_createRequest| |].
  - intros [body [err|]]; [apply guarded_ret|].
    destruct (Unmarshal_Transaction L body) as [t [err|]]; apply guarded_ret.
  - intros _ [body [err|]] w b Herr; [|now elim Herr].
    cbn. intros [= <-]. discriminate.
Qed.

(** [GetPrice] drops the error: after a non-200 answer it returns the
    zero [Price]. *)
Lemma guarded_GetPrice (currencyPair priceType : string) :
  guarded (fun r => fst r = Price_zero) (GetPrice L currencyPair priceType).
Proof.
  unfold GetPrice.
  eapply guarded_bind; [apply guarded_createRequest| |].
  - intros [body [err|]]; [apply guarded_ret|].
    destruct (Unmarshal_Price L body) as [sp [err|]]; apply guarded_ret.
  - intros _ [body [err|]] w b Herr; [|now elim Herr].
    cbn. intros [= <-]. reflexivity.
Qed.

(** The amount of the zero [Price] is the empty string, which does not
    parse: the caller stops there. *)
Lemma zero_price_stops {A} (err : option error) (k : float -> M A) (w : World) (a : A) :
  ~ parses L "" ->
  fst (bind (errHandler err)
         (fun _ => let (amt, err) := ParseFloat L (price_Amount (Price_Data Price_zero)) in
                   bind (errHandler err) (fun _ => k amt)) w) <> Ret a.
Proof.
  intros Hp. destruct err as [e|]; [apply errHandler_stops; discriminate|].
  cbn [errHandler]. rewrite bind_ret_l.
  cbn [price_Amount Price_Data Price_zero]. unfold parses in Hp.
  destruct (ParseFloat L "") as [amt [e|]]; [|now elim Hp].
  apply errHandler_stops. discriminate.
Qed.

Ltac fetch_price :=
  eapply guarded_bind;
  [ apply guarded_GetPrice
  | intros [? ?]; after_errHandler;
    match goal with
    | |- context [ParseFloat L ?s] => destruct (ParseFloat L s) as [? ?]
    end; after_errHandler
  | let Hex := fresh in let Hz := fresh in let Hr := fresh in
    intros Hex [? ?] ? ? Hz Hr; cbn [fst] in Hz; subst;
    exact (zero_price_stops _ _ _ _ (B_parse Hex) Hr) ].

Lemma guarded_foldM {A S} (body : S -> A -> M S) :
  (forall s a, guarded never (body s a)) ->
  forall l s, guarded never (foldM body l s).
Proof.
  intros Hbody l. induction l as [|a l IH]; intros s; cbn [foldM].
  - apply guarded_ret.
  - apply guarded_seq; auto.
Qed.

Lemma guarded_sumTransaction (acc : float * float) (tr : TransactionEntry) :
  guarded never (sumTransaction L acc tr).
Proof.
  unfold sumTransaction. destruct acc as [invested inflationRewards].
  destruct (ParseFloat L (Amount (tr_NativeAmount tr))) as [trNcAmt err].
  after_errHandler.
  destruct (ParseFloat L (Amount (tr_Amount tr))) as [trAmt err'].
  after_errHandler.
  destruct (String.eqb (tr_Type tr) Buy); [apply guarded_ret|].
  destruct (String.eqb (tr_Type tr) InflationReward); apply guarded_ret.
Qed.

Lemma guarded_overviewHolding (user : User) (act : AccountEntry) (amt : float) :
  guarded never (overviewHolding L user act amt).
Proof.
  unfold overviewHolding.
  fetch_price. fetch_price. fetch_price.
  eapply guarded_bind; [apply guarded_GetTransactionHistory| |].
  - intros [transactions err]. after_errHandler.
    apply guarded_seq; [apply guarded_foldM, guarded_sumTransaction|].
    intros [invested inflationRewards]. apply guarded_ret.
  - intros _ [transactions err] w b Herr Hr.
    exact (errHandler_stops _ _ _ _ Herr Hr).
Qed.

Lemma guarded_overviewAccount (user : User) (st : Table * float * float)
      (act : AccountEntry) :
  guarded never (overviewAccount L user st act).
Proof.
  unfold overviewAccount. destruct st as [[tbl tso] tr].
  destruct (ParseFloat L (Amount (acct_Balance act))) as [amt err].
  after_errHandler.
  destruct (0 <? amt)%float; [|apply guarded_ret].
  apply guarded_seq; [apply guarded_overviewHolding|].
  intros h. apply guarded_ret.
Qed.

Lemma guarded_accountsRow (user : User) (tbl : Table) (a : AccountEntry) :
  guarded never (accountsRow L user tbl a).
Proof.
  unfold accountsRow.
  destruct (ParseFloat L (Amount (acct_Balance a))) as [amt err].
  after_errHandler.
  destruct (0 <? amt)%float; [|apply guarded_ret].
  fetch_price. apply guarded_ret.
Qed.

Lemma settles_bind {A A'} (R : A -> Prop) (m : M A) (k : A -> M A') :
  guarded R m ->
  (forall a, settles (k a)) ->
  ((exists e, B e = true) -> forall a w b, R a -> fst (k a w) <> Ret b) ->
  settles (bind m k).
Proof.
  intros Hm Hk Hstop w.
  destruct (Hm w) as (d1 & A1 & T1 & O1).
  unfold adds, bind in *.
  destruct (m w) as [[a|c|e] w1] eqn:E; cbn [fst snd] in *.
  - destruct (Hk a w1) as (d2 & A2 & O2).
    exists (d1 ++ d2)%list. split.
    + rewrite A2, A1, app_assoc. reflexivity.
    + pose proof (Hstop) as Hs.
      destruct (k a w1) as [[b|c|e] w2] eqn:Ek; cbn [fst snd] in *; auto.
      * rewrite existsb_app, O2, orb_false_r.
        destruct (existsb B d1) eqn:Hb; auto.
        elim (Hs (flagged_some d1 Hb) a w1 b (O1 eq_refl)).
        now rewrite Ek.
      * destruct O2 as [-> O2]. split; auto.
        rewrite existsb_app, T1, O2. reflexivity.
  - exists d1. auto.
  - contradiction.
Qed.

Lemma settles_seq {A A'} (m : M A) (k : A -> M A') :
  guarded never m -> (forall a, settles (k a)) -> settles (bind m k).
Proof.
  intros Hm Hk. apply (settles_bind never); auto.
Qed.


Lemma settles_harmless {A} (m : M A) : harmless m -> settles m.
Proof.
  intros H w. destruct (H w) as (d & a & Ha & Hr & Hb).
  exists d. split; auto. now rewrite Hr.
Qed.

Lemma settles_then {A A'} (m : M A) (k : A -> M A') :
  settles m -> (forall a, harmless (k a)) -> settles (bind m k).
Proof.
  intros Hm Hk w.
  destruct (Hm w) as (d1 & A1 & O1).
  unfold adds, bind in *.
  destruct (m w) as [[a|c|e] w1] eqn:E; cbn [fst snd] in *.
  - destruct (Hk a w1) as (d2 & b & A2 & Hr & Hb).
    exists (d1 ++ d2)%list. unfold adds in A2. split.
    + rewrite A2, A1, app_assoc. reflexivity.
    + rewrite Hr, existsb_app, O1, Hb. reflexivity.
  - exists d1. auto.
  - contradiction.
Qed.

Lemma harmless_ret {A} (a : A) : harmless (ret a).
Proof. intros w. exists [], a. unfold adds. cbn. now rewrite app_nil_r. Qed.

Lemma harmless_bind {A A'} (m : M A) (k : A -> M A') :
  harmless m -> (forall a, harmless (k a)) -> harmless (bind m k).
Proof.
  intros Hm Hk w.
  destruct (Hm w) as (d1 & a & A1 & R1 & B1).
  unfold adds, bind in *.
  destruct (m w) as [o w1] eqn:E; cbn [fst snd] in *. subst o.
  destruct (Hk a w1) as (d2 & b & A2 & R2 & B2).
  exists (d1 ++ d2)%list, b. unfold adds in A2. repeat split; auto.
  - rewrite A2, A1, app_assoc. reflexivity.
  - rewrite existsb_app, B1, B2. reflexivity.
Qed.

Lemma harmless_emit (e : Event) : is_non200 e = false -> harmless (emit e).
Proof.
  intros Hb w. exists [e], tt. unfold adds. cbn.
  rewrite (B_plain e Hb). repeat split.
Qed.

Lemma harmless_time_Now : harmless time_Now.
Proof.
  intros w. exists [EvNow (clock w (clock_reads w))], (clock w (clock_reads w)).
  unfold adds. cbn. rewrite B_plain by reflexivity. repeat split.
Qed.

(** *** The three modes *)

Lemma settles_getCoinbaseOverview : settles (getCoinbaseOverview L).
Proof.
  unfold getCoinbaseOverview.
  apply settles_seq; [apply guarded_APIKeyClient | intros _].
  eapply settles_bind; [apply guarded_GetUserProfile | |].
  2:{ intros _ [user err] w b Herr. apply errHandler_stops. exact Herr. }
  intros [user err].
  apply settles_seq; [apply guarded_errHandler | intros _].
  apply settles_seq; [apply guarded_emit; reflexivity | intros _].
  eapply settles_bind; [apply guarded_GetAccount | |].
  2:{ intros _ [account err'] w b Herr. apply errHandler_stops. exact Herr. }
  intros [account err'].
  apply settles_seq; [apply guarded_errHandler | intros _].
  apply settles_seq; [apply guarded_foldM; intros; apply guarded_overviewAccount|].
  intros [[tbl tso] tr].
  apply settles_harmless.
  repeat (apply harmless_bind; [apply harmless_emit; reflexivity | intros _]).
  apply harmless_emit; reflexivity.
Qed.

Lemma settles_getCoinbaseAccounts : settles (getCoinbaseAccounts L).
Proof.
  unfold getCoinbaseAccounts.
  apply settles_seq; [apply guarded_APIKeyClient | intros _].
  eapply settles_bind; [apply guarded_GetUserProfile | |].
  2:{ intros _ [user err] w b Herr. apply errHandler_stops. exact Herr. }
  intros [user err].
  apply settles_seq; [apply guarded_errHandler | intros _].
  eapply settles_bind; [apply guarded_GetAccount | |].
  2:{ intros _ [acts err'] w b Herr. apply errHandler_stops. exact Herr. }
  intros [acts err'].
  apply settles_seq; [apply guarded_errHandler | intros _].
  apply settles_seq; [apply guarded_emit; reflexivity | intros _].
  apply settles_seq; [apply guarded_foldM; intros; apply guarded_accountsRow|].
  intros tbl.
  apply settles_harmless, harmless_emit; reflexivity.
Qed.

Hypothesis T_go : forall arg, T (EvGo arg) = false.
Hypothesis T_wait : T EvWgWait = false.

Lemma guarded_unflagged (e : Event) :
  is_non200 e = false -> T e = false -> guarded never (emit e).
Proof.
  intros Hb Ht w. exists [e]. unfold adds. cbn.
  rewrite Ht, (B_plain e Hb). repeat split. discriminate.
Qed.

(** Every move of the pool is guarded: the one step that can add a
    flagged event is a request, and after a non-200 answer the goroutine
    that made it is inside [errHandler]. *)
Lemma pool_move_guarded (p p1 : Pool) (w w1 : World) :
  pool_move L p w p1 w1 ->
  exists d,
    trace w1 = (trace w ++ d)%list
    /\ existsb T d = false
    /\ (existsb B d = true -> existsb doomed (goroutines p1) = true).
Proof.
  intros H. destruct H.
  - exists [EvWgAdd 1]. cbn [emit snd trace existsb].
    rewrite T_plain, B_plain by reflexivity. repeat split. discriminate.
  - exists [EvGo id]. cbn [emit snd trace existsb].
    rewrite T_go, B_plain by reflexivity. repeat split. discriminate.
  - exists []. rewrite app_nil_r. repeat split. discriminate.
  - exists [EvNow (clock w (clock_reads w))]. cbn [time_Now snd trace existsb].
    rewrite T_plain, B_plain by reflexivity. repeat split. discriminate.
  - exists [EvNow (clock w (clock_reads w))]. cbn [time_Now snd trace existsb].
    rewrite T_plain, B_plain by reflexivity. repeat split. discriminate.
  - exists [EvDo req (remote w (round_trips w) req)]. cbn [http_Do snd trace existsb].
    rewrite T_plain by reflexivity. repeat split.
    rewrite orb_false_r. intros Hb. apply B_non200 in Hb.
    cbn [goroutines]. rewrite doomed_context. unfold answered, answer.
    cbn [is_non200] in Hb.
    destruct (remote w (round_trips w) req) as [resp|err]; [|reflexivity].
    destruct (Body resp) as [body [err|]]; [reflexivity|]. now rewrite Hb.
  - exists []. rewrite app_nil_r. repeat split. discriminate.
  - exists []. rewrite app_nil_r. repeat split. discriminate.
  - exists [EvWgDone]. cbn [emit snd trace existsb].
    rewrite T_plain, B_plain by reflexivity. repeat split. discriminate.
  - exists [EvStderr (e ++ newline)]. cbn [emit snd trace existsb].
    rewrite T_plain, B_plain by reflexivity. repeat split. discriminate.
Qed.

Lemma pool_run_guarded (p p' : Pool) (w w' : World) :
  pool_run L p w p' w' ->
  exists d,
    trace w' = (trace w ++ d)%list
    /\ existsb T d = false
    /\ (existsb B d = true -> existsb doomed (goroutines p') = true).
Proof.
  induction 1 as [p w|p w p1 w1 p' w' Hm Hrun (d2 & A2 & T2 & O2)].
  - exists []. rewrite app_nil_r. repeat split. discriminate.
  - destruct (pool_move_guarded _ _ _ _ Hm) as (d1 & A1 & T1 & O1).
    exists (d1 ++ d2)%list. rewrite A2, A1, app_assoc, !existsb_app, T1, T2.
    repeat split. intros Hb. apply orb_true_iff in Hb. destruct Hb as [Hb|Hb]; auto.
    exact (pool_run_doomed L _ _ _ _ Hrun (O1 Hb)).
Qed.

(** The fan-out, whatever the interleaving: it returns only if no
    request was answered with a status other than 200. *)
Lemma guarded_fan_out (n tick : nat) (p : Pool) :
  (unfetched p <= n)%nat -> guarded never (fan_out L n tick p).
Proof.
  intros Hn w. pose proof (fan_out_sound L n tick p w Hn) as Hs.
  unfold adds. destruct (fan_out L n tick p w) as [[tbl|c|e] w']; cbn [fan_out_spec] in Hs;
    cbn [fst snd].
  - destruct Hs as (p' & Hrun & Hr & _).
    destruct (pool_run_guarded _ _ _ _ Hrun) as (d & Ha & Ht & Ho).
    exists d. split; [exact Ha|]. split; [exact Ht|]. intros Hb.
    apply Ho in Hb. destruct (ready_none p' Hr) as [_ Hg]. rewrite Hg in Hb.
    discriminate.
  - destruct Hs as (-> & p1 & Hrun & _).
    destruct (pool_run_guarded _ _ _ _ Hrun) as (d & Ha & Ht & _).
    exists d. auto.
  - contradiction.
Qed.

Lemma settles_getCoinbaseTransactions : settles (getCoinbaseTransactions L).
Proof.
  unfold getCoinbaseTransactions.
  apply settles_seq; [apply guarded_APIKeyClient | intros _].
  eapply settles_bind; [apply guarded_GetAccount | |].
  2:{ intros _ [accounts err'] w b Herr. apply errHandler_stops. exact Herr. }
  intros [accounts err].
  apply settles_seq; [apply guarded_errHandler | intros _].
  cbv zeta.
  apply settles_seq.
  { apply guarded_fan_out. unfold unfetched, fetch_ids.
    cbn [launcher goroutines pending flat_map List.length]. lia. }
  intros tbl.
  apply settles_seq; [apply guarded_unflagged; auto | intros _].
  apply settles_harmless, harmless_emit; reflexivity.
Qed.

(** *** The command, with at most one flag set *)

Lemma harmless_footer (start : Time) :
  harmless (fmt_Println "" ;;
            now <- time_Now ;;
            fmt_Println ("Elapsed Run Time: " ++ Duration_String L (now - start))).
Proof.
  apply harmless_bind; [apply harmless_emit; reflexivity | intros _].
  apply harmless_bind; [apply harmless_time_Now | intros now].
  apply harmless_emit; reflexivity.
Qed.

Lemma settles_coinbaseCmd_Run (listTransactions listAccounts : bool) :
  listTransactions && listAccounts = false ->
  settles (coinbaseCmd_Run L listTransactions listAccounts).
Proof.
  intros Hflags. unfold coinbaseCmd_Run, dispatch.
  apply settles_seq; [apply guarded_time_Now | intros start].
  destruct listTransactions, listAccounts; try discriminate; cbn [negb andb].
  - apply settles_then; [apply settles_getCoinbaseTransactions | intros _].
    repeat (apply harmless_bind; [apply harmless_ret | intros _]).
    apply harmless_footer.
  - apply settles_seq; [apply guarded_ret | intros _].
    apply settles_then; [apply settles_getCoinbaseAccounts | intros _].
    apply harmless_bind; [apply harmless_ret | intros _].
    apply harmless_footer.
  - do 2 (apply settles_seq; [apply guarded_ret | intros _]).
    apply settles_then; [apply settles_getCoinbaseOverview | intros _].
    apply harmless_footer.
Qed.

Lemma settles_aborts (m : M unit) (w : World) :
  settles m ->
  exists d,
    adds m w d
    /\ (existsb B d = true -> fst (m w) = Exit 1 /\ existsb T d = false).
Proof.
  intros Hm. destruct (Hm w) as (d & Ha & Ho).
  exists d. split; [exact Ha|]. intros Hb.
  destruct (fst (m w)) as [a|c|e].
  - congruence.
  - destruct Ho as [-> Ho]. auto.
  - contradiction.
Qed.

(** Accounts mode as a whole, for a [T] that does not flag tables. *)
Lemma guarded_getCoinbaseAccounts :
  (forall t, T (EvPrintTable t) = false) ->
  guarded never (getCoinbaseAccounts L).
Proof.
  intros T_table. unfold getCoinbaseAccounts.
  apply guarded_seq; [apply guarded_APIKeyClient | intros _].
  eapply guarded_bind; [apply guarded_GetUserProfile | |].
  2:{ intros _ [user err] w b Herr Hr. exact (errHandler_stops _ _ _ _ Herr Hr). }
  intros [user err].
  apply guarded_seq; [apply guarded_errHandler | intros _].
  eapply guarded_bind; [apply guarded_GetAccount | |].
  2:{ intros _ [acts err'] w b Herr Hr. exact (errHandler_stops _ _ _ _ Herr Hr). }
  intros [acts err'].
  apply guarded_seq; [apply guarded_errHandler | intros _].
  apply guarded_seq; [apply guarded_emit; reflexivity | intros _].
  apply guarded_seq; [apply guarded_foldM; intros; apply guarded_accountsRow|].
  intros tbl. apply guarded_unflagged; auto.
Qed.

End Guarded.

(** ** The gateway, step by step *)

(** [createRequest] reads the clock twice and makes one round trip: the
    first reading is signed, the second goes into the timestamp header. *)
Lemma createRequest_run (L : GoLib) (resourcePath : string) (w : World) (req0 : Request) :
  http_NewRequest L "GET" (apiEndpointBase ++ resourcePath) = inl req0 ->
  let t0 := clock w (clock_reads w) in
  let t1 := clock w (S (clock_reads w)) in
  let req := with_auth req0 (cbAPIKey w)
               (spec_signature (cbAPISecret w) (Method req0) (Path (Url req0)) (Unix t0))
               (Sprint_int (Unix t1)) in
  let res := remote w (round_trips w) req in
  fst (createRequest L resourcePath w) = Ret (answer res)
  /\ adds (createRequest L resourcePath) w [EvNow t0; EvNow t1; EvDo req res].
Proof.
  intros Hreq t0 t1 req res. unfold createRequest. rewrite Hreq.
  unfold adds, bind, createSignature, appendHeaders, bind, ret,
    time_Now, get_cbAPISecret, get_cbAPIKey, http_Do.
  cbn [fst snd trace clock clock_reads remote round_trips cbAPIKey cbAPISecret].
  fold t0 t1. 
  change (hex_EncodeToString _) with
    (spec_signature (cbAPISecret w) (Method req0) (Path (Url req0)) (Unix t0)).
  fold (with_auth req0 (cbAPIKey w)
          (spec_signature (cbAPISecret w) (Method req0) (Path (Url req0)) (Unix t0))
          (Sprint_int (Unix t1))).
  fold req. fold res.
  split.
  - unfold answer. destruct res as [resp|err]; [|reflexivity].
    destruct (Body resp) as [body [err|]]; [reflexivity|].
    destruct (negb (StatusCode resp =? 200)); reflexivity.
  - destruct res as [resp|err].
    + destruct (Body resp) as [body [err|]];
        [|destruct (negb (StatusCode resp =? 200))];
        cbn [snd trace]; rewrite <- !app_assoc; reflexivity.
    + cbn [snd trace]. rewrite <- !app_assoc. reflexivity.
Qed.

Lemma createRequest_unsent (L : GoLib) (resourcePath : string) (w : World) (err : error) :
  http_NewRequest L "GET" (apiEndpointBase ++ resourcePath) = inr err ->
  createRequest L resourcePath w = (Ret ("", Some err), w).
Proof. intros Hreq. unfold createRequest. now rewrite Hreq. Qed.

(** ** C1: the timestamp that is signed and the timestamp that is sent *)

(** The signature covers the first reading of the clock, the timestamp
    header carries the second. *)
Lemma createRequest_two_readings (L : GoLib) (resourcePath : string) (w : World)
      (req0 : Request) :
  http_NewRequest L "GET" (apiEndpointBase ++ resourcePath) = inl req0 ->
  exists req res,
    adds (createRequest L resourcePath) w
      [EvNow (clock w (clock_reads w)); EvNow (clock w (S (clock_reads w))); EvDo req res]
    /\ Header_Get (Header req) "CB-ACCESS-SIGN"
       = spec_signature (cbAPISecret w) "GET" (Path (Url req0))
           (Unix (clock w (clock_reads w)))
    /\ Header_Get (Header req) "CB-ACCESS-TIMESTAMP"
       = Sprint_int (Unix (clock w (S (clock_reads w)))).
Proof.
  intros Hreq. destruct (createRequest_run L resourcePath w req0 Hreq) as [_ Hadds].
  unfold http_NewRequest in Hreq.
  destruct (url_Parse L (apiEndpointBase ++ resourcePath)) as [u|e]; [|discriminate].
  injection Hreq as <-.
  eexists. eexists. split; [exact Hadds|]. split; reflexivity.
Qed.

(** C1, at a request made across a second boundary.  The profile
    request of a client whose clock reads 1699999999.9999 s and then
    1700000000.0001 s is sent with the timestamp header "1700000000" and
    a signature computed over "1699999999"; the signature that matches
    the header is a different one. *)
Theorem timestamp_signed_is_not_timestamp_sent :
  trace (snd ((APIKeyClient ;; createRequest Fixture.lib "user") Fixture.w_ticking))
  = [ EvNow 1699999999999900000;
      EvNow 1700000000000100000;
      EvDo (with_auth Fixture.profile_request "key-1"
              (spec_signature "secret-1" "GET" "/v2/user" 1699999999)
              "1700000000")
           (Fixture.ok Fixture.user_json) ]
  /\ spec_signature "secret-1" "GET" "/v2/user" 1699999999
     <> spec_signature "secret-1" "GET" "/v2/user" 1700000000.
Proof.
  split.
  - vm_compute. reflexivity.
  - apply String.eqb_neq. vm_compute. reflexivity.
Qed.

(** ** C2: errors that the getters drop *)

(** [GetPrice] never returns an error, whatever happened. *)
Lemma GetPrice_error_is_nil (L : GoLib) (currencyPair priceType : string) (w : World)
      (p : Price) (err : option error) (w' : World) :
  GetPrice L currencyPair priceType w = (Ret (p, err), w') -> err = None.
Proof.
  unfold GetPrice, bind.
  destruct (createRequest L _ w) as [[[body [e|]]|c|e] w1]; try discriminate.
  - intros [= <- <- <-]. reflexivity.
  - destruct (Unmarshal_Price L body) as [sp [e|]]; intros [= <- <- <-]; reflexivity.
Qed.

(** [GetPriceByDate], the sibling of [GetPrice], hands the error of the
    request to its caller. *)
Lemma GetPriceByDate_propagates (L : GoLib) (currencyPair : string) (year : Time)
      (w w' : World) (e : error) :
  createRequest L ("prices/" ++ currencyPair ++ "/spot?date="
                   ++ time_Format L year "2006-01-02") w = (Ret ("", Some e), w') ->
  GetPriceByDate L currencyPair year w = (Ret (Price_zero, Some e), w').
Proof.
  intros H. unfold GetPriceByDate. now rewrite (bind_Ret _ _ _ _ _ H).
Qed.

(** [GetTransactionHistory] hands on the error of the request, and
    replaces the error of the decoder by nil. *)
Lemma GetTransactionHistory_drops_decode_error (L : GoLib) (accountId : string)
      (w w' : World) (body : string) :
  createRequest L ("accounts/" ++ accountId ++ "/transactions") w = (Ret (body, None), w') ->
  snd (Unmarshal_Transaction L body) <> None ->
  GetTransactionHistory L accountId w = (Ret (Transaction_zero, None), w').
Proof.
  intros Hreq Hdec. unfold GetTransactionHistory.
  rewrite (bind_Ret _ _ _ _ _ Hreq).
  destruct (Unmarshal_Transaction L body) as [t [e|]]; [reflexivity|].
  now elim Hdec.
Qed.

(** C2, at two failures.  With the spot quote answered by 404 Not Found,
    [GetPrice] returns the zero [Price] and a nil error, where
    [GetPriceByDate] returns the error of the gateway; with the
    transaction history answered by a page that is not JSON,
    [GetTransactionHistory] returns the zero [Transaction] and a nil
    error, and Overview mode then completes and reports 0.00 invested. *)
Theorem getters_drop_errors :
  fst (GetPrice Fixture.lib "BTC-USD" Spot Fixture.w_spot_missing)
  = Ret (Price_zero, None)
  /\ fst (GetPriceByDate Fixture.lib "BTC-USD" 0 Fixture.w_spot_missing)
     = Ret (Price_zero,
            Some (bad_status_error "404 Not Found"
                    (Fixture.jq "{'errors':[{'id':'not_found','message':'Not found'}]}")))
  /\ snd (Unmarshal_Transaction Fixture.lib "<html>Service Unavailable</html>")
     = Some Fixture.json_error
  /\ fst (GetTransactionHistory Fixture.lib "a-btc" Fixture.w_history_garbled)
     = Ret (Transaction_zero, None)
  /\ fst (getCoinbaseOverview Fixture.lib Fixture.w_history_garbled) = Ret tt
  /\ filter is_table (trace (snd (getCoinbaseOverview Fixture.lib Fixture.w_history_garbled)))
     = [ EvPrintTable
           {| header := overviewHeader;
              rows := [[CString "BTC Wallet"; CString "1.000000"; CString "BTC";
                        CString "30000.00 USD"; CString "30100.00 USD";
                        CString "29900.00 USD"; CString "29900.00 USD";
                        CString "0.00 USD"; CString "0.000000 BTC";
                        CString "29900.00 USD"]] |} ].
Proof.
  repeat split; vm_compute; reflexivity.
Qed.

(** ** C8: Accounts mode runs in the calling goroutine *)

(** C8, for every library and world: Accounts mode launches no goroutine
    and never waits on its wait group; all it adds to the trace comes
    from the calling goroutine. *)
Theorem accounts_mode_launches_no_goroutine (L : GoLib) (w : World) :
  exists d, adds (getCoinbaseAccounts L) w d /\ existsb is_go_or_wait d = false.
Proof.
  destruct (guarded_getCoinbaseAccounts L is_go_or_wait (fun _ => false)) with (w := w)
    as (d & Ha & Ht & _).
  - intros e _ H. exact H.
  - discriminate.
  - intros [e He]. discriminate.
  - reflexivity.
  - exists d. auto.
Qed.

(** On the scenario of the specification: Transactions mode launches one
    goroutine per account and waits; Accounts mode sets the counter of
    its wait group to the number of accounts and does neither. *)
Example fan_out_on_two_accounts :
  filter (fun e => is_go_or_wait e || match e with EvWgAdd _ => true | _ => false end)
         (trace (snd (getCoinbaseTransactions Fixture.lib Fixture.w_healthy)))
  = [EvWgAdd 1; EvGo "a-btc"; EvWgAdd 1; EvGo "a-eth"; EvWgWait]
  /\ filter (fun e => is_go_or_wait e || match e with EvWgAdd _ => true | _ => false end)
         (trace (snd (getCoinbaseAccounts Fixture.lib Fixture.w_healthy)))
  = [EvWgAdd 2].
Proof. split; vm_compute; reflexivity. Qed.

(** ** C7: answers other than 200 *)

Lemma createRequest_bad_status (L : GoLib) (resourcePath : string) (w : World)
      (d : list Event) (req : Request) (resp : Response) (body : string) :
  adds (createRequest L resourcePath) w d ->
  In (EvDo req (inl resp)) d ->
  Body resp = (body, None) ->
  StatusCode resp <> 200 ->
  fst (createRequest L resourcePath w)
  = Ret ("", Some (bad_status_error (Status resp) body)).
Proof.
  intros Hadds Hin Hbody Hstatus.
  destruct (http_NewRequest L "GET" (apiEndpointBase ++ resourcePath))
    as [req0|err] eqn:Hreq.
  - destruct (createRequest_run L resourcePath w req0 Hreq) as [Hret Hadds'].
    unfold adds in *. rewrite Hadds in Hadds'. apply app_inv_head in Hadds'.
    subst d. cbn [In] in Hin.
    destruct Hin as [Hin|[Hin|[Hin|[]]]]; try discriminate.
    injection Hin as _ Hres. rewrite Hret, Hres. unfold answer. rewrite Hbody.
    apply Z.eqb_neq in Hstatus. rewrite Hstatus. reflexivity.
  - unfold adds in Hadds. rewrite (createRequest_unsent L _ w err Hreq) in Hadds.
    cbn [snd] in Hadds. rewrite <- (app_nil_r (trace w)) in Hadds at 1.
    apply app_inv_head in Hadds. subst d. destruct Hin.
Qed.

Section Non200.

Variable L : GoLib.
Hypothesis empty_rejected : ~ parses L "".

Let table_plain :
  forall e, is_table e = false -> is_go_or_wait e = false -> is_table e = false :=
  fun e H _ => H.
Let non200_sub : forall e, is_non200 e = true -> is_non200 e = true := fun e H => H.
Let non200_parse : (exists e, is_non200 e = true) -> ~ parses L "" :=
  fun _ => empty_rejected.

Lemma overview_aborts : aborts_before_rows (getCoinbaseOverview L).
Proof.
  intros w. apply settles_aborts.
  now apply (settles_getCoinbaseOverview L is_table is_non200).
Qed.

Lemma accounts_aborts : aborts_before_rows (getCoinbaseAccounts L).
Proof.
  intros w. apply settles_aborts.
  now apply (settles_getCoinbaseAccounts L is_table is_non200).
Qed.

Lemma transactions_aborts : aborts_before_rows (getCoinbaseTransactions L).
Proof.
  intros w. apply settles_aborts.
  now apply (settles_getCoinbaseTransactions L is_table is_non200).
Qed.

Lemma one_mode_run_aborts (listTransactions listAccounts : bool) :
  listTransactions && listAccounts = false ->
  aborts_before_rows (coinbaseCmd_Run L listTransactions listAccounts).
Proof.
  intros Hflags w. apply settles_aborts.
  now apply (settles_coinbaseCmd_Run L is_table is_non200).
Qed.

End Non200.

(** C7, as the code has it.  When the transport succeeds, the body is
    read and the status is not 200, the gateway returns no body bytes and
    an error that carries the status line and the body.  Provided the
    empty string is not a number for [strconv.ParseFloat], a non-200
    answer to any request of a mode stops the process with status 1
    before that mode prints its table; so does it in a run of the
    command with at most one flag set, which then prints no table at
    all. *)
Theorem non200_stops_the_mode (L : GoLib) :
  (forall resourcePath w d req resp body,
      adds (createRequest L resourcePath) w d ->
      In (EvDo req (inl resp)) d ->
      Body resp = (body, None) ->
      StatusCode resp <> 200 ->
      fst (createRequest L resourcePath w)
      = Ret ("", Some (bad_status_error (Status resp) body)))
  /\ (~ parses L "" ->
      aborts_before_rows (getCoinbaseOverview L)
      /\ aborts_before_rows (getCoinbaseTransactions L)
      /\ aborts_before_rows (getCoinbaseAccounts L)
      /\ forall listTransactions listAccounts,
           listTransactions && listAccounts = false ->
           aborts_before_rows (coinbaseCmd_Run L listTransactions listAccounts)).
Proof.
  split.
  - apply createRequest_bad_status.
  - intros Hempty. split; [|split; [|split]].
    + now apply overview_aborts.
    + now apply transactions_aborts.
    + now apply accounts_aborts.
    + intros lt la Hflags. now apply one_mode_run_aborts.
Qed.

Lemma non200_stops_the_mode_witness :
  fst (coinbaseCmd_Run Fixture.lib false false Fixture.w_spot_missing) = Exit 1
  /\ existsb is_table
       (trace (snd (coinbaseCmd_Run Fixture.lib false false Fixture.w_spot_missing)))
     = false.
Proof.
  destruct (non200_stops_the_mode Fixture.lib) as [_ H].
  destruct H as (_ & _ & _ & H).
  - vm_compute. discriminate.
  - destruct (H false false eq_refl Fixture.w_spot_missing) as (d & Hadds & Hd).
    unfold adds in Hadds. change (trace Fixture.w_spot_missing) with (@nil Event) in Hadds.
    cbn [app] in Hadds. rewrite Hadds. apply Hd. rewrite <- Hadds.
    vm_compute. reflexivity.
Defined.

(** C7 as stated fails when both flags are set: with the profile
    endpoint answering 500, Transactions mode (which does not ask for the
    profile) prints its table, and Accounts mode then stops the process
    on the 500.  The run ends with status 1 after a table with one row
    was printed. *)
Lemma both_flags_rows_before_abort :
  ~ parses Fixture.lib ""
  /\ fst (coinbaseCmd_Run Fixture.lib true true Fixture.w_user_down) = Exit 1
  /\ existsb is_non200
       (trace (snd (coinbaseCmd_Run Fixture.lib true true Fixture.w_user_down))) = true
  /\ existsb (fun e => match e with
                       | EvPrintTable t => (1 <=? List.length (rows t))%nat
                       | _ => false
                       end)
       (trace (snd (coinbaseCmd_Run Fixture.lib true true Fixture.w_user_down))) = true
  /\ ~ aborts_before_rows (coinbaseCmd_Run Fixture.lib true true).
Proof.
  assert (Hbad : existsb is_non200
                   (trace (snd (coinbaseCmd_Run Fixture.lib true true
                                  Fixture.w_user_down))) = true)
    by (vm_compute; reflexivity).
  assert (Htable : existsb is_table
                     (trace (snd (coinbaseCmd_Run Fixture.lib true true
                                    Fixture.w_user_down))) = true)
    by (vm_compute; reflexivity).
  split; [vm_compute; discriminate|].
  split; [vm_compute; reflexivity|].
  split; [exact Hbad|].
  split; [vm_compute; reflexivity|].
  intros H. destruct (H Fixture.w_user_down) as (d & Hadds & Hd).
  unfold adds in Hadds. change (trace Fixture.w_user_down) with (@nil Event) in Hadds.
  cbn [app] in Hadds. rewrite <- Hadds in Hd.
  destruct (Hd Hbad) as [_ Hno]. rewrite Htable in Hno. discriminate.
Qed.

(** ** C4: the figures of Overview mode *)

Lemma bind_inv {A A'} (m : M A) (k : A -> M A') (w w' : World) (b : A') :
  bind m k w = (Ret b, w') ->
  exists a w1, m w = (Ret a, w1) /\ k a w1 = (Ret b, w').
Proof.
  unfold bind. destruct (m w) as [[a|c|e] w1]; try discriminate.
  intros H. now exists a, w1.
Qed.

Lemma errHandler_inv (err : option error) (w w' : World) (u : unit) :
  errHandler err w = (Ret u, w') -> err = None /\ w' = w.
Proof.
  destruct err as [e|]; cbn.
  - discriminate.
  - intros [= _ <-]. auto.
Qed.

Tactic Notation "run_step" hyp(H) "as" simple_intropattern(a) ident(w) ident(E) :=
  apply bind_inv in H; destruct H as (a & w & E & H); cbv beta iota in H.

Tactic Notation "run_errHandler" hyp(H) :=
  let w := fresh "w" in
  let E := fresh "E" in
  apply bind_inv in H; destruct H as ([] & w & E & H); cbv beta iota in H;
  apply errHandler_inv in E; destruct E as [-> ->].

(** The transaction loop, read backwards: when it returns, every amount
    parsed and the results are the two sums. *)
Lemma sumTransaction_inv (L : GoLib) (invested inflationRewards : float)
      (t : TransactionEntry) (w w' : World) (acc : float * float) :
  sumTransaction L (invested, inflationRewards) t w = (Ret acc, w') ->
  w' = w
  /\ acc = (if is_buy t then (invested + native_amount L t)%float else invested,
            if is_inflation_reward t then (inflationRewards + asset_amount L t)%float
            else inflationRewards).
Proof.
  unfold sumTransaction, native_amount, asset_amount, value_of, is_buy, is_inflation_reward.
  destruct (ParseFloat L (Amount (tr_NativeAmount t))) as [trNcAmt err1].
  destruct (ParseFloat L (Amount (tr_Amount t))) as [trAmt err2].
  cbn [fst]. intros H.
  run_errHandler H. run_errHandler H.
  destruct (String.eqb (tr_Type t) Buy) eqn:Eb.
  - apply String.eqb_eq in Eb. rewrite Eb. cbn. now injection H as <- <-.
  - destruct (String.eqb (tr_Type t) InflationReward); now injection H as <- <-.
Qed.

Lemma sumTransactions_inv (L : GoLib) (txs : list TransactionEntry) :
  forall (invested inflationRewards : float) (w w' : World) (acc : float * float),
    foldM (sumTransaction L) txs (invested, inflationRewards) w = (Ret acc, w') ->
    w' = w
    /\ acc = (fold_left PrimFloat.add (map (native_amount L) (filter is_buy txs)) invested,
              fold_left PrimFloat.add
                (map (asset_amount L) (filter is_inflation_reward txs)) inflationRewards).
Proof.
  induction txs as [|t txs IH]; intros invested inflationRewards w w' acc H.
  - now injection H as <- <-.
  - cbn [foldM] in H. run_step H as [i r] w1 E.
    apply sumTransaction_inv in E. destruct E as [-> [= -> ->]].
    apply IH in H. destruct H as [-> ->]. split; [reflexivity|].
    cbn [filter]. destruct (is_buy t), (is_inflation_reward t); reflexivity.
Qed.

(** The world a procedure leaves when it returns. *)
Lemma left_world {A} (m : M A) (w w' : World) (a : A) :
  m w = (Ret a, w') -> w' = snd (m w).
Proof. intros H. now rewrite H. Qed.

Lemma overviewHolding_priced (L : GoLib) (user : User) (act : AccountEntry)
      (w w' : World) (h : Holding) :
  overviewHolding L user act (balance L act) w = (Ret h, w') ->
  priced_at L user act w h w'.
Proof.
  unfold overviewHolding, priced_at. intros H.
  run_step H as [spotPrice err] w1 E1. run_errHandler H.
  destruct (ParseFloat L (price_Amount (Price_Data spotPrice))) as [spotAmt err1] eqn:Espot.
  run_errHandler H.
  run_step H as [buyPrice err2] w4 E4. run_errHandler H.
  destruct (ParseFloat L (price_Amount (Price_Data buyPrice))) as [bpAmt err3] eqn:Ebuy.
  run_errHandler H.
  run_step H as [sellPrice err4] w7 E7. run_errHandler H.
  destruct (ParseFloat L (price_Amount (Price_Data sellPrice))) as [sellAmt err5] eqn:Esell.
  run_errHandler H.
  run_step H as [transactions err6] w10 E10. run_errHandler H.
  run_step H as [invested inflationRewards] w12 E12.
  apply sumTransactions_inv in E12. destruct E12 as [-> [= -> ->]].
  injection H as <- <-.
  cbn [h_amt h_spotPrice h_spotAmt h_buyPrice h_bpAmt h_sellPrice h_sellAmt h_invested
       h_inflationRewards h_sellOutAmount h_returnAmount].
  exists transactions, w1, w4, w7. unfold value_of. rewrite Espot, Ebuy, Esell.
  cbn [fst]. repeat (split; [first [assumption | reflexivity]|]). reflexivity.
Qed.

Lemma overviewAccount_inv (L : GoLib) (user : User) (a : AccountEntry)
      (tbl : Table) (tso tr : float) (st' : Table * float * float) (w w' : World) :
  overviewAccount L user (tbl, tso, tr) a w = (Ret st', w') ->
  parses L (Amount (acct_Balance a))
  /\ if qualifies L a
     then exists h,
         priced_at L user a w h w'
         /\ st' = (AddRow tbl (overviewRow L user a h),
                   (tso + h_sellOutAmount h)%float, (tr + h_returnAmount h)%float)
     else st' = (tbl, tso, tr) /\ w' = w.
Proof.
  unfold overviewAccount, qualifies, parses. intros H.
  pose proof (overviewHolding_priced L user a) as Hpriced.
  unfold balance, value_of in *.
  destruct (ParseFloat L (Amount (acct_Balance a))) as [amt err] eqn:Epf.
  cbn [fst snd] in *.
  run_errHandler H.
  split; [reflexivity|].
  destruct (0 <? amt)%float.
  - run_step H as h w2 E. injection H as <- <-.
    apply Hpriced in E. exists h. split; [exact E|].
    destruct E as (history & w1 & w3 & w4 & _ & _ & _ & _ & Ha & _ & _ & _ & _ & _ & Hs & _).
    unfold balance, value_of in Ha. rewrite Epf in Ha. cbn [fst] in Ha.
    now rewrite Hs, Ha.
  - now injection H as <- <-.
Qed.

Lemma overview_loop_totals (L : GoLib) (user : User) (accts : list AccountEntry) :
  forall (tbl0 : Table) (s0 r0 : float) (w : World)
         (tbl : Table) (tso tr : float) (w' : World),
    foldM (overviewAccount L user) accts (tbl0, s0, r0) w = (Ret (tbl, tso, tr), w') ->
    Forall (fun a => parses L (Amount (acct_Balance a))) accts
    /\ exists hs : list Holding,
        in_turn (priced_at L user) (filter (qualifies L) accts) w hs w'
        /\ header tbl = header tbl0
        /\ rows tbl = (rows tbl0 ++
                       map (fun ah => overviewRow L user (fst ah) (snd ah))
                           (combine (filter (qualifies L) accts) hs))%list
        /\ tso = fold_left PrimFloat.add (map h_sellOutAmount hs) s0
        /\ tr = fold_left PrimFloat.add (map h_returnAmount hs) r0.
Proof.
  induction accts as [|a accts IH]; intros tbl0 s0 r0 w tbl tso tr w' H.
  - injection H as <- <- <- <-. split; [constructor|].
    exists []. cbn. rewrite app_nil_r. repeat split. constructor.
  - cbn [foldM] in H. run_step H as [[tbl1 s1] r1] w1 E.
    apply overviewAccount_inv in E. destruct E as [Hp E].
    apply IH in H. destruct H as (Hps & hs & Hf & Hh & Hr & Hs & Ht).
    split; [now constructor|].
    cbn [filter]. destruct (qualifies L a).
    + destruct E as (h & Hpriced & [= -> -> ->]).
      exists (h :: hs). cbn [combine map fold_left fst snd].
      split; [exact (in_turn_cons _ _ _ _ _ _ _ _ Hpriced Hf)|]. split; [exact Hh|].
      split; [|now split].
      rewrite Hr. cbn [rows AddRow]. rewrite <- app_assoc. reflexivity.
    + destruct E as [[= -> -> ->] ->]. exists hs. auto.
Qed.

Lemma APIKeyClient_trace (w w' : World) (o : Outcome unit) :
  APIKeyClient w = (o, w') -> trace w' = trace w.
Proof. intros [= _ <-]. reflexivity. Qed.

Lemma emit_trace (e : Event) (w w' : World) (o : Outcome unit) :
  emit e w = (o, w') -> trace w' = (trace w ++ [e])%list.
Proof. intros [= _ <-]. reflexivity. Qed.



(** The end-to-end scenario of the specification: one wallet of 1.0 BTC,
    quotes 30000.00 / 30100.00 / 29900.00 USD, one buy of 25000.00 USD.
    The empty ETH wallet has no row. *)
Example overview_end_to_end :
  fst (getCoinbaseOverview Fixture.lib Fixture.w_healthy) = Ret tt
  /\ filter is_table (trace (snd (getCoinbaseOverview Fixture.lib Fixture.w_healthy)))
     = [ EvPrintTable
           {| header := overviewHeader;
              rows := [[CString "BTC Wallet"; CString "1.000000"; CString "BTC";
                        CString "30000.00 USD"; CString "30100.00 USD";
                        CString "29900.00 USD"; CString "29900.00 USD";
                        CString "25000.00 USD"; CString "0.000000 BTC";
                        CString "4900.00 USD"]] |} ]
  /\ skipn 1 (filter (fun e => match e with EvStdout _ => true | _ => false end)
                (trace (snd (getCoinbaseOverview Fixture.lib Fixture.w_healthy))))
     = [ EvStdout ("Total Sell Out Amount: 29900.00 USD" ++ newline);
         EvStdout ("Total Return Amount: 4900.00 USD" ++ newline) ].
Proof. repeat split; vm_compute; reflexivity. Qed.

(** The example of the specification for the sell-out value: a balance
    of 2.5 at a sell quote of 100.00 is worth 250.00. *)
Example sell_out_2_5_at_100 :
  (value_of Fixture.lib "2.5" * value_of Fixture.lib "100.00")%float = 250%float
  /\ Fixture.format_fixed 2 (value_of Fixture.lib "2.5" * value_of Fixture.lib "100.00")
     = "250.00".
Proof. split; vm_compute; reflexivity. Qed.

(** * Further properties of the client and of the command *)

(** ** The gateway: what [createRequest] returns *)

Lemma createRequest_answer (L : GoLib) (resourcePath : string) (w : World) :
  fst (createRequest L resourcePath w)
  = Ret (match http_NewRequest L "GET" (apiEndpointBase ++ resourcePath) with
         | inl req0 => answer (remote w (round_trips w) (dispatched req0 w))
         | inr e => ("", Some e)
         end).
Proof.
  destruct (http_NewRequest L "GET" (apiEndpointBase ++ resourcePath)) as [req0|e] eqn:E.
  - exact (proj1 (createRequest_run L resourcePath w req0 E)).
  - now rewrite (createRequest_unsent L resourcePath w e E).
Qed.

Lemma answer_ok (res : Response + error) (body : string) :
  answer res = (body, None) <->
  exists resp, res = inl resp /\ Body resp = (body, None) /\ StatusCode resp = 200.
Proof.
  unfold answer. split.
  - destruct res as [resp|e]; [|discriminate].
    destruct (Body resp) as [b [e|]] eqn:Eb; [discriminate|].
    destruct (StatusCode resp =? 200) eqn:Es; [|discriminate].
    cbn. intros [= ->]. exists resp. apply Z.eqb_eq in Es. auto.
  - intros (resp & -> & Eb & Es). rewrite Eb, Es. reflexivity.
Qed.

Lemma answer_failed (res : Response + error) (body : string) (e : error) :
  answer res = (body, Some e) -> body = "".
Proof.
  unfold answer. destruct res as [resp|e'].
  - destruct (Body resp) as [b [e'|]].
    + now intros [= <- _].
    + destruct (negb (StatusCode resp =? 200)); [now intros [= <- _]|discriminate].
  - now intros [= <- _].
Qed.

Lemma createRequest_ok (L : GoLib) (resourcePath : string) (w : World) (body : string) :
  fst (createRequest L resourcePath w) = Ret (body, None)
  <-> answered_200 L resourcePath w body.
Proof.
  rewrite createRequest_answer. unfold answered_200. split.
  - destruct (http_NewRequest L "GET" (apiEndpointBase ++ resourcePath)) as [req0|e];
      [|discriminate].
    intros [= Ea]. apply answer_ok in Ea. destruct Ea as (resp & Er & Eb & Es).
    now exists req0, resp.
  - intros (req0 & resp & -> & Er & Eb & Es). f_equal. apply answer_ok.
    now exists resp.
Qed.

Lemma createRequest_returns (L : GoLib) (resourcePath : string) (w : World) :
  exists body err,
    createRequest L resourcePath w = (Ret (body, err), snd (createRequest L resourcePath w))
    /\ (err <> None -> body = "").
Proof.
  pose proof (createRequest_answer L resourcePath w) as Hrun.
  destruct (createRequest L resourcePath w) as [o w1]. cbn [fst snd] in *. subst o.
  destruct (http_NewRequest L "GET" (apiEndpointBase ++ resourcePath)) as [req0|e].
  - destruct (answer (remote w (round_trips w) (dispatched req0 w))) as [body err] eqn:Ea.
    exists body, err. split; [reflexivity|].
    destruct err as [e|]; [intros _; exact (answer_failed _ _ _ Ea)|congruence].
  - exists "", (Some e). auto.
Qed.

(** X1. [createRequest] always returns, and returns a nil error exactly
    when the URL parsed and the transport answered with status 200 and a
    body read to its end: the body is then returned as it was read.  On
    every error the body returned is empty; the error of the transport
    and the error of reading the body are returned as they are; and a
    resource path whose URL does not parse is answered without reading
    the clock and without a round trip, the world being left untouched. *)
Theorem createRequest_contract (L : GoLib) (resourcePath : string) (w : World) :
  (exists body err,
      fst (createRequest L resourcePath w) = Ret (body, err)
      /\ (err <> None -> body = ""))
  /\ (forall body,
        fst (createRequest L resourcePath w) = Ret (body, None)
        <-> answered_200 L resourcePath w body)
  /\ (forall req0 e,
        http_NewRequest L "GET" (apiEndpointBase ++ resourcePath) = inl req0 ->
        remote w (round_trips w) (dispatched req0 w) = inr e ->
        fst (createRequest L resourcePath w) = Ret ("", Some e))
  /\ (forall req0 resp read e,
        http_NewRequest L "GET" (apiEndpointBase ++ resourcePath) = inl req0 ->
        remote w (round_trips w) (dispatched req0 w) = inl resp ->
        Body resp = (read, Some e) ->
        fst (createRequest L resourcePath w) = Ret ("", Some e))
  /\ (forall e,
        http_NewRequest L "GET" (apiEndpointBase ++ resourcePath) = inr e ->
        createRequest L resourcePath w = (Ret ("", Some e), w)).
Proof.
  pose proof (createRequest_answer L resourcePath w) as Hrun.
  split; [|split; [|split; [|split]]].
  - destruct (createRequest_returns L resourcePath w) as (body & err & E & Hb).
    exists body, err. now rewrite E.
  - intros body. apply createRequest_ok.
  - intros req0 e Hreq Hres. rewrite Hrun, Hreq, Hres. reflexivity.
  - intros req0 resp read e Hreq Hres Hbody. rewrite Hrun, Hreq, Hres.
    unfold answer. now rewrite Hbody.
  - intros e. apply createRequest_unsent.
Qed.

(** The contract on the fixture: the profile is returned as the service
    wrote it, and a profile endpoint answering 500 gives an error and no
    body. *)
Example createRequest_on_the_fixture :
  fst (createRequest Fixture.lib "user" Fixture.w_healthy) = Ret (Fixture.user_json, None)
  /\ exists e, fst (createRequest Fixture.lib "user" Fixture.w_user_down) = Ret ("", Some e).
Proof. split; [|eexists]; vm_compute; reflexivity. Qed.

(** ** The getters that hand their errors on *)

Section Propagation.

Variable L : GoLib.
Context {T : Type}.
Variables (resourcePath : string) (decode : string -> T * option error) (zero : T).

(** The shape shared by [GetUserProfile], [GetAccount], [GetExchangeRate]
    and [GetPriceByDate]. *)
Lemma propagates_shape (get : M (T * option error)) :
  (forall w,
      get w
      = ('(body, err) <- createRequest L resourcePath ;;
         match err with
         | Some err => ret (zero, Some err)
         | None =>
             let (v, err) := decode body in
             match err with
             | Some err => ret (zero, Some err)
             | None => ret (v, None)
             end
         end) w) ->
  propagates L get resourcePath decode zero.
Proof.
  intros Hget w. rewrite Hget. unfold bind.
  pose proof (createRequest_ok L resourcePath w) as Hok.
  destruct (createRequest_returns L resourcePath w) as (body & err & E & _).
  rewrite E in *. cbn [fst snd] in *.
  destruct err as [e|].
  - exists zero, (Some e). split; [reflexivity|]. split; [|reflexivity].
    split; [discriminate|]. intros (body' & Ha & _). apply Hok in Ha. discriminate.
  - destruct (decode body) as [v [e|]] eqn:Ed.
    + exists zero, (Some e). split; [reflexivity|]. split; [|reflexivity].
      split; [discriminate|]. intros (body' & Ha & Ed'). apply Hok in Ha.
      injection Ha as <-. congruence.
    + exists v, None. split; [reflexivity|]. split; [|congruence].
      split; [|reflexivity]. intros _. exists body. split; [|exact Ed].
      now apply Hok.
Qed.

End Propagation.

(** X2. [GetUserProfile], [GetAccount], [GetExchangeRate] and
    [GetPriceByDate] hand their errors on: each returns a nil error
    exactly when its request was answered 200 and the body decoded, the
    value being the decoded one, and otherwise returns the zero value of
    its type with a non-nil error; none of them touches the world beyond
    what the request did. *)
Theorem getters_hand_errors_on (L : GoLib) :
  propagates L (GetUserProfile L) "user" (Unmarshal_User L) User_zero
  /\ propagates L (GetAccount L) "accounts" (Unmarshal_Account L) Account_zero
  /\ propagates L (GetExchangeRate L) "exchange-rates" (Unmarshal_ExchangeRate L) []
  /\ forall (currencyPair : string) (year : Time),
       propagates L (GetPriceByDate L currencyPair year)
         ("prices/" ++ currencyPair ++ "/spot?date=" ++ time_Format L year "2006-01-02")
         (Unmarshal_Price L) Price_zero.
Proof.
  repeat split; try intros currencyPair year; apply propagates_shape; reflexivity.
Qed.

(** On the fixture: the profile is decoded when the service is healthy,
    and the zero profile comes back with an error when it answers 500. *)
Example GetUserProfile_on_the_fixture :
  fst (GetUserProfile Fixture.lib Fixture.w_healthy) = Ret (Fixture.user_value, None)
  /\ exists e, fst (GetUserProfile Fixture.lib Fixture.w_user_down)
               = Ret (User_zero, Some e).
Proof. split; [|eexists]; vm_compute; reflexivity. Qed.

(** The zero profile holds the zero [time.Time], January 1 of year 1,
    not the Unix epoch. *)
Example zero_profile_is_of_year_one :
  Unix (user_CreatedAt (User_Data User_zero)) = -62135596800
  /\ user_CreatedAt (User_Data User_zero) <> 0.
Proof. split; [reflexivity|discriminate]. Qed.

(** ** The format of a signature *)

Lemma land_255_byte (x : Z) : 0 <= Z.land x 255 < 256.
Proof.
  change 255 with (Z.ones 8). rewrite Z.land_ones by lia.
  apply Z.mod_pos_bound. reflexivity.
Qed.

Lemma digest_bytes (msg : bytes) :
  List.length (SHA256.digest msg) = 32%nat
  /\ Forall (fun x => 0 <= x < 256) (SHA256.digest msg).
Proof.
  unfold SHA256.digest. cbv zeta.
  generalize (fold_left SHA256.compress
                (SHA256.blocks (List.length (SHA256.pad msg) / 64) (SHA256.pad msg))
                SHA256.init).
  intros s. cbn [flat_map SHA256.be_bytes app List.length].
  split; [reflexivity|]. repeat constructor; apply land_255_byte.
Qed.

Lemma hex_digit_lower (d : Z) : 0 <= d < 16 -> is_lower_hex (hex_digit d) = true.
Proof.
  intros H.
  assert (d = 0 \/ d = 1 \/ d = 2 \/ d = 3 \/ d = 4 \/ d = 5 \/ d = 6 \/ d = 7 \/
          d = 8 \/ d = 9 \/ d = 10 \/ d = 11 \/ d = 12 \/ d = 13 \/ d = 14 \/ d = 15)
    as Hd by lia.
  repeat (destruct Hd as [-> | Hd]; [reflexivity|]). now subst d.
Qed.

Lemma hex_EncodeToString_format (b : bytes) :
  Forall (fun x => 0 <= x < 256) b ->
  String.length (hex_EncodeToString b) = (2 * List.length b)%nat
  /\ forallb is_lower_hex (list_ascii_of_string (hex_EncodeToString b)) = true.
Proof.
  induction 1 as [|x b Hx _ [IHl IHd]]; [split; reflexivity|].
  cbn [hex_EncodeToString String.length list_ascii_of_string forallb List.length].
  split; [rewrite IHl; lia|].
  rewrite IHd, !hex_digit_lower; [reflexivity| |].
  - change 15 with (Z.ones 4). rewrite Z.land_ones by lia.
    apply Z.mod_pos_bound. reflexivity.
  - rewrite Z.shiftr_div_pow2 by lia. change (2 ^ 4) with 16. split.
    + apply Z.div_pos; lia.
    + apply Z.div_lt_upper_bound; lia.
Qed.

Lemma hmac_bytes (key msg : bytes) :
  List.length (HMAC.sha256 key msg) = 32%nat
  /\ Forall (fun x => 0 <= x < 256) (HMAC.sha256 key msg).
Proof. unfold HMAC.sha256. cbv zeta. apply digest_bytes. Qed.

(** X3. Whatever the secret, the method, the path and the clock, the
    signature that [createSignature] returns is 64 characters long and
    every character is one of 0-9, a-f: the lower-case hexadecimal
    spelling of a 32-byte MAC. *)
Theorem createSignature_format (r : Request) (w : World) :
  exists sig,
    fst (createSignature r w) = Ret sig
    /\ String.length sig = 64%nat
    /\ forallb is_lower_hex (list_ascii_of_string sig) = true.
Proof.
  eexists. split; [apply createSignature_run|].
  unfold spec_signature.
  destruct (hmac_bytes (bytes_of_string (cbAPISecret w))
              (bytes_of_string
                 (Sprint_int (Unix (clock w (clock_reads w))) ++ Method r ++ Path (Url r))))
    as [Hl Hb].
  destruct (hex_EncodeToString_format _ Hb) as [Hl' Hd].
  split; [now rewrite Hl', Hl|exact Hd].
Qed.

(** ** The table of [Account.String] *)

Lemma Account_String_rows (L : GoLib) (data : list AccountEntry) (w : World) :
  Forall (fun act => parses L (Amount (acct_Balance act))) data ->
  forall tbl,
    foldM (Account_String_row L) data tbl w
    = (Ret {| header := header tbl;
              rows := (rows tbl ++
                       map (Account_String_cells L) (filter (qualifies L) data))%list |}, w).
Proof.
  induction 1 as [|act data Hp _ IH]; intros tbl.
  - cbn. rewrite app_nil_r. now destruct tbl.
  - cbn [foldM filter]. unfold bind, Account_String_row at 1. unfold parses in Hp.
    assert (Hq : qualifies L act
                 = (0 <? fst (ParseFloat L (Amount (acct_Balance act))))%float)
      by reflexivity.
    assert (Hc : Account_String_cells L act
                 = [CString (acct_Name act);
                    CString (Sprintf_f L (fst (ParseFloat L (Amount (acct_Balance act)))));
                    CString (Currency (acct_Balance act))])
      by reflexivity.
    rewrite Hq. clear Hq.
    destruct (ParseFloat L (Amount (acct_Balance act))) as [amount err].
    cbn [fst snd] in *. subst err.
    destruct (0 <? amount)%float; cbn [ret]; rewrite IH; [|reflexivity].
    cbn [AddRow header rows map]. rewrite Hc, <- app_assoc. reflexivity.
Qed.

(** X4. When every balance of the list parses, [Account.String] returns
    the rendering of a table headed Wallet Name, Balance, Currency with
    one row per account whose balance is greater than 0, in the order of
    the list, each row holding the name, the balance formatted with %f
    and the currency; accounts with a balance of 0 or less leave no row;
    the world is not touched. *)
Theorem Account_String_table (L : GoLib) (a : Account) (w : World) :
  Forall (fun act => parses L (Amount (acct_Balance act))) (Account_Data a) ->
  Account_String L a w
  = (Ret (table_render L
            {| header := ["Wallet Name"; "Balance"; "Currency"];
               rows := map (Account_String_cells L)
                           (filter (qualifies L) (Account_Data a)) |}), w).
Proof.
  intros Hall. unfold Account_String, bind.
  now rewrite (Account_String_rows L _ w Hall).
Qed.

Lemma Account_String_table_witness :
  Account_String Fixture.lib Fixture.accounts_value Fixture.w_healthy
  = (Ret (table_render Fixture.lib
            {| header := ["Wallet Name"; "Balance"; "Currency"];
               rows := map (Account_String_cells Fixture.lib)
                           (filter (qualifies Fixture.lib)
                                   (Account_Data Fixture.accounts_value)) |}),
     Fixture.w_healthy).
Proof.
  apply Account_String_table.
  repeat constructor; vm_compute; reflexivity.
Defined.

(** On the two accounts of the fixture, the empty ETH wallet leaves no row. *)
Example Account_String_on_the_fixture :
  map (Account_String_cells Fixture.lib)
      (filter (qualifies Fixture.lib) (Account_Data Fixture.accounts_value))
  = [[CString "BTC Wallet"; CString "1.000000"; CString "BTC"]].
Proof. vm_compute. reflexivity. Qed.

(** ** What the command sends and how it ends *)

(** The world after a request that was sent: two more clock readings,
    one more round trip, three more events, and nothing else. *)
Lemma createRequest_world (L : GoLib) (resourcePath : string) (w : World) (req0 : Request) :
  http_NewRequest L "GET" (apiEndpointBase ++ resourcePath) = inl req0 ->
  snd (createRequest L resourcePath w)
  = {| environ := environ w; cbAPIKey := cbAPIKey w; cbAPISecret := cbAPISecret w;
       clock := clock w; clock_reads := S (S (clock_reads w));
       remote := remote w; round_trips := S (round_trips w);
       scheduler := scheduler w;
       trace := (trace w ++
                 [EvNow (clock w (clock_reads w));
                  EvNow (clock w (S (clock_reads w)));
                  EvDo (dispatched req0 w)
                       (remote w (round_trips w) (dispatched req0 w))])%list |}.
Proof.
  intros Hreq. unfold createRequest. rewrite Hreq.
  unfold bind, createSignature, appendHeaders, bind, ret,
    time_Now, get_cbAPISecret, get_cbAPIKey, http_Do.
  cbn [fst snd trace clock clock_reads remote round_trips cbAPIKey cbAPISecret
       environ scheduler].
  change (hex_EncodeToString _) with
    (spec_signature (cbAPISecret w) (Method req0) (Path (Url req0))
       (Unix (clock w (clock_reads w)))).
  fold (with_auth req0 (cbAPIKey w)
          (spec_signature (cbAPISecret w) (Method req0) (Path (Url req0))
             (Unix (clock w (clock_reads w))))
          (Sprint_int (Unix (clock w (S (clock_reads w)))))).
  fold (dispatched req0 w).
  destruct (remote w (round_trips w) (dispatched req0 w)) as [resp|err].
  - destruct (Body resp) as [body [err|]];
      [|destruct (negb (StatusCode resp =? 200))];
      cbn [snd]; rewrite <- !app_assoc; reflexivity.
  - cbn [snd]. rewrite <- !app_assoc. reflexivity.
Qed.

Section Orderly.

Variable L : GoLib.
Variable env : string -> string.
Variable strict : bool.

Local Abbreviation ord := (orderly L env strict).

Lemma orderly_quiet {A} (c : bool) (m : M A) :
  (forall w, exists a, m w = (Ret a, w)) -> ord c c m.
Proof.
  intros H w Henv Hpre. destruct (H w) as (a & E).
  exists []. unfold adds. rewrite E. cbn. rewrite app_nil_r. auto.
Qed.

Lemma orderly_ret {A} (c : bool) (a : A) : ord c c (ret a).
Proof. apply orderly_quiet. intros w. now exists a. Qed.

Lemma orderly_bind {A A'} (c c1 c2 : bool) (m : M A) (k : A -> M A') :
  ord c c1 m -> (forall a, ord c1 c2 (k a)) -> ord c c2 (bind m k).
Proof.
  intros Hm Hk w Henv Hpre.
  destruct (Hm w Henv Hpre) as (d1 & A1 & F1 & R1 & E1 & P1).
  unfold adds, bind in *.
  destruct (m w) as [[a|c'|e] w1]; cbn [fst snd] in *.
  - destruct (Hk a w1 E1 P1) as (d2 & A2 & F2 & R2 & E2 & P2).
    exists (d1 ++ d2)%list. unfold adds in A2.
    split; [rewrite A2, A1, app_assoc; reflexivity|].
    split; [apply Forall_app; auto|].
    split; [|auto].
    destruct (k a w1) as [[b|c'|e] w2]; cbn [fst snd told] in *; auto.
    destruct R2 as (-> & d' & d'' & msg & -> & Hs). split; [reflexivity|].
    exists (d1 ++ d')%list, d'', msg. now rewrite app_assoc.
  - exists d1. auto.
  - contradiction.
Qed.

(** What a step establishes may be forgotten, and what it does not need
    may be given to it. *)
Lemma orderly_forget {A} (c c' : bool) (m : M A) : ord c c' m -> ord c false m.
Proof.
  intros H w Henv Hpre. destruct (H w Henv Hpre) as (d & A1 & F1 & R1 & E1 & P1).
  exists d. repeat split; auto. destruct (fst (m w)); auto. discriminate.
Qed.

Lemma orderly_emit (c : bool) (e : Event) : authentic L env e -> ord c c (emit e).
Proof.
  intros He w Henv Hpre. exists [e]. unfold adds. cbn.
  split; [reflexivity|]. split; [now constructor|]. auto.
Qed.

Lemma orderly_time_Now (c : bool) : ord c c time_Now.
Proof.
  intros w Henv Hpre. exists [EvNow (clock w (clock_reads w))]. unfold adds. cbn.
  split; [reflexivity|]. split; [now constructor|]. auto.
Qed.

Lemma orderly_errHandler (c : bool) (err : option error) : ord c c (errHandler err).
Proof.
  destruct err as [e|]; [|apply orderly_ret].
  intros w Henv Hpre. exists [EvStderr (e ++ newline)]. unfold adds. cbn.
  split; [reflexivity|]. split; [now constructor|].
  split; [|auto]. split; [reflexivity|]. now exists [], [], e.
Qed.

Lemma orderly_go_order {A} (c : bool) (l : list A) : ord c c (go_order l).
Proof. apply orderly_quiet. intros w. eexists. reflexivity. Qed.

(** [APIKeyClient] puts the credentials of the environment into the
    package variables. *)
Lemma orderly_APIKeyClient (c : bool) : ord c true APIKeyClient.
Proof.
  intros w Henv Hpre. exists []. unfold adds. cbn. rewrite app_nil_r.
  split; [reflexivity|]. split; [constructor|]. split; [exact I|].
  split; [exact Henv|]. intros _. split; reflexivity.
Qed.

(** With the credentials in place, the one round trip of [createRequest]
    is authentic. *)
Lemma orderly_createRequest (resourcePath : string) :
  ord true true (createRequest L resourcePath).
Proof.
  intros w Henv Hpre. destruct (Hpre eq_refl) as [Hkey Hsecret].
  rewrite Henv in Hkey, Hsecret.
  pose proof (createRequest_answer L resourcePath w) as Hrun.
  destruct (http_NewRequest L "GET" (apiEndpointBase ++ resourcePath)) as [req0|e] eqn:Hreq.
  - pose proof (createRequest_world L resourcePath w req0 Hreq) as Hw.
    exists [EvNow (clock w (clock_reads w)); EvNow (clock w (S (clock_reads w)));
            EvDo (dispatched req0 w) (remote w (round_trips w) (dispatched req0 w))].
    unfold adds. rewrite Hrun, Hw.
    cbn [fst trace environ cbAPIKey cbAPISecret told].
    split; [reflexivity|].
    split; [|unfold credentials; cbn [environ cbAPIKey cbAPISecret]; rewrite Henv; auto].
    unfold http_NewRequest in Hreq.
    destruct (url_Parse L (apiEndpointBase ++ resourcePath)) as [u|e] eqn:Hu; [|discriminate].
    injection Hreq as <-.
    constructor; [exact I|]. constructor; [exact I|]. constructor; [|constructor].
    unfold authentic. split; [reflexivity|]. split.
    + exists resourcePath. exact Hu.
    + exists (clock w (clock_reads w)), (clock w (S (clock_reads w))).
      unfold dispatched, with_auth, Header_Add.
      cbn [Header Method Url app]. rewrite Hkey, Hsecret.
      change (CanonicalMIMEHeaderKey "CB-ACCESS-KEY") with "Cb-Access-Key".
      change (CanonicalMIMEHeaderKey "CB-ACCESS-SIGN") with "Cb-Access-Sign".
      change (CanonicalMIMEHeaderKey "CB-ACCESS-TIMESTAMP") with "Cb-Access-Timestamp".
      change (CanonicalMIMEHeaderKey "CB-VERSION") with "Cb-Version".
      change (CanonicalMIMEHeaderKey "Content-Type") with "Content-Type".
      reflexivity.
  - exists []. unfold adds. rewrite (createRequest_unsent L resourcePath w e Hreq).
    cbn [fst snd told]. rewrite app_nil_r.
    split; [reflexivity|]. split; [constructor|]. auto.
Qed.

Lemma orderly_foldM {A S} (c : bool) (body : S -> A -> M S) :
  (forall s a, ord c c (body s a)) ->
  forall l s, ord c c (foldM body l s).
Proof.
  intros Hbody l. induction l as [|a l IH]; intros s; cbn [foldM].
  - apply orderly_ret.
  - eapply orderly_bind; auto.
Qed.

(** The steps of a procedure, one after the other. *)
Ltac orderly_steps lemmas :=
  repeat first
    [ progress intros
    | apply orderly_ret
    | apply orderly_errHandler
    | apply orderly_time_Now
    | apply orderly_go_order
    | apply orderly_emit; exact I
    | apply orderly_APIKeyClient
    | apply orderly_createRequest
    | lemmas
    | apply orderly_foldM
    | eapply orderly_bind
    | match goal with
      | |- context [match ?x with _ => _ end] => destruct x
      end ].

Lemma orderly_GetUserProfile : ord true true (GetUserProfile L).
Proof. unfold GetUserProfile. orderly_steps fail. Qed.

Lemma orderly_GetAccount : ord true true (GetAccount L).
Proof. unfold GetAccount. orderly_steps fail. Qed.

Lemma orderly_GetPrice (currencyPair priceType : string) :
  ord true true (GetPrice L currencyPair priceType).
Proof. unfold GetPrice. orderly_steps fail. Qed.

Lemma orderly_GetTransactionHistory (accountId : string) :
  ord true true (GetTransactionHistory L accountId).
Proof. unfold GetTransactionHistory. orderly_steps fail. Qed.

Ltac orderly_getters :=
  first [ apply orderly_GetUserProfile | apply orderly_GetAccount
        | apply orderly_GetPrice | apply orderly_GetTransactionHistory ].

Lemma orderly_sumTransaction (c : bool) (acc : float * float) (tr : TransactionEntry) :
  ord c c (sumTransaction L acc tr).
Proof. unfold sumTransaction. orderly_steps fail. Qed.

Lemma orderly_overviewHolding (user : User) (act : AccountEntry) (amt : float) :
  ord true true (overviewHolding L user act amt).
Proof.
  unfold overviewHolding.
  orderly_steps ltac:(first [orderly_getters | apply orderly_sumTransaction]).
Qed.

Lemma orderly_overviewAccount (user : User) (st : Table * float * float)
      (act : AccountEntry) :
  ord true true (overviewAccount L user st act).
Proof.
  unfold overviewAccount. orderly_steps ltac:(apply orderly_overviewHolding).
Qed.

Lemma orderly_accountsRow (user : User) (tbl : Table) (a : AccountEntry) :
  ord true true (accountsRow L user tbl a).
Proof. unfold accountsRow. orderly_steps orderly_getters. Qed.

Lemma orderly_getCoinbaseOverview (c : bool) : ord c true (getCoinbaseOverview L).
Proof.
  unfold getCoinbaseOverview, fmt_Println, fmt_Printf, tbl_Print.
  orderly_steps ltac:(first [orderly_getters | apply orderly_overviewAccount]).
Qed.

Lemma orderly_getCoinbaseAccounts (c : bool) : ord c true (getCoinbaseAccounts L).
Proof.
  unfold getCoinbaseAccounts, tbl_Print.
  orderly_steps ltac:(first [orderly_getters | apply orderly_accountsRow]).
Qed.

Lemma exiting_context (gs1 gs2 : list Goroutine) (g g' : Goroutine) :
  In AtExit (gs1 ++ g' :: gs2) -> g' <> AtExit -> In AtExit (gs1 ++ g :: gs2).
Proof.
  intros H Hg. apply in_app_or in H. apply in_or_app.
  destruct H as [H|[H|H]]; [now left|congruence|right; now right].
Qed.

Lemma credentials_emit (e : Event) (w : World) :
  credentials w -> credentials (snd (emit e w)).
Proof. intros H. exact H. Qed.

Lemma Forall_context {A} (P : A -> Prop) (l1 l2 : list A) (x y : A) :
  Forall P (l1 ++ x :: l2) -> P y -> Forall P (l1 ++ y :: l2).
Proof.
  intros H Hy. apply Forall_app in H. destruct H as [H1 H2].
  apply Forall_cons_iff in H2. apply Forall_app. split; [exact H1|].
  constructor; tauto.
Qed.

Lemma Forall_context_here {A} (P : A -> Prop) (l1 l2 : list A) (x : A) :
  Forall P (l1 ++ x :: l2) -> P x.
Proof.
  intros H. apply Forall_app in H. destruct H as [_ H].
  now apply Forall_cons_iff in H.
Qed.

Lemma Forall_context_out {A} (P : A -> Prop) (l1 l2 : list A) (x : A) :
  Forall P (l1 ++ x :: l2) -> Forall P (l1 ++ l2).
Proof.
  intros H. apply Forall_app in H. destruct H as [H1 H2].
  apply Forall_cons_iff in H2. apply Forall_app. tauto.
Qed.

(** A move of the pool is orderly, and a goroutine comes to stand before
    [os.Exit(1)] only by writing its error to stderr. *)
Lemma pool_move_orderly (p p1 : Pool) (w w1 : World) :
  pool_move L p w p1 w1 ->
  environ w = env -> credentials w ->
  Forall (signed L env) (goroutines p) ->
  exists d,
    trace w1 = (trace w ++ d)%list
    /\ Forall (authentic L env) d
    /\ environ w1 = env
    /\ credentials w1
    /\ Forall (signed L env) (goroutines p1)
    /\ (In AtExit (goroutines p1) ->
        In AtExit (goroutines p) \/ exists msg, In (EvStderr (msg ++ newline)) d).
Proof.
  intros H Henv Hc Hs. pose proof Hc as [Hkey Hsecret]. rewrite Henv in Hkey, Hsecret.
  destruct H; cbn [goroutines] in *.
  - exists [EvWgAdd 1]. split; [reflexivity|]. split; [now repeat constructor|].
    split; [exact Henv|]. split; [exact Hc|]. split; [exact Hs|auto].
  - exists [EvGo id]. split; [reflexivity|]. split; [now repeat constructor|].
    split; [exact Henv|]. split; [exact Hc|].
    split; [apply Forall_app; split; [exact Hs|now repeat constructor]|].
    intros Hin. left. apply in_app_or in Hin. destruct Hin as [Hin|[Hin|[]]];
      [exact Hin|discriminate].
  - exists []. rewrite app_nil_r. split; [reflexivity|]. split; [constructor|].
    split; [exact Henv|]. split; [exact Hc|].
    split; [apply (Forall_context _ _ _ _ _ Hs); exact I|].
    intros Hin. left. apply (exiting_context _ _ _ _ Hin). discriminate.
  - exists [EvNow (clock w (clock_reads w))]. split; [reflexivity|].
    split; [now repeat constructor|]. split; [exact Henv|]. split; [exact Hc|].
    split.
    + apply (Forall_context _ _ _ _ _ Hs). cbn [signed].
      unfold http_NewRequest in H.
      destruct (url_Parse L (apiEndpointBase ++ "accounts/" ++ accountID ++ "/transactions"))
        as [u|e] eqn:Hu; [|discriminate].
      injection H as <-. cbn [Method Header Url].
      split; [reflexivity|]. split; [reflexivity|].
      split; [eexists; exact Hu|].
      exists (clock w (clock_reads w)). now rewrite Hsecret.
    + intros Hin. left. apply (exiting_context _ _ _ _ Hin). discriminate.
  - exists [EvNow (clock w (clock_reads w))]. split; [reflexivity|].
    split; [now repeat constructor|]. split; [exact Henv|]. split; [exact Hc|].
    split.
    + pose proof (Forall_context_here _ _ _ _ Hs) as (Hm & Hh & Hurl & t0 & Hsig).
      apply (Forall_context _ _ _ _ _ Hs). cbn [signed authentic].
      unfold with_auth, Header_Add. cbn [Header Method Url app].
      split; [exact Hm|]. split; [exact Hurl|].
      exists t0, (clock w (clock_reads w)). rewrite Hh, Hkey, Hsig. cbn [app].
      change (CanonicalMIMEHeaderKey "CB-ACCESS-KEY") with "Cb-Access-Key".
      change (CanonicalMIMEHeaderKey "CB-ACCESS-SIGN") with "Cb-Access-Sign".
      change (CanonicalMIMEHeaderKey "CB-ACCESS-TIMESTAMP") with "Cb-Access-Timestamp".
      change (CanonicalMIMEHeaderKey "CB-VERSION") with "Cb-Version".
      change (CanonicalMIMEHeaderKey "Content-Type") with "Content-Type".
      reflexivity.
    + intros Hin. left. apply (exiting_context _ _ _ _ Hin). discriminate.
  - exists [EvDo req (remote w (round_trips w) req)]. split; [reflexivity|].
    split; [constructor; [exact (Forall_context_here _ _ _ _ Hs)|constructor]|].
    split; [exact Henv|]. split; [exact Hc|].
    split.
    + apply (Forall_context _ _ _ _ _ Hs). unfold answered.
      now destruct (answer (remote w (round_trips w) req)) as [body [e|]].
    + intros Hin. left. apply (exiting_context _ _ _ _ Hin). unfold answered.
      now destruct (answer (remote w (round_trips w) req)) as [body [e|]].
  - exists []. rewrite app_nil_r. split; [reflexivity|]. split; [constructor|].
    split; [exact Henv|]. split; [exact Hc|].
    split; [apply (Forall_context _ _ _ _ _ Hs); exact I|].
    intros Hin. left. apply (exiting_context _ _ _ _ Hin). discriminate.
  - exists []. rewrite app_nil_r. split; [reflexivity|]. split; [constructor|].
    split; [exact Henv|]. split; [exact Hc|].
    split; [apply (Forall_context _ _ _ _ _ Hs); exact I|].
    intros Hin. left. apply (exiting_context _ _ _ _ Hin). discriminate.
  - exists [EvWgDone]. split; [reflexivity|]. split; [now repeat constructor|].
    split; [exact Henv|]. split; [exact Hc|].
    split; [exact (Forall_context_out _ _ _ _ Hs)|].
    intros Hin. left. apply in_app_or in Hin. apply in_or_app.
    destruct Hin as [Hin|Hin]; [now left|right; now right].
  - exists [EvStderr (e ++ newline)]. split; [reflexivity|].
    split; [now repeat constructor|]. split; [exact Henv|]. split; [exact Hc|].
    split; [apply (Forall_context _ _ _ _ _ Hs); exact I|].
    intros _. right. exists e. now left.
Qed.

Lemma pool_run_orderly (p p' : Pool) (w w' : World) :
  pool_run L p w p' w' ->
  environ w = env -> credentials w ->
  Forall (signed L env) (goroutines p) ->
  exists d,
    trace w' = (trace w ++ d)%list
    /\ Forall (authentic L env) d
    /\ environ w' = env
    /\ credentials w'
    /\ (In AtExit (goroutines p') ->
        In AtExit (goroutines p) \/ exists msg, In (EvStderr (msg ++ newline)) d).
Proof.
  induction 1 as [p w|p w p1 w1 p' w' Hm Hrun IH]; intros Henv Hc Hs.
  - exists []. rewrite app_nil_r. split; [reflexivity|]. split; [constructor|]. auto.
  - destruct (pool_move_orderly _ _ _ _ Hm Henv Hc Hs)
      as (d1 & A1 & F1 & E1 & C1 & S1 & X1).
    destruct (IH E1 C1 S1) as (d2 & A2 & F2 & E2 & C2 & X2).
    exists (d1 ++ d2)%list. rewrite A2, A1, app_assoc.
    split; [reflexivity|]. split; [now apply Forall_app|]. split; [exact E2|].
    split; [exact C2|]. intros Hin.
    destruct (X2 Hin) as [Hin1|(msg & Hmsg)].
    + destruct (X1 Hin1) as [Hin0|(msg & Hmsg)]; [now left|].
      right. exists msg. apply in_or_app. now left.
    + right. exists msg. apply in_or_app. now right.
Qed.

(** The fan-out, whatever the interleaving. *)
Lemma orderly_fan_out (n tick : nat) (tbl : Table) (ids : list string) :
  strict = false ->
  (List.length ids <= n)%nat ->
  ord true true
      (fan_out L n tick {| launcher := AtAdd ids; goroutines := []; shared := tbl |}).
Proof.
  intros Hs Hn w Henv Hpre.
  set (p := {| launcher := AtAdd ids; goroutines := []; shared := tbl |}).
  assert (Hu : (unfetched p <= n)%nat).
  { unfold unfetched, fetch_ids. cbn [p launcher goroutines pending flat_map List.length].
    lia. }
  pose proof (fan_out_sound L n tick p w Hu) as Hf.
  unfold adds. destruct (fan_out L n tick p w) as [[tbl'|c|e] w']; cbn [fan_out_spec] in Hf;
    cbn [fst snd told].
  - destruct Hf as (p' & Hrun & _).
    destruct (pool_run_orderly _ _ _ _ Hrun Henv (Hpre eq_refl) (Forall_nil _))
      as (d & Ha & Hf & He & Hc & _).
    exists d. auto.
  - destruct Hf as (-> & p1 & Hrun & Hin).
    destruct (pool_run_orderly _ _ _ _ Hrun Henv (Hpre eq_refl) (Forall_nil _))
      as (d & Ha & Hf & He & Hc & Hx).
    exists d. split; [exact Ha|]. split; [exact Hf|]. split; [|auto].
    split; [reflexivity|].
    destruct (Hx Hin) as [[]|(msg & Hmsg)].
    destruct (in_split _ _ Hmsg) as (d1 & d2 & ->).
    exists d1, d2, msg. split; [reflexivity|]. rewrite Hs. discriminate.
  - contradiction.
Qed.

Lemma orderly_getCoinbaseTransactions (c : bool) :
  strict = false -> ord c true (getCoinbaseTransactions L).
Proof.
  intros Hs. unfold getCoinbaseTransactions, tbl_Print. cbv zeta.
  eapply orderly_bind; [apply orderly_APIKeyClient|]. intros _.
  eapply orderly_bind; [apply orderly_GetAccount|]. intros [accounts err].
  eapply orderly_bind; [apply orderly_errHandler|]. intros _.
  eapply orderly_bind; [apply (orderly_fan_out _ _ _ _ Hs); lia|].
  intros tbl.
  eapply orderly_bind; [apply orderly_emit; exact I|]. intros _.
  apply orderly_emit. exact I.
Qed.

Lemma orderly_coinbaseCmd_Run (listTransactions listAccounts : bool) :
  (listTransactions = true -> strict = false) ->
  ord false false (coinbaseCmd_Run L listTransactions listAccounts).
Proof.
  intros Hs. unfold coinbaseCmd_Run, dispatch, fmt_Println.
  eapply orderly_bind; [apply orderly_time_Now|]. intros start.
  eapply orderly_bind.
  { destruct listTransactions;
      [eapply orderly_forget, orderly_getCoinbaseTransactions; auto | apply orderly_ret]. }
  intros _. eapply orderly_bind.
  { destruct listAccounts;
      [eapply orderly_forget, orderly_getCoinbaseAccounts | apply orderly_ret]. }
  intros _. eapply orderly_bind.
  { destruct (negb listAccounts && negb listTransactions);
      [eapply orderly_forget, orderly_getCoinbaseOverview | apply orderly_ret]. }
  orderly_steps fail.
Qed.

End Orderly.

(** X5. Whatever the flags, the library, the service and the clock, every
    round trip that a run of the command makes is a GET of a URL parsed
    from the API base followed by a resource path, and carries exactly
    five header fields, one value each, under the names [http.Header.Add]
    files them under: Cb-Access-Key, Cb-Access-Sign, Cb-Access-Timestamp,
    Cb-Version and Content-Type, in no particular order ([Permutation]).
    The key is the value of COINBASE_KEY in the environment, the
    signature is keyed by the value of COINBASE_SECRET over a timestamp,
    GET and the path of that URL, the version is 2017-08-31 and the
    content type application/json.  The command sends nothing else. *)
Theorem every_round_trip_is_authentic (L : GoLib) (listTransactions listAccounts : bool)
        (w : World) :
  exists d,
    adds (coinbaseCmd_Run L listTransactions listAccounts) w d
    /\ Forall (authentic L (environ w)) d.
Proof.
  destruct (orderly_coinbaseCmd_Run L (environ w) false listTransactions listAccounts
              (fun _ => eq_refl) w eq_refl)
    as (d & Ha & Hf & _); [discriminate|].
  now exists d.
Qed.

(** The names under which the header fields are filed: the first letter
    and the letters after a hyphen in upper case, the others in lower
    case, however the program spelled them. *)
Example header_names_are_canonical :
  map CanonicalMIMEHeaderKey
      ["CB-ACCESS-KEY"; "CB-ACCESS-SIGN"; "CB-ACCESS-TIMESTAMP"; "CB-VERSION";
       "Content-Type"; "content-type"]
  = ["Cb-Access-Key"; "Cb-Access-Sign"; "Cb-Access-Timestamp"; "Cb-Version";
     "Content-Type"; "Content-Type"]
  /\ Header_Get (Header (Header_Add Fixture.profile_request "CB-VERSION" "2017-08-31"))
                "cb-version"
     = "2017-08-31".
Proof. split; vm_compute; reflexivity. Qed.

(** X6. No exit of the command is silent.  Whatever the flags, when a run
    stops the process the status is 1 and a line was written to stderr
    before (the text of an error followed by a newline).  When
    Transactions mode is not selected, so that no goroutine is started,
    the run moreover never panics and that line is the last thing it
    did: nothing is written after the error.  (With Transactions mode
    several workers may each report an error before the process ends,
    which is why the second part leaves that mode out.) *)
Theorem every_exit_is_reported (L : GoLib) (listTransactions listAccounts : bool)
        (w : World) :
  exists d,
    adds (coinbaseCmd_Run L listTransactions listAccounts) w d
    /\ (forall c,
          fst (coinbaseCmd_Run L listTransactions listAccounts w) = Exit c ->
          c = 1 /\ exists msg, In (EvStderr (msg ++ newline)) d)
    /\ (listTransactions = false ->
        reported (fst (coinbaseCmd_Run L listTransactions listAccounts w)) d).
Proof.
  destruct (orderly_coinbaseCmd_Run L (environ w) false listTransactions listAccounts
              (fun _ => eq_refl) w eq_refl)
    as (d & Ha & _ & Hr & _); [discriminate|].
  exists d. split; [exact Ha|]. split.
  - intros c Hc. rewrite Hc in Hr. destruct Hr as (-> & d1 & d2 & msg & -> & _).
    split; [reflexivity|]. exists msg. apply in_or_app. right. now left.
  - intros Hl.
    assert (Hs : listTransactions = true -> true = false) by (rewrite Hl; discriminate).
    destruct (orderly_coinbaseCmd_Run L (environ w) true listTransactions listAccounts
                Hs w eq_refl)
      as (d' & Ha' & _ & Hr' & _); [discriminate|].
    unfold adds in Ha, Ha'. rewrite Ha in Ha'. apply app_inv_head in Ha'. subst d'.
    clear Hr. destruct (fst (coinbaseCmd_Run L listTransactions listAccounts w));
      cbn [told reported] in *; auto.
    destruct Hr' as (-> & d1 & d2 & msg & -> & Hd2). rewrite (Hd2 eq_refl).
    split; [reflexivity|]. now exists d1, msg.
Qed.

(** On the fixture: with the profile endpoint down, Overview mode stops
    with status 1 and the line of the error is the last event. *)
Example exit_is_reported_on_the_fixture :
  fst (coinbaseCmd_Run Fixture.lib false false Fixture.w_user_down) = Exit 1
  /\ match last (trace (snd (coinbaseCmd_Run Fixture.lib false false Fixture.w_user_down)))
                EvWgWait with
     | EvStderr _ => true
     | _ => false
     end = true.
Proof. split; vm_compute; reflexivity. Qed.

(** On the fixture, with both histories failing and a scheduler under
    which the goroutines take turns: the first goroutine signs its
    request while the loop is still running, the clock readings and the
    round trips of the two requests interleave, and both goroutines
    write their error to stderr before the first of them ends the
    process. *)
Example two_goroutines_report_before_the_exit :
  let run := getCoinbaseTransactions Fixture.lib Fixture.w_histories_down in
  fst run = Exit 1
  /\ map Fixture.kind (trace (snd run))
     = ["now"; "now"; "do"; "add"; "go a-btc"; "add"; "now"; "go a-eth"; "now";
        "now"; "now"; "do"; "do"; "stderr"; "stderr"].
Proof. split; vm_compute; reflexivity. Qed.

(** With the healthy service and the same scheduler the mode completes:
    the goroutines return in turn, then the wait ends and the table is
    printed. *)
Example goroutines_take_turns :
  let run := getCoinbaseTransactions Fixture.lib Fixture.w_taking_turns in
  fst run = Ret tt
  /\ map Fixture.kind (trace (snd run))
     = ["now"; "now"; "do"; "add"; "go a-btc"; "add"; "now"; "go a-eth"; "now";
        "now"; "now"; "do"; "do"; "done"; "done"; "wait"; "table"].
Proof. split; vm_compute; reflexivity. Qed.

(** ** The requests of a run *)

Lemma urls_app (d1 d2 : list Event) : urls (d1 ++ d2) = (urls d1 ++ urls d2)%list.
Proof. apply flat_map_app. Qed.

Lemma fetches_refl (L : GoLib) (w : World) : fetches L [] w w.
Proof.
  split; [cbn; lia|]. exists []. rewrite app_nil_r. repeat split. constructor.
Qed.

Lemma fetches_trans (L : GoLib) (p q : list string) (w w1 w2 : World) :
  fetches L p w w1 -> fetches L q w1 w2 -> fetches L (p ++ q) w w2.
Proof.
  intros (Hn & d1 & Hd1 & Hw1 & Hu1) (Hm & d2 & Hd2 & Hw2 & Hu2).
  split; [rewrite length_app; lia|].
  exists (d1 ++ d2)%list.
  rewrite Hd2, Hd1, app_assoc, forallb_app, Hw1, Hw2, urls_app.
  repeat split. now apply Forall2_app.
Qed.

Lemma fetches_requested (L : GoLib) (p : list string) (w w' : World) :
  fetches L p w w' -> requested L p w w'.
Proof. intros (Hn & d & Hd & _ & Hu). split; [exact Hn|]. now exists d. Qed.

Lemma requested_trans (L : GoLib) (p q : list string) (w w1 w2 : World) :
  requested L p w w1 -> requested L q w1 w2 -> requested L (p ++ q) w w2.
Proof.
  intros (Hn & d1 & Hd1 & Hu1) (Hm & d2 & Hd2 & Hu2).
  split; [rewrite length_app; lia|].
  exists (d1 ++ d2)%list. rewrite Hd2, Hd1, app_assoc, urls_app.
  split; [reflexivity|]. now apply Forall2_app.
Qed.

(** A step that makes no round trip. *)
Lemma requested_nothing (L : GoLib) (w w' : World) (d : list Event) :
  round_trips w' = round_trips w ->
  trace w' = (trace w ++ d)%list ->
  urls d = [] ->
  requested L [] w w'.
Proof.
  intros Hn Hd Hu. split; [cbn; lia|]. exists d. rewrite Hu. split; [exact Hd|constructor].
Qed.

Lemma createRequest_fetches (L : GoLib) (resourcePath : string) (w w' : World)
      (body : string) (err : option error) :
  createRequest L resourcePath w = (Ret (body, err), w') ->
  fetches L [resourcePath] w w' \/ (w' = w /\ err <> None).
Proof.
  intros H.
  destruct (http_NewRequest L "GET" (apiEndpointBase ++ resourcePath)) as [req0|e] eqn:Hreq.
  - left. pose proof (createRequest_world L resourcePath w req0 Hreq) as Hw.
    rewrite H in Hw. cbn [snd] in Hw. subst w'.
    split; cbn [round_trips trace List.length]; [lia|].
    eexists. split; [reflexivity|]. split; [reflexivity|].
    constructor; [|constructor]. unfold url_of. unfold http_NewRequest in Hreq.
    destruct (url_Parse L (apiEndpointBase ++ resourcePath)) as [u|e]; [|discriminate].
    now injection Hreq as <-.
  - right. rewrite (createRequest_unsent L resourcePath w e Hreq) in H.
    injection H as _ <- <-. split; [reflexivity|discriminate].
Qed.

Lemma GetUserProfile_fetches (L : GoLib) (w w' : World) (user : User) :
  GetUserProfile L w = (Ret (user, None), w') -> fetches L ["user"] w w'.
Proof.
  unfold GetUserProfile. intros H. run_step H as [body e] w1 E.
  apply createRequest_fetches in E. destruct e as [e|]; [discriminate|].
  destruct (Unmarshal_User L body) as [u [e|]]; [discriminate|].
  injection H as _ <-. destruct E as [E|[_ E]]; [exact E|congruence].
Qed.

Lemma GetAccount_fetches (L : GoLib) (w w' : World) (account : Account) :
  GetAccount L w = (Ret (account, None), w') -> fetches L ["accounts"] w w'.
Proof.
  unfold GetAccount. intros H. run_step H as [body e] w1 E.
  apply createRequest_fetches in E. destruct e as [e|]; [discriminate|].
  destruct (Unmarshal_Account L body) as [u [e|]]; [discriminate|].
  injection H as _ <-. destruct E as [E|[_ E]]; [exact E|congruence].
Qed.

Lemma GetTransactionHistory_fetches (L : GoLib) (accountId : string) (w w' : World)
      (t : Transaction) :
  GetTransactionHistory L accountId w = (Ret (t, None), w') ->
  fetches L [history_path accountId] w w'.
Proof.
  unfold GetTransactionHistory. intros H. run_step H as [body e] w1 E.
  apply createRequest_fetches in E. destruct e as [e|]; [discriminate|].
  assert (w' = w1) as ->
      by (destruct (Unmarshal_Transaction L body) as [u [e|]]; now injection H).
  destruct E as [E|[_ E]]; [exact E|congruence].
Qed.

(** [GetPrice] made its round trip, or returned the zero price. *)
Lemma GetPrice_fetches (L : GoLib) (currencyPair priceType : string) (w w' : World)
      (p : Price) (err : option error) :
  GetPrice L currencyPair priceType w = (Ret (p, err), w') ->
  fetches L [price_path currencyPair priceType] w w' \/ (w' = w /\ p = Price_zero).
Proof.
  unfold GetPrice. intros H. run_step H as [body e] w1 E.
  apply createRequest_fetches in E. destruct e as [e|].
  - injection H as <- _ <-. destruct E as [E|[-> _]]; auto.
  - destruct E as [E|[_ E]]; [|congruence]. left.
    destruct (Unmarshal_Price L body) as [u [e|]]; now injection H as _ _ <-.
Qed.

(** A quote whose amount parses was fetched, when the empty string does
    not parse. *)
Lemma quote_fetched (L : GoLib) (currencyPair priceType : string) (w w' : World)
      (p : Price) (err : option error) :
  GetPrice L currencyPair priceType w = (Ret (p, err), w') ->
  parses L (price_Amount (Price_Data p)) ->
  exists ps,
    fetches L ps w w' /\ (~ parses L "" -> ps = [price_path currencyPair priceType]).
Proof.
  intros H Hp. apply GetPrice_fetches in H. destruct H as [H|[-> ->]].
  - exists [price_path currencyPair priceType]. auto.
  - exists []. split; [apply fetches_refl|]. intros Hn. now elim Hn.
Qed.

Lemma accountsRow_inv (L : GoLib) (user : User) (tbl : Table) (a : AccountEntry)
      (w w' : World) (tbl' : Table) :
  accountsRow L user tbl a w = (Ret tbl', w') ->
  parses L (Amount (acct_Balance a))
  /\ if qualifies L a
     then exists p ps,
         quoted_at L user a w p w'
         /\ tbl' = AddRow tbl (accountsCells L user a p)
         /\ fetches L ps w w'
         /\ (~ parses L "" -> ps = [price_path (pair_of user a) Spot])
     else tbl' = tbl /\ w' = w.
Proof.
  unfold accountsRow, qualifies, parses, accountsCells, quoted_at, pair_of, balance,
    value_of.
  intros H.
  destruct (ParseFloat L (Amount (acct_Balance a))) as [amt err] eqn:Epf.
  cbn [fst snd] in *.
  run_errHandler H. split; [reflexivity|].
  destruct (0 <? amt)%float.
  - run_step H as [spotPrice err] w1 E. run_errHandler H.
    destruct (ParseFloat L (price_Amount (Price_Data spotPrice))) as [sAmt err1] eqn:Es.
    run_errHandler H. injection H as <- <-.
    assert (Hp : parses L (price_Amount (Price_Data spotPrice)))
      by (unfold parses; now rewrite Es).
    destruct (quote_fetched L _ _ _ _ _ _ E Hp) as (ps & Hn & Hn1).
    exists spotPrice, ps. rewrite Es. cbn [fst snd].
    split; [split; [exact E|exact Hp]|]. split; [reflexivity|]. split; assumption.
  - now injection H as <- <-.
Qed.

Lemma accounts_loop_inv (L : GoLib) (user : User) (accts : list AccountEntry) :
  forall (tbl0 : Table) (w : World) (tbl : Table) (w' : World),
    foldM (accountsRow L user) accts tbl0 w = (Ret tbl, w') ->
    Forall (fun a => parses L (Amount (acct_Balance a))) accts
    /\ exists (ps : list Price) (paths : list string),
        in_turn (quoted_at L user) (filter (qualifies L) accts) w ps w'
        /\ header tbl = header tbl0
        /\ rows tbl = (rows tbl0 ++
                       map (fun ap => accountsCells L user (fst ap) (snd ap))
                           (combine (filter (qualifies L) accts) ps))%list
        /\ fetches L paths w w'
        /\ (~ parses L "" ->
            paths = map (fun a => price_path (pair_of user a) Spot)
                        (filter (qualifies L) accts)).
Proof.
  induction accts as [|a accts IH]; intros tbl0 w tbl w' H.
  - injection H as <- <-. split; [constructor|].
    exists [], []. cbn [filter combine map]. rewrite app_nil_r.
    split; [constructor|]. split; [reflexivity|]. split; [reflexivity|].
    split; [apply fetches_refl|reflexivity].
  - cbn [foldM] in H. run_step H as tbl1 w1 E.
    apply accountsRow_inv in E. destruct E as [Hp E].
    apply IH in H. destruct H as (Hps & ps & paths & Hf & Hh & Hr & Hn & Hc).
    split; [now constructor|].
    cbn [filter]. destruct (qualifies L a).
    + destruct E as (p & paths1 & Hq & -> & Hn1 & Hc1).
      exists (p :: ps), (paths1 ++ paths)%list. cbn [combine map fst snd].
      split; [exact (in_turn_cons _ _ _ _ _ _ _ _ Hq Hf)|]. split; [exact Hh|].
      split; [rewrite Hr; cbn [rows AddRow]; now rewrite <- app_assoc|].
      split; [exact (fetches_trans _ _ _ _ _ _ Hn1 Hn)|].
      intros Hne. rewrite (Hc1 Hne), (Hc Hne). reflexivity.
    + destruct E as [-> ->]. exists ps, paths. auto.
Qed.

(** The run of Accounts mode, read backwards. *)
Lemma getCoinbaseAccounts_inv (L : GoLib) (w w' : World) :
  getCoinbaseAccounts L w = (Ret tt, w') ->
  exists (user : User) (acts : Account) (ps : list Price) (w1 w2 w3 : World)
         (pre : list Event),
    let held := filter (qualifies L) (Account_Data acts) in
    GetUserProfile L (snd (APIKeyClient w)) = (Ret (user, None), w1)
    /\ GetAccount L w1 = (Ret (acts, None), w2)
    /\ in_turn (quoted_at L user) held
         (snd (emit (EvWgAdd (Z.of_nat (List.length (Account_Data acts)))) w2)) ps w3
    /\ Forall (fun a => parses L (Amount (acct_Balance a))) (Account_Data acts)
    /\ trace w3 = (trace w ++ pre)%list
    /\ existsb is_table pre = false
    /\ trace w'
       = (trace w3 ++
          [ EvPrintTable
              {| header := ["Wallet"; "Balance"; "Native"];
                 rows := map (fun ap => accountsCells L user (fst ap) (snd ap))
                             (combine held ps) |} ])%list.
Proof.
  unfold getCoinbaseAccounts. intros H.
  run_step H as [] w0 E0. pose proof (left_world _ _ _ _ E0) as ->.
  apply APIKeyClient_trace in E0.
  run_step H as [user err] w1 Euser. run_errHandler H.
  run_step H as [acts err] w3 Eacts. run_errHandler H.
  run_step H as [] w5 Eadd. pose proof (left_world _ _ _ _ Eadd) as ->.
  apply emit_trace in Eadd.
  run_step H as tbl w6 Eloop. apply emit_trace in H.
  destruct (accounts_loop_inv L user _ _ _ _ _ Eloop)
    as (Hp & ps & paths & Hf & Hh & Hr & (_ & d3 & Hd3 & Hw3 & _) & _).
  destruct (GetUserProfile_fetches L _ _ _ Euser) as (_ & d1 & Hd1 & Hw1 & _).
  destruct (GetAccount_fetches L _ _ _ Eacts) as (_ & d2 & Hd2 & Hw2 & _).
  exists user, acts, ps, w1, w3, w6,
    (d1 ++ d2 ++ EvWgAdd (Z.of_nat (List.length (Account_Data acts))) :: d3)%list.
  cbn zeta. split; [exact Euser|]. split; [exact Eacts|]. split; [exact Hf|].
  split; [exact Hp|].
  split.
  { rewrite Hd3, Eadd, Hd2, Hd1, E0.
    repeat (rewrite <- app_assoc; cbn [app]). reflexivity. }
  split.
  { rewrite !existsb_app. cbn [existsb is_table].
    assert (Hq : forall d, forallb is_wire d = true -> existsb is_table d = false).
    { clear. induction d as [|e d IH]; [reflexivity|]. cbn.
      intros Hd. apply andb_true_iff in Hd. destruct Hd as [He Hd].
      rewrite (IH Hd). now destruct e. }
    now rewrite !Hq. }
  destruct tbl as [hd rs]. cbn [header rows table_New app] in Hh, Hr. subst hd rs.
  rewrite H. reflexivity.
Qed.

(** X7. When Accounts mode completes, the last thing it did was to print
    its only table, headed Wallet, Balance, Native: one row per account
    of the list it fetched whose parsed balance is greater than 0, in
    list order, holding the name of the account, its balance as the
    service spelled it, and spot quote * balance formatted with two
    decimals and followed by the native currency of the profile.  The
    profile is the one [GetUserProfile] returned to this run, right
    after the credentials were loaded, the list the one [GetAccount]
    then returned to it, and the quotes are the prices [GetPrice]
    returned to it for the pair of each such account and the kind
    "spot", asked account after account once the wait group had been
    given the length of the list. *)
Theorem accounts_table (L : GoLib) (w w' : World) :
  getCoinbaseAccounts L w = (Ret tt, w') ->
  exists (user : User) (acts : Account) (ps : list Price) (w1 w2 w3 : World)
         (pre : list Event),
    let held := filter (qualifies L) (Account_Data acts) in
    GetUserProfile L (snd (APIKeyClient w)) = (Ret (user, None), w1)
    /\ GetAccount L w1 = (Ret (acts, None), w2)
    /\ in_turn (quoted_at L user) held
         (snd (emit (EvWgAdd (Z.of_nat (List.length (Account_Data acts)))) w2)) ps w3
    /\ trace w3 = (trace w ++ pre)%list
    /\ existsb is_table pre = false
    /\ trace w'
       = (trace w3 ++
          [ EvPrintTable
              {| header := ["Wallet"; "Balance"; "Native"];
                 rows := map (fun ap => accountsCells L user (fst ap) (snd ap))
                             (combine held ps) |} ])%list.
Proof.
  intros H.
  destruct (getCoinbaseAccounts_inv L w w' H)
    as (user & acts & ps & w1 & w2 & w3 & pre & Hall).
  cbn zeta in Hall. destruct Hall as (Hu & Ha & Hq & _ & Hpre & Ht & Hw).
  exists user, acts, ps, w1, w2, w3, pre. cbn zeta. auto 10.
Qed.

Lemma accounts_table_witness :
  exists (user : User) (acts : Account) (ps : list Price) (w1 w2 w3 : World)
         (pre : list Event),
    let held := filter (qualifies Fixture.lib) (Account_Data acts) in
    GetUserProfile Fixture.lib (snd (APIKeyClient Fixture.w_healthy))
    = (Ret (user, None), w1)
    /\ GetAccount Fixture.lib w1 = (Ret (acts, None), w2)
    /\ in_turn (quoted_at Fixture.lib user) held
         (snd (emit (EvWgAdd (Z.of_nat (List.length (Account_Data acts)))) w2)) ps w3
    /\ trace w3 = (trace Fixture.w_healthy ++ pre)%list
    /\ existsb is_table pre = false
    /\ trace (snd (getCoinbaseAccounts Fixture.lib Fixture.w_healthy))
       = (trace w3 ++
          [ EvPrintTable
              {| header := ["Wallet"; "Balance"; "Native"];
                 rows := map (fun ap => accountsCells Fixture.lib user (fst ap) (snd ap))
                             (combine held ps) |} ])%list.
Proof.
  assert (Hf : fst (getCoinbaseAccounts Fixture.lib Fixture.w_healthy) = Ret tt)
    by (vm_compute; reflexivity).
  assert (H : getCoinbaseAccounts Fixture.lib Fixture.w_healthy
              = (Ret tt, snd (getCoinbaseAccounts Fixture.lib Fixture.w_healthy)))
    by (rewrite <- Hf; apply surjective_pairing).
  exact (accounts_table Fixture.lib Fixture.w_healthy _ H).
Defined.

(** Accounts mode on the fixture: 1.0 BTC at a spot quote of 30000.00 USD;
    the empty ETH wallet has no row. *)
Example accounts_end_to_end :
  filter is_table (trace (snd (getCoinbaseAccounts Fixture.lib Fixture.w_healthy)))
  = [ EvPrintTable
        {| header := ["Wallet"; "Balance"; "Native"];
           rows := [[CString "BTC Wallet"; CString "1.0"; CString "30000.00 USD"]] |} ].
Proof. vm_compute. reflexivity. Qed.

Lemma overviewHolding_fetches (L : GoLib) (user : User) (act : AccountEntry) (amt : float)
      (w w' : World) (h : Holding) :
  overviewHolding L user act amt w = (Ret h, w') ->
  exists ps, fetches L ps w w' /\ (~ parses L "" -> ps = holding_paths user act).
Proof.
  unfold overviewHolding. intros H.
  run_step H as [spotPrice err] w1 E1. run_errHandler H.
  destruct (ParseFloat L (price_Amount (Price_Data spotPrice))) as [spotAmt err1] eqn:P1.
  run_errHandler H.
  run_step H as [buyPrice err2] w4 E2. run_errHandler H.
  destruct (ParseFloat L (price_Amount (Price_Data buyPrice))) as [bpAmt err3] eqn:P2.
  run_errHandler H.
  run_step H as [sellPrice err4] w7 E3. run_errHandler H.
  destruct (ParseFloat L (price_Amount (Price_Data sellPrice))) as [sellAmt err5] eqn:P3.
  run_errHandler H.
  run_step H as [transactions err6] w10 E4. run_errHandler H.
  run_step H as [invested inflationRewards] w12 E5.
  apply sumTransactions_inv in E5. destruct E5 as [-> _].
  injection H as _ <-.
  assert (Q1 : parses L (price_Amount (Price_Data spotPrice)))
    by (unfold parses; now rewrite P1).
  assert (Q2 : parses L (price_Amount (Price_Data buyPrice)))
    by (unfold parses; now rewrite P2).
  assert (Q3 : parses L (price_Amount (Price_Data sellPrice)))
    by (unfold parses; now rewrite P3).
  destruct (quote_fetched L _ _ _ _ _ _ E1 Q1) as (n1 & F1 & C1).
  destruct (quote_fetched L _ _ _ _ _ _ E2 Q2) as (n2 & F2 & C2).
  destruct (quote_fetched L _ _ _ _ _ _ E3 Q3) as (n3 & F3 & C3).
  apply GetTransactionHistory_fetches in E4.
  exists (n1 ++ n2 ++ n3 ++ [history_path (acct_ID act)])%list. split.
  - exact (fetches_trans _ _ _ _ _ _ F1
             (fetches_trans _ _ _ _ _ _ F2 (fetches_trans _ _ _ _ _ _ F3 E4))).
  - intros Hne. rewrite (C1 Hne), (C2 Hne), (C3 Hne). reflexivity.
Qed.

Lemma overviewAccount_fetches (L : GoLib) (user : User) (a : AccountEntry)
      (st st' : Table * float * float) (w w' : World) :
  overviewAccount L user st a w = (Ret st', w') ->
  exists ps, fetches L ps w w'
             /\ (~ parses L "" ->
                 ps = if qualifies L a then holding_paths user a else []).
Proof.
  unfold overviewAccount, qualifies, balance, value_of. intros H.
  destruct st as [[tbl tso] tr].
  destruct (ParseFloat L (Amount (acct_Balance a))) as [amt err].
  cbn [fst]. run_errHandler H.
  destruct (0 <? amt)%float.
  - run_step H as h w2 E. injection H as _ <-.
    exact (overviewHolding_fetches L _ _ _ _ _ _ E).
  - injection H as _ <-. exists []. split; [apply fetches_refl|reflexivity].
Qed.

Lemma overview_loop_fetches (L : GoLib) (user : User) (accts : list AccountEntry) :
  forall (st st' : Table * float * float) (w w' : World),
    foldM (overviewAccount L user) accts st w = (Ret st', w') ->
    exists ps, fetches L ps w w'
               /\ (~ parses L "" ->
                   ps = flat_map (holding_paths user) (filter (qualifies L) accts)).
Proof.
  induction accts as [|a accts IH]; intros st st' w w' H.
  - injection H as _ <-. exists []. split; [apply fetches_refl|reflexivity].
  - cbn [foldM] in H. run_step H as st1 w1 E.
    apply overviewAccount_fetches in E. destruct E as (n1 & F1 & C1).
    apply IH in H. destruct H as (n & F & C).
    exists (n1 ++ n)%list. split; [exact (fetches_trans _ _ _ _ _ _ F1 F)|].
    intros Hne. rewrite (C1 Hne), (C Hne). cbn [filter].
    destruct (qualifies L a); reflexivity.
Qed.

(** The runtime visits every element once. *)
Lemma remove_nth_Permutation {A} (l : list A) :
  forall (i : nat) (x : A),
    (i < List.length l)%nat -> Permutation (nth i l x :: remove_nth i l) l.
Proof.
  induction l as [|h t IH]; intros i x Hi; [cbn in Hi; lia|].
  destruct i as [|i]; cbn [nth remove_nth]; [reflexivity|].
  cbn [List.length] in Hi.
  apply (perm_trans (l' := h :: nth i t x :: remove_nth i t)); [apply perm_swap|].
  apply perm_skip. apply IH. lia.
Qed.

Lemma run_order_Permutation {A} (pick : nat -> nat) (fuel : nat) :
  forall (k : nat) (l : list A),
    List.length l = fuel -> Permutation (run_order fuel pick k l) l.
Proof.
  induction fuel as [|fuel IH]; intros k l Hl.
  - destruct l; [reflexivity|discriminate].
  - destruct l as [|x t]; [discriminate|].
    cbn [run_order].
    set (i := (pick k mod List.length (x :: t))%nat).
    assert (Hi : (i < List.length (x :: t))%nat)
      by (apply Nat.mod_upper_bound; discriminate).
    pose proof (remove_nth_Permutation (x :: t) i x Hi) as Hp.
    apply (perm_trans (l' := nth i (x :: t) x :: remove_nth i (x :: t))); [|exact Hp].
    apply perm_skip. apply IH.
    apply Permutation_length in Hp. cbn [List.length] in Hp, Hl. lia.
Qed.

(** The history that [GetTransactionHistory] returns with a nil error is
    what it made of the body of a round trip of its own, answered 200. *)
Lemma GetTransactionHistory_answered (L : GoLib) (accountId : string) (w w' : World)
      (t : Transaction) :
  GetTransactionHistory L accountId w = (Ret (t, None), w') ->
  exists d req res body,
    trace w' = (trace w ++ d)%list
    /\ In (EvDo req res) d
    /\ url_of L (history_path accountId) (Url req)
    /\ answer res = (body, None)
    /\ t = history_of L body.
Proof.
  unfold GetTransactionHistory. intros H. run_step H as [body e] w1 E.
  destruct e as [e|]; [discriminate|].
  assert (Ht : t = history_of L body /\ w' = w1).
  { unfold history_of.
    destruct (Unmarshal_Transaction L body) as [u [e|]]; now injection H as <- <-. }
  destruct Ht as [-> ->]. clear H.
  fold (history_path accountId) in E.
  destruct (http_NewRequest L "GET" (apiEndpointBase ++ history_path accountId))
    as [req0|e] eqn:Hreq.
  - destruct (createRequest_run L _ w req0 Hreq) as [Hr Ha].
    cbv zeta in Hr, Ha. unfold adds in Ha. rewrite E in Hr, Ha. cbn [fst snd] in Hr, Ha.
    injection Hr as Hr.
    eexists. eexists. eexists. exists body.
    split; [exact Ha|]. split; [right; right; left; reflexivity|].
    split; [|split; [now rewrite <- Hr|reflexivity]].
    unfold url_of. unfold http_NewRequest in Hreq.
    destruct (url_Parse L (apiEndpointBase ++ history_path accountId)) as [u|e];
      [|discriminate].
    now injection Hreq as <-.
  - rewrite (createRequest_unsent L _ w e Hreq) in E. discriminate.
Qed.

Lemma listed_in_incl (L : GoLib) (d d' : list Event) (accountId : string) :
  incl d d' -> listed_in L d accountId -> listed_in L d' accountId.
Proof.
  intros Hi (req & res & body & Hin & H). exists req, res, body. split; [|exact H].
  now apply Hi.
Qed.

Lemma wire_backstage (d : list Event) :
  forallb is_wire d = true ->
  filter is_launch d = [] /\ filter is_done d = [] /\ existsb is_wait_or_table d = false.
Proof.
  induction d as [|e d IH]; [auto|]. cbn [forallb filter existsb].
  intros H. apply andb_true_iff in H. destruct H as [He Hd].
  destruct (IH Hd) as (-> & -> & ->). now destruct e.
Qed.

(** The steps of a goroutine, taken one after the other without another
    goroutine in between, are the body of the function literal as it is
    written, [GetTransactionHistory] and [errHandler] included. *)
Lemma uninterrupted_step (L : GoLib) (k : nat) (tbl tbl' : Table) (g g' : Goroutine)
      (w w' : World) :
  goroutine_step L tbl g w = (Ret (tbl', Some g'), w') ->
  uninterrupted L (S k) tbl g w = uninterrupted L k tbl' g' w'.
Proof. intros H. cbn [uninterrupted]. unfold bind. now rewrite H. Qed.

Lemma uninterrupted_report (L : GoLib) (k : nat) (tbl : Table) (e : error) (w : World) :
  uninterrupted L (S k) tbl (AtReport e) w
  = bind (errHandler (Some e)) (fun _ => ret tbl) w.
Proof. destruct k; reflexivity. Qed.

Lemma uninterrupted_range (L : GoLib) (rest : list TransactionEntry) :
  forall (tbl : Table) (w : World),
    uninterrupted L (S (S (List.length rest))) tbl (AtRange rest) w
    = bind (foldM (transactionsRow L) rest tbl)
           (fun tbl => bind (emit EvWgDone) (fun _ => ret tbl)) w.
Proof.
  induction rest as [|t rest IH]; intros tbl w; [reflexivity|].
  cbn [List.length uninterrupted foldM goroutine_step].
  unfold transactionsRow at 1.
  destruct (ParseFloat L (Amount (tr_Amount t))) as [tAmt [e|]].
  - reflexivity.
  - exact (IH _ w).
Qed.

Lemma goroutine_uninterrupted (L : GoLib) (tbl : Table) (accountID : string) (w : World) :
  exists k, uninterrupted L k tbl (AtFetch accountID) w = transactionsWorker L tbl accountID w.
Proof.
  destruct (http_NewRequest L "GET" (apiEndpointBase ++ history_path accountID))
    as [req0|err] eqn:Hreq.
  - set (w1 := snd (time_Now w)).
    set (sig := spec_signature (cbAPISecret w) (Method req0) (Path (Url req0))
                  (Unix (clock w (clock_reads w)))).
    set (req := with_auth req0 (cbAPIKey w1) sig
                  (Sprint_int (Unix (clock w1 (clock_reads w1))))).
    set (w2 := snd (time_Now w1)).
    assert (E1 : goroutine_step L tbl (AtFetch accountID) w
                 = (Ret (tbl, Some (AtHeaders accountID req0 sig)), w1)).
    { cbn [goroutine_step]. fold (history_path accountID). now rewrite Hreq. }
    assert (E2 : goroutine_step L tbl (AtHeaders accountID req0 sig) w1
                 = (Ret (tbl, Some (AtDo accountID req)), w2)) by reflexivity.
    pose proof (goroutine_step_Do L tbl accountID req w2) as E3.
    change (remote w2 (round_trips w2) req)
      with (remote w (round_trips w) (dispatched req0 w)) in E3.
    assert (Hw : snd (http_Do req w2) = snd (createRequest L (history_path accountID) w)).
    { rewrite (createRequest_world L _ w req0 Hreq).
      unfold http_Do, w2, w1, time_Now.
      cbn [fst snd trace clock clock_reads remote round_trips cbAPIKey cbAPISecret
           environ scheduler].
      rewrite <- !app_assoc. reflexivity. }
    rewrite Hw in E3.
    assert (Hc : createRequest L (history_path accountID) w
                 = (Ret (answer (remote w (round_trips w) (dispatched req0 w))),
                    snd (createRequest L (history_path accountID) w))).
    { rewrite (surjective_pairing (createRequest L (history_path accountID) w)) at 1.
      now rewrite createRequest_answer, Hreq. }
    set (wc := snd (createRequest L (history_path accountID) w)) in *.
    unfold transactionsWorker, GetTransactionHistory.
    fold (history_path accountID). unfold bind at 1 2. rewrite Hc.
    unfold answered in E3.
    destruct (answer (remote w (round_trips w) (dispatched req0 w))) as [body [e|]].
    + exists 4%nat.
      rewrite (uninterrupted_step L _ _ _ _ _ _ _ E1), (uninterrupted_step L _ _ _ _ _ _ _ E2),
        (uninterrupted_step L _ _ _ _ _ _ _ E3), uninterrupted_report.
      reflexivity.
    + destruct (Unmarshal_Transaction L body) as [t [e|]].
      * exists 5%nat.
        rewrite (uninterrupted_step L _ _ _ _ _ _ _ E1),
          (uninterrupted_step L _ _ _ _ _ _ _ E2), (uninterrupted_step L _ _ _ _ _ _ _ E3).
        exact (uninterrupted_range L [] tbl wc).
      * exists (S (S (S (S (S (List.length (Transaction_Data t))))))).
        rewrite (uninterrupted_step L _ _ _ _ _ _ _ E1),
          (uninterrupted_step L _ _ _ _ _ _ _ E2), (uninterrupted_step L _ _ _ _ _ _ _ E3).
        exact (uninterrupted_range L _ tbl wc).
  - exists 2%nat.
    assert (E1 : goroutine_step L tbl (AtFetch accountID) w
                 = (Ret (tbl, Some (AtReport err)), w)).
    { cbn [goroutine_step]. fold (history_path accountID). now rewrite Hreq. }
    rewrite (uninterrupted_step L _ _ _ _ _ _ _ E1), uninterrupted_report.
    unfold transactionsWorker, GetTransactionHistory.
    fold (history_path accountID). unfold bind at 2 3.
    rewrite (createRequest_unsent L _ w err Hreq). reflexivity.
Qed.

Lemma pool_move_addressed (L : GoLib) (p p1 : Pool) (w w1 : World) :
  pool_move L p w p1 w1 ->
  Forall (addressed L) (goroutines p) -> Forall (addressed L) (goroutines p1).
Proof.
  intros H Ha. destruct H; cbn [goroutines] in *.
  - exact Ha.
  - apply Forall_app. split; [exact Ha|now repeat constructor].
  - apply (Forall_context _ _ _ _ _ Ha). exact I.
  - apply (Forall_context _ _ _ _ _ Ha). cbn [addressed].
    unfold http_NewRequest in H.
    destruct (url_Parse L (apiEndpointBase ++ "accounts/" ++ accountID ++ "/transactions"))
      as [u|e]; [|discriminate].
    now injection H as <-.
  - apply (Forall_context _ _ _ _ _ Ha).
    exact (Forall_context_here _ _ _ _ Ha).
  - apply (Forall_context _ _ _ _ _ Ha). unfold answered.
    now destruct (answer (remote w (round_trips w) req)) as [body [e|]].
  - apply (Forall_context _ _ _ _ _ Ha). exact I.
  - apply (Forall_context _ _ _ _ _ Ha). exact I.
  - exact (Forall_context_out _ _ _ _ Ha).
  - apply (Forall_context _ _ _ _ _ Ha). exact I.
Qed.

(** A sequence of moves after which the loop is over and every
    goroutine has returned, read backwards from any of its states [p]:
    what the pool did from there on.  It made one round trip for each
    account whose goroutine was still to be started or had not made its
    round trip, and every answer was one with which a goroutine returns;
    the calling goroutine did what was left of its loop; every goroutine
    of [p] called [wg.Done()], and none was inside [errHandler]. *)
Lemma pool_run_complete (L : GoLib) (p p' : Pool) (w w' : World) :
  pool_run L p w p' w' ->
  Forall (addressed L) (goroutines p) ->
  ready p' = O ->
  exists (d : list Event) (order : list string),
    trace w' = (trace w ++ d)%list
    /\ round_trips w' = (round_trips w + List.length order)%nat
    /\ Permutation order (pending (launcher p) ++ fetch_ids (goroutines p))
    /\ Forall2 (url_of L) (map history_path order) (urls d)
    /\ Forall (listed_in L d) order
    /\ filter is_launch d = launches (launcher p)
    /\ List.length (filter is_done d)
       = (List.length (pending (launcher p)) + List.length (goroutines p))%nat
    /\ existsb is_wait_or_table d = false
    /\ header (shared p') = header (shared p)
    /\ Forall (returning L) (goroutines p).
Proof.
  induction 1 as [p w|p w p1 w1 p' w' Hm Hrun IH]; intros Ha Hr.
  - destruct (ready_none p Hr) as [Hl Hg]. exists [], []. rewrite Hl, Hg, app_nil_r.
    cbn. repeat split; try constructor. lia.
  - destruct (IH (pool_move_addressed L _ _ _ _ Hm Ha) Hr)
      as (d & order & Hd & Hn & Hp & Hu & Hli & Hla & Hdo & Hx & Hh & Hret).
    clear IH.
    assert (Hlater : forall e, Forall (listed_in L (e :: d)) order).
    { intros e. eapply Forall_impl; [|exact Hli]. intros a.
      apply listed_in_incl, incl_tl, incl_refl. }
    destruct Hm; cbn [launcher goroutines shared pending launches] in *.
    + exists (EvWgAdd 1 :: d), order.
      split; [rewrite Hd; cbn [emit snd trace]; now rewrite <- app_assoc|].
      split; [exact Hn|]. split; [exact Hp|]. split; [exact Hu|].
      split; [apply Hlater|].
      cbn [filter is_launch is_done existsb is_wait_or_table orb flat_map app].
      rewrite Hla. auto.
    + exists (EvGo id :: d), order.
      split; [rewrite Hd; cbn [emit snd trace]; now rewrite <- app_assoc|].
      split; [exact Hn|].
      split.
      { rewrite fetch_ids_app, app_assoc in Hp. cbn [fetch_ids fetch_id flat_map app] in Hp.
        apply (perm_trans Hp).
        apply Permutation_sym.
        exact (Permutation_cons_append (ids ++ fetch_ids gs) id). }
      split; [exact Hu|]. split; [apply Hlater|].
      cbn [filter is_launch is_done existsb is_wait_or_table orb List.length].
      rewrite Hla. rewrite length_app in Hdo. cbn [List.length] in Hdo.
      split; [reflexivity|]. split; [lia|]. split; [exact Hx|]. split; [exact Hh|].
      apply Forall_app in Hret. tauto.
    + destruct (Forall_context_here _ _ _ _ Hret).
    + exists (EvNow (clock w (clock_reads w)) :: d), order.
      split; [rewrite Hd; cbn [time_Now snd trace]; now rewrite <- app_assoc|].
      split; [exact Hn|].
      split; [rewrite fetch_ids_context in Hp |- *; exact Hp|].
      split; [exact Hu|]. split; [apply Hlater|].
      cbn [filter is_launch is_done existsb is_wait_or_table orb].
      rewrite !length_app in *. cbn [List.length] in *.
      split; [exact Hla|]. split; [exact Hdo|]. split; [exact Hx|]. split; [exact Hh|].
      apply (Forall_context _ _ _ _ _ Hret). exact I.
    + exists (EvNow (clock w (clock_reads w)) :: d), order.
      split; [rewrite Hd; cbn [time_Now snd trace]; now rewrite <- app_assoc|].
      split; [exact Hn|].
      split; [rewrite fetch_ids_context in Hp |- *; exact Hp|].
      split; [exact Hu|]. split; [apply Hlater|].
      cbn [filter is_launch is_done existsb is_wait_or_table orb].
      rewrite !length_app in *. cbn [List.length] in *.
      split; [exact Hla|]. split; [exact Hdo|]. split; [exact Hx|]. split; [exact Hh|].
      apply (Forall_context _ _ _ _ _ Hret). exact I.
    + pose proof (Forall_context_here _ _ _ _ Hret) as Hg.
      pose proof (Forall_context_here _ _ _ _ Ha) as Hurl. cbn [addressed] in Hurl.
      set (res := remote w (round_trips w) req) in *.
      unfold answered in Hg, Hp.
      destruct (answer res) as [body [e|]] eqn:Hans; [contradiction|].
      cbn [returning] in Hg.
      exists (EvDo req res :: d), (accountID :: order).
      split; [rewrite Hd; cbn [http_Do snd trace]; now rewrite <- app_assoc|].
      split; [rewrite Hn; cbn [http_Do snd round_trips List.length]; lia|].
      split.
      { rewrite fetch_ids_context in Hp |- *. cbn [fetch_id app] in Hp |- *.
        rewrite app_assoc in Hp |- *.
        exact (Permutation_cons_app _ _ accountID Hp). }
      split; [cbn [urls flat_map map app]; constructor; [exact Hurl|exact Hu]|].
      split.
      { constructor; [|apply Hlater].
        exists req, res, body. split; [now left|]. split; [exact Hurl|].
        split; [exact Hans|exact Hg]. }
      cbn [filter is_launch is_done existsb is_wait_or_table orb].
      rewrite !length_app in *. cbn [List.length] in *.
      split; [exact Hla|]. split; [exact Hdo|]. split; [exact Hx|]. split; [exact Hh|].
      apply (Forall_context _ _ _ _ _ Hret). exact I.
    + exists d, order.
      split; [exact Hd|]. split; [exact Hn|].
      split; [rewrite fetch_ids_context in Hp |- *; exact Hp|].
      split; [exact Hu|]. split; [exact Hli|]. split; [exact Hla|].
      rewrite !length_app in *. cbn [List.length] in *.
      split; [exact Hdo|]. split; [exact Hx|]. split; [exact Hh|].
      pose proof (Forall_context_here _ _ _ _ Hret) as Hg.
      apply (Forall_context _ _ _ _ _ Hret).
      cbn [returning] in *. constructor; [|exact Hg].
      unfold parses. now rewrite H.
    + destruct (Forall_context_here _ _ _ _ Hret).
    + exists (EvWgDone :: d), order.
      split; [rewrite Hd; cbn [emit snd trace]; now rewrite <- app_assoc|].
      split; [exact Hn|].
      split.
      { rewrite fetch_ids_app in Hp. rewrite fetch_ids_context. exact Hp. }
      split; [exact Hu|]. split; [apply Hlater|].
      cbn [filter is_launch is_done existsb is_wait_or_table orb List.length].
      rewrite !length_app in *. cbn [List.length].
      split; [exact Hla|]. split; [lia|]. split; [exact Hx|]. split; [exact Hh|].
      apply Forall_app in Hret. destruct Hret as [Hret1 Hret2].
      apply Forall_app. split; [exact Hret1|]. constructor; [constructor|exact Hret2].
    + destruct (Forall_context_here _ _ _ _ Hret).
Qed.

Lemma flat_map_of_map {A B C} (f : A -> B) (g : B -> list C) (l : list A) :
  flat_map g (map f l) = flat_map (fun a => g (f a)) l.
Proof. induction l as [|a l IH]; [reflexivity|]. cbn [map flat_map]. now rewrite IH. Qed.

Lemma APIKeyClient_round_trips (w w' : World) (o : Outcome unit) :
  APIKeyClient w = (o, w') -> round_trips w' = round_trips w.
Proof. intros [= _ <-]. reflexivity. Qed.

Lemma emit_round_trips (e : Event) (w w' : World) (o : Outcome unit) :
  emit e w = (o, w') -> round_trips w' = round_trips w.
Proof. intros [= _ <-]. reflexivity. Qed.

Lemma run_ret {A} (m : M A) (w : World) (a : A) :
  fst (m w) = Ret a -> m w = (Ret a, snd (m w)).
Proof. intros H. rewrite <- H. apply surjective_pairing. Qed.

(** The run of Transactions mode, read backwards. *)
Lemma getCoinbaseTransactions_inv (L : GoLib) (w w' : World) :
  getCoinbaseTransactions L w = (Ret tt, w') ->
  exists (accounts : Account) (w1 : World) (order : list string) (d : list Event)
         (tbl : Table),
    GetAccount L (snd (APIKeyClient w)) = (Ret (accounts, None), w1)
    /\ Permutation order (map acct_ID (Account_Data accounts))
    /\ round_trips w' = (round_trips w1 + List.length (Account_Data accounts))%nat
    /\ header tbl = ["Transaction Type"; "Crypto"; "Amount"; "Date";
                     "Payment Method"; "Summary"]
    /\ trace w' = (trace w1 ++ d ++ [EvWgWait; EvPrintTable tbl])%list
    /\ filter is_launch d
       = flat_map (fun a => [EvWgAdd 1; EvGo (acct_ID a)]) (Account_Data accounts)
    /\ List.length (filter is_done d) = List.length (Account_Data accounts)
    /\ existsb is_wait_or_table d = false
    /\ Forall2 (url_of L) (map history_path order) (urls d)
    /\ Forall (fun a => listed_in L d (acct_ID a)) (Account_Data accounts).
Proof.
  unfold getCoinbaseTransactions. intros H.
  run_step H as [] w0 E0. pose proof (left_world _ _ _ _ E0) as ->. clear E0.
  run_step H as [accounts err] w1 Eacc. run_errHandler H.
  cbv zeta in H. run_step H as tbl w2 Ef.
  run_step H as [] w3 Ewait.
  pose proof (emit_round_trips _ _ _ _ Ewait) as Hr3. apply emit_trace in Ewait.
  pose proof (emit_round_trips _ _ _ _ H) as Hr'. apply emit_trace in H.
  set (ids := map acct_ID (Account_Data accounts)) in *.
  assert (Hids : List.length ids = List.length (Account_Data accounts))
    by apply length_map.
  assert (Hn : (unfetched {| launcher := AtAdd ids; goroutines := [];
                             shared := table_New ["Transaction Type"; "Crypto"; "Amount";
                                                  "Date"; "Payment Method"; "Summary"] |}
                <= List.length ids)%nat).
  { unfold unfetched, fetch_ids. cbn [launcher goroutines pending flat_map List.length].
    lia. }
  pose proof (fan_out_sound L _ 0 _ w1 Hn) as Hs. rewrite Ef in Hs.
  cbn [fan_out_spec] in Hs. destruct Hs as (p' & Hrun & Hready & <-).
  destruct (pool_run_complete L _ _ _ _ Hrun (Forall_nil _) Hready)
    as (d & order & Hd & Hrt & Hp & Hu & Hli & Hla & Hdo & Hx & Hh & _).
  cbn [launcher goroutines shared pending launches fetch_ids flat_map List.length
       table_New header] in *.
  rewrite app_nil_r in Hp.
  exists accounts, w1, order, d, (shared p').
  split; [exact Eacc|]. split; [exact Hp|].
  split; [rewrite Hr', Hr3, Hrt, (Permutation_length Hp); lia|].
  split; [exact Hh|].
  split; [rewrite H, Ewait, Hd; repeat (rewrite <- app_assoc; cbn [app]); reflexivity|].
  split.
  { rewrite Hla.
    exact (flat_map_of_map acct_ID (fun id => [EvWgAdd 1; EvGo id])
             (Account_Data accounts)). }
  split; [lia|]. split; [exact Hx|]. split; [exact Hu|].
  apply Forall_map with (f := acct_ID) (P := listed_in L d).
  exact (Permutation_Forall Hp Hli).
Qed.

(** X8. When Transactions mode completes: with [accounts] the list that
    [GetAccount] returned to this run, right after the credentials were
    loaded, the calling goroutine then called [wg.Add(1)] and launched
    one goroutine with the id of the account, for every account of that
    list, whatever its balance and in the order of the list, and
    launched nothing else; [wg.Done] ran as many times as there are
    accounts before [wg.Wait] returned; the wait returned once, and the
    only table of the mode, headed Transaction Type, Crypto, Amount,
    Date, Payment Method, Summary, was printed right after it, as the
    last thing the mode did. *)
Theorem transactions_fan_out (L : GoLib) (w w' : World) :
  getCoinbaseTransactions L w = (Ret tt, w') ->
  exists (accounts : Account) (w1 : World) (d : list Event) (tbl : Table),
    GetAccount L (snd (APIKeyClient w)) = (Ret (accounts, None), w1)
    /\ header tbl = ["Transaction Type"; "Crypto"; "Amount"; "Date";
                     "Payment Method"; "Summary"]
    /\ trace w' = (trace w1 ++ d ++ [EvWgWait; EvPrintTable tbl])%list
    /\ filter is_launch d
       = flat_map (fun a => [EvWgAdd 1; EvGo (acct_ID a)]) (Account_Data accounts)
    /\ List.length (filter is_done d) = List.length (Account_Data accounts)
    /\ existsb is_wait_or_table d = false.
Proof.
  intros H.
  destruct (getCoinbaseTransactions_inv L w w' H)
    as (accounts & w1 & order & d & tbl & Ha & _ & _ & Hh & Ht & Hl & Hd & Hx & _).
  exists accounts, w1, d, tbl. auto 10.
Qed.

Lemma transactions_fan_out_witness :
  exists (accounts : Account) (w1 : World) (d : list Event) (tbl : Table),
    GetAccount Fixture.lib (snd (APIKeyClient Fixture.w_healthy))
    = (Ret (accounts, None), w1)
    /\ header tbl = ["Transaction Type"; "Crypto"; "Amount"; "Date";
                     "Payment Method"; "Summary"]
    /\ trace (snd (getCoinbaseTransactions Fixture.lib Fixture.w_healthy))
       = (trace w1 ++ d ++ [EvWgWait; EvPrintTable tbl])%list
    /\ filter is_launch d
       = flat_map (fun a => [EvWgAdd 1; EvGo (acct_ID a)]) (Account_Data accounts)
    /\ List.length (filter is_done d) = List.length (Account_Data accounts)
    /\ existsb is_wait_or_table d = false.
Proof.
  assert (Hf : fst (getCoinbaseTransactions Fixture.lib Fixture.w_healthy) = Ret tt)
    by (vm_compute; reflexivity).
  assert (H : getCoinbaseTransactions Fixture.lib Fixture.w_healthy
              = (Ret tt, snd (getCoinbaseTransactions Fixture.lib Fixture.w_healthy)))
    by (rewrite <- Hf; apply surjective_pairing).
  exact (transactions_fan_out Fixture.lib Fixture.w_healthy _ H).
Defined.

(** X14. When Transactions mode completes: with [accounts] the list that
    [GetAccount] returned to this run, the mode then made exactly one
    round trip per account of that list, whatever its balance, for the
    resource path accounts/ID/transactions of the account, in the order
    in which the goroutines made them (some permutation of the list), and
    no other; and each of these requests was answered 200 with a body
    every transaction of which (as [GetTransactionHistory] reads it) has
    an amount that parses: an amount that [strconv.ParseFloat] rejects
    goes to [errHandler] and the mode does not complete. *)
Theorem transactions_requests (L : GoLib) (w w' : World) :
  getCoinbaseTransactions L w = (Ret tt, w') ->
  exists (accounts : Account) (w1 : World) (order : list string) (d : list Event),
    GetAccount L (snd (APIKeyClient w)) = (Ret (accounts, None), w1)
    /\ Permutation order (map acct_ID (Account_Data accounts))
    /\ round_trips w' = (round_trips w1 + List.length (Account_Data accounts))%nat
    /\ trace w' = (trace w1 ++ d)%list
    /\ Forall2 (url_of L) (map history_path order) (urls d)
    /\ Forall (fun a => listed_in L d (acct_ID a)) (Account_Data accounts).
Proof.
  intros H.
  destruct (getCoinbaseTransactions_inv L w w' H)
    as (accounts & w1 & order & d & tbl & Ha & Hp & Hn & _ & Ht & _ & _ & _ & Hu & Hl).
  exists accounts, w1, order, (d ++ [EvWgWait; EvPrintTable tbl])%list.
  split; [exact Ha|]. split; [exact Hp|]. split; [exact Hn|]. split; [exact Ht|].
  split.
  - rewrite urls_app. cbn [urls flat_map app]. now rewrite app_nil_r.
  - eapply Forall_impl; [|exact Hl]. intros a Hla.
    apply (listed_in_incl L d); [apply incl_appl, incl_refl|exact Hla].
Qed.

Lemma transactions_requests_witness :
  exists (accounts : Account) (w1 : World) (order : list string) (d : list Event),
    GetAccount Fixture.lib (snd (APIKeyClient Fixture.w_healthy))
    = (Ret (accounts, None), w1)
    /\ Permutation order (map acct_ID (Account_Data accounts))
    /\ round_trips (snd (getCoinbaseTransactions Fixture.lib Fixture.w_healthy))
       = (round_trips w1 + List.length (Account_Data accounts))%nat
    /\ trace (snd (getCoinbaseTransactions Fixture.lib Fixture.w_healthy))
       = (trace w1 ++ d)%list
    /\ Forall2 (url_of Fixture.lib) (map history_path order) (urls d)
    /\ Forall (fun a => listed_in Fixture.lib d (acct_ID a)) (Account_Data accounts).
Proof.
  assert (Hf : fst (getCoinbaseTransactions Fixture.lib Fixture.w_healthy) = Ret tt)
    by (vm_compute; reflexivity).
  exact (transactions_requests Fixture.lib Fixture.w_healthy _ (run_ret _ _ _ Hf)).
Defined.

(** Transactions mode on the fixture: a goroutine for the BTC wallet and
    one for the empty ETH wallet. *)
Example transactions_on_the_fixture :
  filter (fun e => negb (is_wire e))
         (trace (snd (getCoinbaseTransactions Fixture.lib Fixture.w_healthy)))
  = [ EvWgAdd 1; EvGo "a-btc"; EvWgAdd 1; EvGo "a-eth"; EvWgDone; EvWgDone; EvWgWait;
      EvPrintTable
        {| header := ["Transaction Type"; "Crypto"; "Amount"; "Date";
                      "Payment Method"; "Summary"];
           rows := [[CString "buy"; CString "BTC"; CFloat 1;
                     CTime 1612137600000000000; CString "Bank";
                     CString "Bought 1.0 BTC"]] |} ].
Proof. vm_compute. reflexivity. Qed.

Lemma emit_requested (L : GoLib) (e : Event) (w w' : World) (o : Outcome unit) :
  emit e w = (o, w') -> urls [e] = [] -> requested L [] w w'.
Proof.
  intros H Hu.
  exact (requested_nothing L w w' [e] (emit_round_trips _ _ _ _ H) (emit_trace _ _ _ _ H) Hu).
Qed.

Lemma APIKeyClient_requested (L : GoLib) (w w' : World) (o : Outcome unit) :
  APIKeyClient w = (o, w') -> requested L [] w w'.
Proof.
  intros H. apply (requested_nothing L w w' []); [|rewrite app_nil_r|reflexivity].
  - exact (APIKeyClient_round_trips _ _ _ H).
  - exact (APIKeyClient_trace _ _ _ H).
Qed.

Lemma getCoinbaseOverview_requested (L : GoLib) (w w' : World) :
  getCoinbaseOverview L w = (Ret tt, w') ->
  exists (user : User) (account : Account) (w1 w2 : World) (paths : list string),
    GetUserProfile L (snd (APIKeyClient w)) = (Ret (user, None), w1)
    /\ GetAccount L (snd (fmt_Println (User_String L user) w1)) = (Ret (account, None), w2)
    /\ requested L ("user" :: "accounts" :: paths) w w'
    /\ (~ parses L "" ->
        paths = flat_map (holding_paths user) (filter (qualifies L) (Account_Data account))).
Proof.
  unfold getCoinbaseOverview. intros H.
  run_step H as [] w0 E0. pose proof (left_world _ _ _ _ E0) as Hw0.
  apply (APIKeyClient_requested L) in E0.
  run_step H as [user err] w1 Euser. run_errHandler H.
  run_step H as [] w3 Eprint. pose proof (left_world _ _ _ _ Eprint) as Hw3.
  apply (emit_requested L) in Eprint; [|reflexivity].
  run_step H as [account err] w4 Eaccount. run_errHandler H.
  run_step H as [[tbl tso] tr] w6 Eloop.
  run_step H as [] w7 Etable. apply (emit_requested L) in Etable; [|reflexivity].
  run_step H as [] w8 Etotal. apply (emit_requested L) in Etotal; [|reflexivity].
  apply (emit_requested L) in H; [|reflexivity].
  destruct (overview_loop_fetches L user _ _ _ _ _ Eloop) as (paths & Hloop & Hc).
  pose proof (fetches_requested _ _ _ _ (GetUserProfile_fetches L _ _ _ Euser)) as H1.
  pose proof (fetches_requested _ _ _ _ (GetAccount_fetches L _ _ _ Eaccount)) as H2.
  apply fetches_requested in Hloop.
  exists user, account, w1, w4, paths.
  split; [now rewrite <- Hw0|]. split; [now rewrite <- Hw3|]. split; [|exact Hc].
  pose proof (requested_trans _ _ _ _ _ _ E0
               (requested_trans _ _ _ _ _ _ H1
                 (requested_trans _ _ _ _ _ _ Eprint
                   (requested_trans _ _ _ _ _ _ H2
                     (requested_trans _ _ _ _ _ _ Hloop
                       (requested_trans _ _ _ _ _ _ Etable
                         (requested_trans _ _ _ _ _ _ Etotal H))))))) as Hall.
  cbn [app] in Hall. now rewrite app_nil_r in Hall.
Qed.

Lemma getCoinbaseAccounts_requested (L : GoLib) (w w' : World) :
  getCoinbaseAccounts L w = (Ret tt, w') ->
  exists (user : User) (acts : Account) (w1 w2 : World) (paths : list string),
    GetUserProfile L (snd (APIKeyClient w)) = (Ret (user, None), w1)
    /\ GetAccount L w1 = (Ret (acts, None), w2)
    /\ requested L ("user" :: "accounts" :: paths) w w'
    /\ (~ parses L "" ->
        paths = map (fun a => price_path (pair_of user a) Spot)
                    (filter (qualifies L) (Account_Data acts))).
Proof.
  unfold getCoinbaseAccounts. intros H.
  run_step H as [] w0 E0. pose proof (left_world _ _ _ _ E0) as Hw0.
  apply (APIKeyClient_requested L) in E0.
  run_step H as [user err] w1 Euser. run_errHandler H.
  run_step H as [acts err] w3 Eacts. run_errHandler H.
  run_step H as [] w5 Eadd. apply (emit_requested L) in Eadd; [|reflexivity].
  run_step H as tbl w6 Eloop. apply (emit_requested L) in H; [|reflexivity].
  destruct (accounts_loop_inv L user _ _ _ _ _ Eloop)
    as (_ & ps & paths & _ & _ & _ & Hloop & Hc).
  pose proof (fetches_requested _ _ _ _ (GetUserProfile_fetches L _ _ _ Euser)) as H1.
  pose proof (fetches_requested _ _ _ _ (GetAccount_fetches L _ _ _ Eacts)) as H2.
  apply fetches_requested in Hloop.
  exists user, acts, w1, w3, paths.
  split; [now rewrite <- Hw0|]. split; [exact Eacts|]. split; [|exact Hc].
  pose proof (requested_trans _ _ _ _ _ _ E0
               (requested_trans _ _ _ _ _ _ H1
                 (requested_trans _ _ _ _ _ _ H2
                   (requested_trans _ _ _ _ _ _ Eadd
                     (requested_trans _ _ _ _ _ _ Hloop H))))) as Hall.
  cbn [app] in Hall. now rewrite app_nil_r in Hall.
Qed.

(** X9. The requests of Overview mode and of Accounts mode when they
    complete, given that the empty string does not parse as a number (as
    with [strconv.ParseFloat]).  With [user] the profile that
    [GetUserProfile] returned to the run and [account] the list that
    [GetAccount] then returned to it, Overview mode requested, one round
    trip each and in this order, the resource paths user and accounts
    and then, for each account of that list whose balance is greater
    than 0, prices/PAIR/spot, prices/PAIR/buy, prices/PAIR/sell and
    accounts/ID/transactions, PAIR being the currency of the account, a
    hyphen and the native currency of that profile.  Accounts mode
    requested user, accounts and then prices/PAIR/spot for each such
    account.  Neither made any other round trip. *)
Theorem requests_of_a_mode (L : GoLib) (w : World) :
  ~ parses L "" ->
  (fst (getCoinbaseOverview L w) = Ret tt ->
   exists user account w1 w2,
     GetUserProfile L (snd (APIKeyClient w)) = (Ret (user, None), w1)
     /\ GetAccount L (snd (fmt_Println (User_String L user) w1)) = (Ret (account, None), w2)
     /\ requested L
          ("user" :: "accounts"
           :: flat_map (holding_paths user) (filter (qualifies L) (Account_Data account)))
          w (snd (getCoinbaseOverview L w)))
  /\ (fst (getCoinbaseAccounts L w) = Ret tt ->
      exists user acts w1 w2,
        GetUserProfile L (snd (APIKeyClient w)) = (Ret (user, None), w1)
        /\ GetAccount L w1 = (Ret (acts, None), w2)
        /\ requested L
             ("user" :: "accounts"
              :: map (fun a => price_path (pair_of user a) Spot)
                     (filter (qualifies L) (Account_Data acts)))
             w (snd (getCoinbaseAccounts L w))).
Proof.
  intros Hne. split; intros H; apply run_ret in H.
  - destruct (getCoinbaseOverview_requested L _ _ H)
      as (user & account & w1 & w2 & paths & Hu & Ha & Hr & Hc).
    exists user, account, w1, w2. rewrite (Hc Hne) in Hr. auto.
  - destruct (getCoinbaseAccounts_requested L _ _ H)
      as (user & acts & w1 & w2 & paths & Hu & Ha & Hr & Hc).
    exists user, acts, w1, w2. rewrite (Hc Hne) in Hr. auto.
Qed.

Lemma requests_of_a_mode_witness :
  (exists user account w1 w2,
      GetUserProfile Fixture.lib (snd (APIKeyClient Fixture.w_healthy))
      = (Ret (user, None), w1)
      /\ GetAccount Fixture.lib (snd (fmt_Println (User_String Fixture.lib user) w1))
         = (Ret (account, None), w2)
      /\ requested Fixture.lib
           ("user" :: "accounts"
            :: flat_map (holding_paths user)
                 (filter (qualifies Fixture.lib) (Account_Data account)))
           Fixture.w_healthy (snd (getCoinbaseOverview Fixture.lib Fixture.w_healthy)))
  /\ (exists user acts w1 w2,
        GetUserProfile Fixture.lib (snd (APIKeyClient Fixture.w_healthy))
        = (Ret (user, None), w1)
        /\ GetAccount Fixture.lib w1 = (Ret (acts, None), w2)
        /\ requested Fixture.lib
             ("user" :: "accounts"
              :: map (fun a => price_path (pair_of user a) Spot)
                     (filter (qualifies Fixture.lib) (Account_Data acts)))
             Fixture.w_healthy (snd (getCoinbaseAccounts Fixture.lib Fixture.w_healthy))).
Proof.
  assert (Hne : ~ parses Fixture.lib "") by (vm_compute; discriminate).
  destruct (requests_of_a_mode Fixture.lib Fixture.w_healthy Hne) as (H1 & H2).
  split; [apply H1 | apply H2]; vm_compute; reflexivity.
Defined.

(** On the fixture, with one wallet holding a balance and one empty: the
    six requests of Overview mode, the three of Accounts mode and the
    three of Transactions mode. *)
Example requests_on_the_fixture :
  map Path (urls (trace (snd (getCoinbaseOverview Fixture.lib Fixture.w_healthy))))
  = ["/v2/user"; "/v2/accounts"; "/v2/prices/BTC-USD/spot"; "/v2/prices/BTC-USD/buy";
     "/v2/prices/BTC-USD/sell"; "/v2/accounts/a-btc/transactions"]
  /\ map Path (urls (trace (snd (getCoinbaseAccounts Fixture.lib Fixture.w_healthy))))
     = ["/v2/user"; "/v2/accounts"; "/v2/prices/BTC-USD/spot"]
  /\ map Path (urls (trace (snd (getCoinbaseTransactions Fixture.lib Fixture.w_healthy))))
     = ["/v2/accounts"; "/v2/accounts/a-btc/transactions";
        "/v2/accounts/a-eth/transactions"].
Proof. repeat split; vm_compute; reflexivity. Qed.
(** ** The stringer of the exchange rates *)

Lemma forallb_Permutation {A} (f : A -> bool) (l l' : list A) :
  Permutation l l' -> forallb f l = forallb f l'.
Proof.
  induction 1 as [|x l l' _ IH|x y l|l l' l'' _ IH1 _ IH2]; cbn [forallb].
  - reflexivity.
  - now rewrite IH.
  - destruct (f x), (f y); reflexivity.
  - congruence.
Qed.

Lemma ExchangeRate_rows (currency : string) (entries : list (string * JSON)) (w : World) :
  forallb (fun kv => is_JString (snd kv)) entries = true ->
  forall tbl,
    foldM (ExchangeRate_String_row currency) entries tbl w
    = (Ret {| header := header tbl;
              rows := (rows tbl ++ map (ExchangeRate_cells currency) entries)%list |}, w).
Proof.
  induction entries as [|[k v] entries IH]; intros Hs tbl.
  - cbn. rewrite app_nil_r. now destruct tbl.
  - cbn [forallb snd] in Hs. apply andb_true_iff in Hs. destruct Hs as [Hv Hs].
    destruct v; try discriminate.
    cbn [foldM]. unfold bind. unfold ExchangeRate_String_row at 1.
    unfold bind. cbn [assert_string ret].
    rewrite (IH Hs).
    cbn [AddRow header rows map ExchangeRate_cells fst snd].
    now rewrite <- app_assoc.
Qed.

Lemma ExchangeRate_rows_panic (currency : string) (entries : list (string * JSON))
      (w : World) :
  forallb (fun kv => is_JString (snd kv)) entries = false ->
  forall tbl, exists err,
    foldM (ExchangeRate_String_row currency) entries tbl w = (Panic err, w).
Proof.
  induction entries as [|[k v] entries IH]; intros Hs tbl; [discriminate|].
  cbn [forallb snd] in Hs. cbn [foldM]. unfold bind.
  unfold ExchangeRate_String_row at 1. unfold bind.
  destruct v; cbn [is_JString andb] in Hs; cbn [assert_string panic ret];
    try (eexists; reflexivity).
  apply (IH Hs).
Qed.

(** X10. [ExchangeRate.String] returns only for a document of the shape
    it expects; for any other it panics, handing no error to its caller.
    When the map holds an object under "data", and this object a string
    under "currency" and an object under "rates" whose values are all
    strings, the stringer returns the rendering of a table headed
    Currency, Crypto, Rate with one row (currency, key, rate) per entry
    of the rates, in the order in which the runtime visits the map, and
    leaves the world alone.  When "data", "currency" or "rates" is
    absent, null or of another type (the nil map that [GetExchangeRate]
    returns with an error included), or when some rate is not a string (a
    number, say), it panics on the failed type assertion. *)
Theorem ExchangeRate_String_shape (L : GoLib) (e : ExchangeRate) (w : World) :
  match rates_of e with
  | Some (currency, rates) =>
      if forallb (fun kv => is_JString (snd kv)) rates
      then exists entries,
          Permutation entries rates
          /\ ExchangeRate_String L e w
             = (Ret (table_render L
                       {| header := ["Currency"; "Crypto"; "Rate"];
                          rows := map (ExchangeRate_cells currency) entries |}), w)
      else exists err, ExchangeRate_String L e w = (Panic err, w)
  | None => exists err, ExchangeRate_String L e w = (Panic err, w)
  end.
Proof.
  unfold rates_of.
  destruct (map_index e "data") as [[| | | | |data]|] eqn:Ed;
    try (eexists; unfold ExchangeRate_String, bind; rewrite Ed; reflexivity).
  destruct (map_index data "currency") as [[| | |currency| |]|] eqn:Ec;
    try (eexists; unfold ExchangeRate_String, bind; rewrite Ed;
         cbn [assert_map ret]; rewrite Ec; reflexivity).
  destruct (map_index data "rates") as [[| | | | |rates]|] eqn:Er;
    try (eexists; unfold ExchangeRate_String, bind; rewrite Ed;
         cbn [assert_map ret]; rewrite Ec; cbn [assert_string ret]; rewrite Er;
         reflexivity).
  unfold ExchangeRate_String, bind. rewrite Ed. cbn [assert_map ret].
  rewrite Ec. cbn [assert_string ret]. rewrite Er.
  cbn [assert_map ret range_map go_order].
  set (entries := run_order (List.length rates) (scheduler w) 0 rates).
  assert (Hp : Permutation entries rates)
    by (apply run_order_Permutation; reflexivity).
  rewrite <- (forallb_Permutation _ _ _ Hp).
  destruct (forallb (fun kv => is_JString (snd kv)) entries) eqn:Hs.
  - exists entries. split; [exact Hp|].
    rewrite (ExchangeRate_rows currency entries w Hs). reflexivity.
  - destruct (ExchangeRate_rows_panic currency entries w Hs
                (table_New ["Currency"; "Crypto"; "Rate"])) as [err He].
    exists err. now rewrite He.
Qed.

(** On the fixture: a well-formed document gives its two rows, in some
    order; a rate sent as a number and the nil map make the stringer
    panic, with the messages of the runtime. *)
Example ExchangeRate_String_on_the_fixture :
  rates_of Fixture.rates_value
  = Some ("BTC", [("USD", JString "30000.00"); ("EUR", JString "27000.00")])
  /\ fst (ExchangeRate_String Fixture.lib Fixture.rates_with_a_number Fixture.w_healthy)
     = Panic "interface conversion: interface {} is float64, not string"
  /\ fst (ExchangeRate_String Fixture.lib [] Fixture.w_healthy)
     = Panic "interface conversion: interface {} is nil, not map[string]interface {}".
Proof. repeat split; vm_compute; reflexivity. Qed.

(** ** The numbers of a completed run *)

Lemma sumTransaction_parsed (L : GoLib) (acc acc' : float * float) (t : TransactionEntry)
      (w w' : World) :
  sumTransaction L acc t w = (Ret acc', w') ->
  parses L (Amount (tr_NativeAmount t)) /\ parses L (Amount (tr_Amount t)).
Proof.
  unfold sumTransaction, parses. destruct acc as [invested inflationRewards].
  destruct (ParseFloat L (Amount (tr_NativeAmount t))) as [trNcAmt err1].
  destruct (ParseFloat L (Amount (tr_Amount t))) as [trAmt err2].
  intros H. run_errHandler H. run_errHandler H. auto.
Qed.

Lemma sumTransactions_parsed (L : GoLib) (txs : list TransactionEntry) :
  forall (acc acc' : float * float) (w w' : World),
    foldM (sumTransaction L) txs acc w = (Ret acc', w') ->
    Forall (fun t => parses L (Amount (tr_NativeAmount t))
                     /\ parses L (Amount (tr_Amount t))) txs.
Proof.
  induction txs as [|t txs IH]; intros acc acc' w w' H; [constructor|].
  cbn [foldM] in H. run_step H as acc1 w1 E.
  constructor; [exact (sumTransaction_parsed L _ _ _ _ _ E)|exact (IH _ _ _ _ H)].
Qed.

Lemma overviewHolding_vetted (L : GoLib) (user : User) (act : AccountEntry) (amt : float)
      (w w' : World) (h : Holding) :
  overviewHolding L user act amt w = (Ret h, w') ->
  exists history, vetted_at L user act w history w'.
Proof.
  unfold overviewHolding, vetted_at, pair_of. intros H.
  run_step H as [spotPrice err] w1 E1. run_errHandler H.
  destruct (ParseFloat L (price_Amount (Price_Data spotPrice))) as [spotAmt err1] eqn:P1.
  run_errHandler H.
  run_step H as [buyPrice err2] w4 E2. run_errHandler H.
  destruct (ParseFloat L (price_Amount (Price_Data buyPrice))) as [bpAmt err3] eqn:P2.
  run_errHandler H.
  run_step H as [sellPrice err4] w7 E3. run_errHandler H.
  destruct (ParseFloat L (price_Amount (Price_Data sellPrice))) as [sellAmt err5] eqn:P3.
  run_errHandler H.
  run_step H as [transactions err6] w10 E4. run_errHandler H.
  run_step H as [invested inflationRewards] w12 E5.
  pose proof (sumTransactions_parsed L _ _ _ _ _ E5) as Hparsed.
  apply sumTransactions_inv in E5. destruct E5 as [-> _].
  injection H as _ <-.
  exists transactions, spotPrice, buyPrice, sellPrice, w1, w4, w7.
  unfold parses. rewrite P1, P2, P3. cbn [snd].
  repeat (split; [first [assumption | reflexivity]|]). exact Hparsed.
Qed.

Lemma overview_loop_vetted (L : GoLib) (user : User) (accts : list AccountEntry) :
  forall (st st' : Table * float * float) (w w' : World),
    foldM (overviewAccount L user) accts st w = (Ret st', w') ->
    exists histories : list Transaction,
      in_turn (vetted_at L user) (filter (qualifies L) accts) w histories w'.
Proof.
  induction accts as [|a accts IH]; intros st st' w w' H.
  - injection H as _ <-. exists []. constructor.
  - cbn [foldM] in H. run_step H as st1 w1 E.
    apply IH in H. destruct H as (histories & H). cbn [filter].
    unfold overviewAccount, qualifies, balance, value_of in *.
    destruct st as [[tbl tso] tr].
    destruct (ParseFloat L (Amount (acct_Balance a))) as [amt err].
    cbn [fst] in *. run_errHandler E.
    destruct (0 <? amt)%float.
    + run_step E as h w2 Eh. injection E as _ <-.
      destruct (overviewHolding_vetted L _ _ _ _ _ _ Eh) as (history & Hv).
      exists (history :: histories).
      exact (in_turn_cons _ _ _ _ _ _ _ _ Hv H).
    + injection E as _ <-. now exists histories.
Qed.

(** X11. A mode completes only if every number it read parsed: a string
    that [strconv.ParseFloat] rejects goes to [errHandler] and stops it.
    The profile and the list are those that [GetUserProfile] and
    [GetAccount] returned to this run, and the quotes and histories those
    that [GetPrice] and [GetTransactionHistory] returned to it, asked
    account after account from the world the list left.  When Overview
    mode completes, the balance of every account of that list parsed,
    also of the accounts that get no row, and for each account with a
    balance greater than 0 the spot, buy and sell quotes parsed and so
    did both amounts of every transaction of its history, whatever the
    type of the transaction.  When Accounts mode completes, every balance
    parsed and so did the spot quote of each account with a balance
    greater than 0. *)
Theorem completed_mode_parsed_every_number (L : GoLib) (w : World) :
  (fst (getCoinbaseOverview L w) = Ret tt ->
   exists (user : User) (account : Account) (histories : list Transaction)
          (w1 w2 w3 : World),
     GetUserProfile L (snd (APIKeyClient w)) = (Ret (user, None), w1)
     /\ GetAccount L (snd (fmt_Println (User_String L user) w1)) = (Ret (account, None), w2)
     /\ Forall (fun a => parses L (Amount (acct_Balance a))) (Account_Data account)
     /\ in_turn (vetted_at L user) (filter (qualifies L) (Account_Data account))
          w2 histories w3)
  /\ (fst (getCoinbaseAccounts L w) = Ret tt ->
      exists (user : User) (acts : Account) (ps : list Price) (w1 w2 w3 : World),
        GetUserProfile L (snd (APIKeyClient w)) = (Ret (user, None), w1)
        /\ GetAccount L w1 = (Ret (acts, None), w2)
        /\ Forall (fun a => parses L (Amount (acct_Balance a))) (Account_Data acts)
        /\ in_turn (quoted_at L user) (filter (qualifies L) (Account_Data acts))
             (snd (emit (EvWgAdd (Z.of_nat (List.length (Account_Data acts)))) w2))
             ps w3).
Proof.
  split; intros H; apply run_ret in H.
  - unfold getCoinbaseOverview in H.
    run_step H as [] w0 E0. apply left_world in E0. subst w0.
    run_step H as [user err] w1 Euser. run_errHandler H.
    run_step H as [] w3 Eprint. apply left_world in Eprint. subst w3.
    run_step H as [account err] w4 Eaccount. run_errHandler H.
    run_step H as [[tbl tso] tr] w6 Eloop.
    destruct (overview_loop_vetted L user _ _ _ _ _ Eloop) as (histories & Hv).
    exists user, account, histories, w1, w4, w6.
    split; [exact Euser|]. split; [exact Eaccount|]. split; [|exact Hv].
    exact (proj1 (overview_loop_totals L user _ _ _ _ _ _ _ _ _ Eloop)).
  - destruct (getCoinbaseAccounts_inv L _ _ H)
      as (user & acts & ps & w1 & w2 & w3 & pre & Hu & Ha & Hq & Hp & _).
    exists user, acts, ps, w1, w2, w3. auto.
Qed.

(** On the fixture: a wallet whose balance is not a number stops Accounts
    mode with status 1 before any table is printed. *)
Example odd_balance_stops_accounts_mode :
  let acts := {| Account_Data := [Fixture.btc_account; Fixture.odd_account] |} in
  let run := foldM (accountsRow Fixture.lib Fixture.user_value) (Account_Data acts)
               (table_New ["Wallet"; "Balance"; "Native"]) in
  fst (run Fixture.w_healthy) = Exit 1
  /\ filter (fun e => match e with EvStderr _ => true | _ => false end)
            (trace (snd (run Fixture.w_healthy)))
     = [EvStderr (Fixture.syntax_error (Amount (acct_Balance Fixture.odd_account)) ++ newline)].
Proof. split; vm_compute; reflexivity. Qed.

(** ** The elapsed time *)

Lemma orderly_extends {A} (L : GoLib) (env : string -> string) (strict pre post : bool)
      (m : M A) (w : World) :
  orderly L env strict pre post m ->
  environ w = env -> pre = false ->
  exists d, trace (snd (m w)) = (trace w ++ d)%list.
Proof.
  intros Hm Henv ->. destruct (Hm w Henv) as (d & Ha & _); [discriminate|].
  now exists d.
Qed.

(** X12. When a run of the command returns, the last things it did were
    to print an empty line, to read the clock, and to print the line
    Elapsed Run Time: followed by the duration from the first clock
    reading of the run, taken before any mode started, to that last
    reading, taken after the last mode returned. *)
Theorem elapsed_time_covers_the_run (L : GoLib) (listTransactions listAccounts : bool)
        (w w' : World) :
  coinbaseCmd_Run L listTransactions listAccounts w = (Ret tt, w') ->
  exists (modes : list Event) (now : Time),
    let start := clock w (clock_reads w) in
    trace w'
    = (trace w ++ EvNow start :: modes ++
       [EvStdout newline; EvNow now;
        EvStdout ("Elapsed Run Time: " ++ Duration_String L (now - start) ++ newline)])%list.
Proof.
  unfold coinbaseCmd_Run, dispatch. intros H.
  run_step H as start w0 E0.
  assert (Hs : start = clock w (clock_reads w)
               /\ trace w0 = (trace w ++ [EvNow (clock w (clock_reads w))])%list)
    by (injection E0 as <- <-; auto).
  destruct Hs as [-> Hd0]. clear E0.
  run_step H as [] w1 E1. run_step H as [] w2 E2. run_step H as [] w3 E3.
  run_step H as [] w4 E4. apply emit_trace in E4.
  run_step H as now w5 E5.
  assert (Hn : trace w5 = (trace w4 ++ [EvNow now])%list)
    by (injection E5 as <- <-; auto).
  clear E5. apply emit_trace in H.
  assert (X1 : exists d, trace w1 = (trace w0 ++ d)%list).
  { destruct listTransactions.
    - pose proof (orderly_extends L (environ w0) false false true
                    (getCoinbaseTransactions L) w0
                    (orderly_getCoinbaseTransactions L (environ w0) false false eq_refl)
                    eq_refl eq_refl)
        as (d & Hd). rewrite E1 in Hd. now exists d.
    - injection E1 as <-. exists []. now rewrite app_nil_r. }
  destruct X1 as (d1 & Hd1).
  assert (X2 : exists d, trace w2 = (trace w1 ++ d)%list).
  { destruct listAccounts.
    - pose proof (orderly_extends L (environ w1) false false true
                    (getCoinbaseAccounts L) w1
                    (orderly_getCoinbaseAccounts L (environ w1) false false)
                    eq_refl eq_refl)
        as (d & Hd). rewrite E2 in Hd. now exists d.
    - injection E2 as <-. exists []. now rewrite app_nil_r. }
  destruct X2 as (d2 & Hd2).
  assert (X3 : exists d, trace w3 = (trace w2 ++ d)%list).
  { destruct (negb listAccounts && negb listTransactions).
    - pose proof (orderly_extends L (environ w2) false false true
                    (getCoinbaseOverview L) w2
                    (orderly_getCoinbaseOverview L (environ w2) false false)
                    eq_refl eq_refl)
        as (d & Hd). rewrite E3 in Hd. now exists d.
    - injection E3 as <-. exists []. now rewrite app_nil_r. }
  destruct X3 as (d3 & Hd3).
  exists (d1 ++ d2 ++ d3)%list, now. cbn zeta.
  rewrite H, Hn, E4, Hd3, Hd2, Hd1, Hd0.
  cbn [append].
  repeat (rewrite <- app_assoc; cbn [app]). reflexivity.
Qed.

Lemma elapsed_time_covers_the_run_witness :
  exists (modes : list Event) (now : Time),
    let start := clock Fixture.w_ticking (clock_reads Fixture.w_ticking) in
    trace (snd (coinbaseCmd_Run Fixture.lib false true Fixture.w_ticking))
    = (trace Fixture.w_ticking ++ EvNow start :: modes ++
       [EvStdout newline; EvNow now;
        EvStdout ("Elapsed Run Time: "
                  ++ Duration_String Fixture.lib (now - start) ++ newline)])%list.
Proof.
  assert (Hf : fst (coinbaseCmd_Run Fixture.lib false true Fixture.w_ticking) = Ret tt)
    by (vm_compute; reflexivity).
  exact (elapsed_time_covers_the_run Fixture.lib false true Fixture.w_ticking _
           (run_ret _ _ _ Hf)).
Defined.

(** ** One table or none *)

Lemma wire_no_table (d : list Event) : forallb is_wire d = true -> filter is_table d = [].
Proof.
  induction d as [|e d IH]; [reflexivity|]. cbn [forallb filter].
  intros H. apply andb_true_iff in H. destruct H as [He Hd].
  rewrite (IH Hd). now destruct e.
Qed.

Lemma existsb_filter_nil {A} (f : A -> bool) (l : list A) :
  existsb f l = false -> filter f l = [].
Proof.
  induction l as [|x l IH]; [reflexivity|]. cbn [existsb filter].
  intros H. apply orb_false_iff in H. destruct H as [-> Hl]. exact (IH Hl).
Qed.

Lemma getCoinbaseOverview_one_table (L : GoLib) (w w' : World) :
  getCoinbaseOverview L w = (Ret tt, w') ->
  exists d, trace w' = (trace w ++ d)%list /\ List.length (filter is_table d) = 1%nat.
Proof.
  unfold getCoinbaseOverview. intros H.
  run_step H as [] w0 E0. apply APIKeyClient_trace in E0.
  run_step H as [user err] w1 Euser. run_errHandler H.
  run_step H as [] w3 Eprint. apply emit_trace in Eprint.
  run_step H as [account err] w4 Eaccount. run_errHandler H.
  run_step H as [[tbl tso] tr] w6 Eloop.
  run_step H as [] w7 Etable. apply emit_trace in Etable.
  run_step H as [] w8 Etotal. apply emit_trace in Etotal.
  apply emit_trace in H.
  destruct (overview_loop_fetches L user _ _ _ _ _ Eloop)
    as (paths & (_ & d3 & Hd3 & Hw3 & _) & _).
  destruct (GetUserProfile_fetches L _ _ _ Euser) as (_ & d1 & Hd1 & Hw1 & _).
  destruct (GetAccount_fetches L _ _ _ Eaccount) as (_ & d2 & Hd2 & Hw2 & _).
  eexists. split.
  - rewrite H, Etotal, Etable, Hd3, Hd2, Eprint, Hd1, E0.
    repeat (rewrite <- app_assoc; cbn [app]). reflexivity.
  - rewrite !filter_app. cbn [filter is_table app].
    rewrite !filter_app, (wire_no_table _ Hw1), (wire_no_table _ Hw2), (wire_no_table _ Hw3).
    reflexivity.
Qed.

Section OneTable.

Variable L : GoLib.

Let nothing : Event -> bool := fun _ => false.
Let table_plain :
  forall e, is_table e = false -> is_go_or_wait e = false -> is_table e = false :=
  fun e H _ => H.

Lemma nothing_non200 : forall e, nothing e = true -> is_non200 e = true.
Proof. discriminate. Qed.

Lemma nothing_parse : (exists e, nothing e = true) -> ~ parses L "".
Proof. intros [e He]. discriminate. Qed.

(** From what a mode that stops guarantees and what a mode that returns
    has added. *)
Lemma one_table_or_none_intro (m : M unit) :
  settles_by is_table nothing m ->
  (forall w w', m w = (Ret tt, w') ->
     exists d, trace w' = (trace w ++ d)%list
               /\ List.length (filter is_table d) = 1%nat) ->
  one_table_or_none m.
Proof.
  intros Hs Hr w. destruct (Hs w) as (d & Ha & Ho).
  destruct (m w) as [[[]|c|e] w'] eqn:E; cbn [fst snd] in *.
  - destruct (Hr w w' E) as (d' & Hd' & Hl). exists d'. unfold adds. rewrite E. auto.
  - exists d. unfold adds in *. rewrite E in *. split; [exact Ha|].
    apply existsb_filter_nil. apply Ho.
  - contradiction.
Qed.

End OneTable.

(** X13. A mode prints its table once or not at all.  Overview mode,
    Accounts mode and Transactions mode each print exactly one table
    when they complete, and none when they stop the process, whatever
    made them stop: an error of the transport, a body that cannot be
    read, a status other than 200, a URL that does not parse, a body
    that does not decode or a number that does not parse.  No mode
    leaves a partial table behind. *)
Theorem modes_print_one_table_or_none (L : GoLib) :
  one_table_or_none (getCoinbaseOverview L)
  /\ one_table_or_none (getCoinbaseAccounts L)
  /\ one_table_or_none (getCoinbaseTransactions L).
Proof.
  split; [|split]; apply one_table_or_none_intro.
  - apply (settles_getCoinbaseOverview L is_table (fun _ => false));
      [auto|apply nothing_non200|apply (nothing_parse L)].
  - exact (getCoinbaseOverview_one_table L).
  - apply (settles_getCoinbaseAccounts L is_table (fun _ => false));
      [auto|apply nothing_non200|apply (nothing_parse L)].
  - intros w w' H.
    destruct (getCoinbaseAccounts_inv L w w' H)
      as (user & acts & ps & w1 & w2 & w3 & pre & Hall).
    cbn zeta in Hall. destruct Hall as (_ & _ & _ & _ & Hpre & Hnone & Ht).
    eexists. split; [rewrite Ht, Hpre, <- app_assoc; reflexivity|].
    rewrite filter_app, (existsb_filter_nil _ _ Hnone). reflexivity.
  - apply (settles_getCoinbaseTransactions L is_table (fun _ => false));
      [auto|apply nothing_non200|reflexivity|reflexivity].
  - intros w w' H.
    destruct (getCoinbaseTransactions_inv L w w' H)
      as (accounts & w1 & order & d & tbl & Ha & _ & _ & _ & Ht & _ & _ & Hx & _).
    destruct (GetAccount_fetches L _ _ _ Ha) as (_ & d1 & Hd1 & Hw1 & _).
    rewrite (APIKeyClient_trace w _ _ (surjective_pairing _)) in Hd1.
    exists (d1 ++ d ++ [EvWgWait; EvPrintTable tbl])%list.
    split; [rewrite Ht, Hd1, <- app_assoc; reflexivity|].
    rewrite !filter_app, (wire_no_table _ Hw1). cbn [filter is_table app].
    assert (Hd : filter is_table d = []).
    { apply existsb_filter_nil. clear - Hx.
      induction d as [|e d IH]; [reflexivity|]. cbn [existsb] in *.
      apply orb_false_iff in Hx. destruct Hx as [He Hd].
      rewrite (IH Hd). now destruct e. }
    now rewrite Hd.
Qed.

(** On the fixture: one table when the service is healthy, none when the
    spot quote is missing or the profile endpoint is down. *)
Example one_table_or_none_on_the_fixture :
  List.length (filter is_table
                 (trace (snd (getCoinbaseOverview Fixture.lib Fixture.w_healthy)))) = 1%nat
  /\ fst (getCoinbaseOverview Fixture.lib Fixture.w_spot_missing) = Exit 1
  /\ filter is_table (trace (snd (getCoinbaseOverview Fixture.lib Fixture.w_spot_missing)))
     = []
  /\ fst (getCoinbaseAccounts Fixture.lib Fixture.w_user_down) = Exit 1
  /\ filter is_table (trace (snd (getCoinbaseAccounts Fixture.lib Fixture.w_user_down)))
     = [].
Proof. repeat split; vm_compute; reflexivity. Qed.
